(** * SourcePawn v2 lexer: a shallow embedding of [src/v2/lexer.cpp]

    The lexer is a single-threaded state machine over one source buffer.
    Every member function of [Lexer] becomes a computation in a small
    state monad over the record [Lexer]; C [assert]s and the places where
    the C++ code would dereference a null pointer are explicit outcomes.
    Loops and the mutual recursion between [scan] and the directive engine
    are driven by a fuel counter. *)

From Stdlib Require Import ZArith List Bool Ascii String Lia Arith.
Import ListNotations.
Open Scope Z_scope.

Set Implicit Arguments.

(** ** Characters

    A C [char] is modelled as a signed 8-bit integer held in [Z]. *)

Definition to_char (z : Z) : Z := (z + 128) mod 256 - 128.

Definition chr (a : ascii) : Z := to_char (Z.of_nat (nat_of_ascii a)).

Fixpoint chars_of (s : string) : list Z :=
  match s with
  | EmptyString => []
  | String a r => chr a :: chars_of r
  end.

Definition INT_MAX : Z := 2147483647.
Definition UINT64_MOD : Z := 2 ^ 64.

Definition to_uint64 (z : Z) : Z := z mod UINT64_MOD.

Definition IsAscii (c : Z) : bool := 0 <=? c.

Definition IsDigit (c : Z) : bool := (chr "0" <=? c) && (c <=? chr "9").

Definition IsHexDigit (c : Z) : bool :=
  IsDigit c
  || ((chr "a" <=? c) && (c <=? chr "f"))
  || ((chr "A" <=? c) && (c <=? chr "F")).

Definition IsLineTerminator (c : Z) : bool :=
  (c =? 10) || (c =? 13) || (c =? 0).

Definition IsSkipSpace (c : Z) : bool :=
  (c =? chr " ") || (c =? 9) || (c =? 12).

Definition IsIdentStart (c : Z) : bool :=
  ((chr "a" <=? c) && (c <=? chr "z"))
  || ((chr "A" <=? c) && (c <=? chr "Z"))
  || (c =? chr "_").

Definition IsIdentChar (c : Z) : bool :=
  IsIdentStart c || ((chr "0" <=? c) && (c <=? chr "9")).

(** [tolower] of the C library, on the "C" locale. *)
Definition tolower (c : Z) : Z :=
  if (chr "A" <=? c) && (c <=? chr "Z") then c + 32 else c.

(** [sp::StringToInt32]: digits and underscores, read up to the first other
    character; the accumulator is a 32-bit [int]. *)
Definition to_int32 (z : Z) : Z := (z + 2 ^ 31) mod 2 ^ 32 - 2 ^ 31.

Fixpoint StringToInt32_from (v : Z) (ptr : list Z) : Z :=
  match ptr with
  | [] => v
  | c :: r =>
      if IsDigit c || (c =? chr "_") then
        StringToInt32_from
          (if negb (c =? chr "_") then to_int32 (v * 10 + (c - chr "0")) else v) r
      else v
  end.

Definition StringToInt32 (ptr : list Z) : Z := StringToInt32_from 0 ptr.

(** Modelled from the spec: [TryUint64Multiply] and [TryUint64Add] of
    [am-arithmetic.h], which is not among the sources.  The spec calls them a
    checked multiply and a checked add on a 64-bit unsigned accumulator: the
    result is delivered only when it fits. *)
Definition TryUint64Multiply (left right : Z) : option Z :=
  let r := left * right in
  if r <? UINT64_MOD then Some r else None.

Definition TryUint64Add (left right : Z) : option Z :=
  let r := left + right in
  if r <? UINT64_MOD then Some r else None.

(** ** Tokens *)

Inductive TokenKind : Type :=
  | TOK_NONE | TOK_EOL | TOK_EOF | TOK_UNKNOWN | TOK_COMMENT
  | TOK_INTEGER_LITERAL | TOK_HEX_LITERAL | TOK_FLOAT_LITERAL
  | TOK_CHAR_LITERAL | TOK_STRING_LITERAL | TOK_NAME | TOK_LABEL
  | TOK_SEMICOLON | TOK_LBRACE | TOK_RBRACE | TOK_LPAREN | TOK_RPAREN
  | TOK_LBRACKET | TOK_RBRACKET | TOK_TILDE | TOK_QMARK | TOK_COLON
  | TOK_COMMA | TOK_DOT | TOK_ELLIPSES
  | TOK_SLASH | TOK_ASSIGN_DIV | TOK_STAR | TOK_ASSIGN_MUL
  | TOK_PLUS | TOK_ASSIGN_ADD | TOK_INCREMENT
  | TOK_BITAND | TOK_ASSIGN_BITAND | TOK_AND
  | TOK_BITOR | TOK_ASSIGN_BITOR | TOK_OR
  | TOK_BITXOR | TOK_ASSIGN_BITXOR | TOK_PERCENT | TOK_ASSIGN_MOD
  | TOK_MINUS | TOK_ASSIGN_SUB | TOK_DECREMENT
  | TOK_NOT | TOK_NOTEQUALS | TOK_ASSIGN | TOK_EQUALS
  | TOK_LT | TOK_LE | TOK_SHL | TOK_ASSIGN_SHL
  | TOK_GT | TOK_GE | TOK_SHR | TOK_USHR | TOK_ASSIGN_USHR
  | TOK_M_DEFINE | TOK_M_IF | TOK_M_ELSE | TOK_M_ENDIF | TOK_M_UNDEF
  | TOK_M_ENDINPUT | TOK_M_INCLUDE | TOK_M_TRYINCLUDE | TOK_M_PRAGMA
  | TOK_KEYWORD (id : nat).
  (* [TOK_KEYWORD] stands for the language keywords of the token table, none
     of which [lexer.cpp] names. *)

Definition TokenKind_eq_dec (a b : TokenKind) : {a = b} + {a <> b}.
Proof. decide equality. apply Nat.eq_dec. Defined.

Definition kind_eqb (a b : TokenKind) : bool :=
  if TokenKind_eq_dec a b then true else false.

(** A source location is an opaque handle for a byte offset of the lexer's
    range; the default-constructed location is unset. *)
Inductive SourceLocation : Type :=
  | NoLoc
  | Loc (offset : nat).

Definition isSet (l : SourceLocation) : bool :=
  match l with NoLoc => false | Loc _ => true end.

Record TokenPos : Type := mkTokenPos {
  loc : SourceLocation;
  line : nat
}.

Definition TokenPos_default : TokenPos := mkTokenPos NoLoc 0.

(** An atom is an interned byte string; two atoms are the same handle exactly
    when their bytes are equal, so the bytes stand for the handle. *)
Definition Atom : Type := list Z.

(** The payload of a token.  [DoubleValue] keeps the text handed to
    [ParseDouble]: floating-point arithmetic is not part of this model. *)
Inductive Payload : Type :=
  | NoValue
  | IntValue (v : Z)
  | DoubleValue (text : list Z)
  | CharValue (c : Z)
  | AtomValue (a : Atom).

Record Token : Type := mkToken {
  kind : TokenKind;
  start : TokenPos;
  end_ : TokenPos;
  source_id : nat;
  payload : Payload
}.

Definition Token_default : Token :=
  mkToken TOK_NONE TokenPos_default TokenPos_default 0 NoValue.

Definition set_kind (k : TokenKind) (t : Token) : Token :=
  mkToken k (start t) (end_ t) (source_id t) (payload t).
Definition set_end (e : TokenPos) (t : Token) : Token :=
  mkToken (kind t) (start t) e (source_id t) (payload t).
Definition set_payload (p : Payload) (t : Token) : Token :=
  mkToken (kind t) (start t) (end_ t) (source_id t) p.

(** Modelled from the spec: [Token::init] of [lexer.h], which is not among the
    sources.  It initialises the token's start position; the kind and the
    payload are reset and the end position is left as it was. *)
Definition Token_init (p : TokenPos) (id : nat) (t : Token) : Token :=
  mkToken TOK_NONE p (end_ t) id NoValue.

Definition setIntValue (v : Z) := set_payload (IntValue v).
Definition setDoubleValue (text : list Z) := set_payload (DoubleValue text).
(** The character payload is a 32-bit value. *)
Definition setCharValue (c : Z) := set_payload (CharValue (to_int32 c)).
Definition setAtom (a : Atom) := set_payload (AtomValue a).

Definition atom (t : Token) : option Atom :=
  match payload t with AtomValue a => Some a | _ => None end.

(** ** Diagnostics *)

Module rmsg.
Inductive Id : Type :=
  | expected_digit_for_float | int_literal_overflow | unknown_escapecode
  | invalid_char_literal | bad_char_terminator | unterminated_string
  | unterminated_comment | unexpected_char | unknown_directive
  | bad_directive_token | pp_extra_characters | else_without_if
  | else_declared_twice | endif_without_if | unterminated_if
  | unterminated_else | bad_include_syntax | macro_functions_unsupported
  | pragma_must_have_name | bad_pragma_newdecls | unknown_pragma
  | previous_location.

Definition eq_dec (a b : Id) : {a = b} + {a <> b}.
Proof. decide equality. Defined.

Definition eqb (a b : Id) : bool := if eq_dec a b then true else false.
End rmsg.

(** What is streamed into a [MessageBuilder] with [<<]. *)
Inductive MessageArg : Type :=
  | ArgChars (s : list Z)
  | ArgTokenName (k : TokenKind)
  | ArgAtom (a : option Atom)
  | ArgByteHex (b : Z)
  | ArgNote (l : SourceLocation) (id : rmsg.Id).

Record Message : Type := mkMessage {
  msg_loc : SourceLocation;
  msg_id : rmsg.Id;
  msg_args : list MessageArg
}.

Definition ids_of (ms : list Message) : list rmsg.Id := map msg_id ms.

(** ** The lexer and its collaborators *)

Record LexOptions : Type := mkLexOptions {
  RequireNewdecls : bool;
  TraceComments : bool
}.

Module IfContext.
Inductive State : Type := Active | Ignoring | Inactive | Dead.

Definition State_eqb (a b : State) : bool :=
  match a, b with
  | Active, Active | Ignoring, Ignoring | Inactive, Inactive | Dead, Dead => true
  | _, _ => false
  end.

Record t : Type := mk {
  first : SourceLocation;
  state : State;
  elseloc : SourceLocation
}.

(** [IfContext(first, state)]: the else location starts unset. *)
Definition new (f : SourceLocation) (s : State) : t := mk f s NoLoc.
End IfContext.

(** The compile context, as far as the lexer drives it: the reporter's log in
    delivery order and the dynamic heap size a pragma asked for. *)
Record CompileContext : Type := mkCompileContext {
  reports : list Message;
  pragma_dynamic : option Z
}.

Inductive CommentPos : Type := Front | Tail.

Record SourceRange : Type := mkSourceRange {
  range_start : SourceLocation;
  range_end : SourceLocation
}.

(** The preprocessor facade, as far as the lexer drives it.  Macro bodies and
    included files are lexed by other lexers that the facade pushes; this
    model of one lexer records the hand-over in [entered_macros] and
    [entered_files]. *)
Record Preprocessor : Type := mkPreprocessor {
  macro_expansion : bool;
  keywords : list (Atom * TokenKind);
  macros : list (Atom * list Token);
  entered_macros : list (SourceLocation * Atom);
  entered_files : list (TokenKind * SourceLocation * list Z * bool);
  comments : list (CommentPos * SourceRange);
  next_deprecation_message : option (list Z)
}.

Record Lexer : Type := mkLexer {
  cc_ : CompileContext;
  pp_ : Preprocessor;
  options_ : LexOptions;
  chars_ : list Z;
  range_id : nat;
  pos_ : nat;
  line_number_ : nat;
  lexing_for_directive_ : bool;
  suppress_errors_ : bool;
  lexed_tokens_on_line_ : bool;
  literal_ : list Z;
  ifstack_ : list IfContext.t
}.

(** [end_ - chars_]. *)
Definition buffer_length (s : Lexer) : nat := List.length (chars_ s).

Definition with_cc (x : CompileContext) (s : Lexer) : Lexer :=
  mkLexer x (pp_ s) (options_ s) (chars_ s) (range_id s) (pos_ s)
    (line_number_ s) (lexing_for_directive_ s) (suppress_errors_ s)
    (lexed_tokens_on_line_ s) (literal_ s) (ifstack_ s).
Definition with_pp (x : Preprocessor) (s : Lexer) : Lexer :=
  mkLexer (cc_ s) x (options_ s) (chars_ s) (range_id s) (pos_ s)
    (line_number_ s) (lexing_for_directive_ s) (suppress_errors_ s)
    (lexed_tokens_on_line_ s) (literal_ s) (ifstack_ s).
Definition with_options (x : LexOptions) (s : Lexer) : Lexer :=
  mkLexer (cc_ s) (pp_ s) x (chars_ s) (range_id s) (pos_ s)
    (line_number_ s) (lexing_for_directive_ s) (suppress_errors_ s)
    (lexed_tokens_on_line_ s) (literal_ s) (ifstack_ s).
Definition with_pos (x : nat) (s : Lexer) : Lexer :=
  mkLexer (cc_ s) (pp_ s) (options_ s) (chars_ s) (range_id s) x
    (line_number_ s) (lexing_for_directive_ s) (suppress_errors_ s)
    (lexed_tokens_on_line_ s) (literal_ s) (ifstack_ s).
Definition with_line_number (x : nat) (s : Lexer) : Lexer :=
  mkLexer (cc_ s) (pp_ s) (options_ s) (chars_ s) (range_id s) (pos_ s)
    x (lexing_for_directive_ s) (suppress_errors_ s)
    (lexed_tokens_on_line_ s) (literal_ s) (ifstack_ s).
Definition with_lexing_for_directive (x : bool) (s : Lexer) : Lexer :=
  mkLexer (cc_ s) (pp_ s) (options_ s) (chars_ s) (range_id s) (pos_ s)
    (line_number_ s) x (suppress_errors_ s)
    (lexed_tokens_on_line_ s) (literal_ s) (ifstack_ s).
Definition with_suppress_errors (x : bool) (s : Lexer) : Lexer :=
  mkLexer (cc_ s) (pp_ s) (options_ s) (chars_ s) (range_id s) (pos_ s)
    (line_number_ s) (lexing_for_directive_ s) x
    (lexed_tokens_on_line_ s) (literal_ s) (ifstack_ s).
Definition with_lexed_tokens_on_line (x : bool) (s : Lexer) : Lexer :=
  mkLexer (cc_ s) (pp_ s) (options_ s) (chars_ s) (range_id s) (pos_ s)
    (line_number_ s) (lexing_for_directive_ s) (suppress_errors_ s)
    x (literal_ s) (ifstack_ s).
Definition with_literal (x : list Z) (s : Lexer) : Lexer :=
  mkLexer (cc_ s) (pp_ s) (options_ s) (chars_ s) (range_id s) (pos_ s)
    (line_number_ s) (lexing_for_directive_ s) (suppress_errors_ s)
    (lexed_tokens_on_line_ s) x (ifstack_ s).
Definition with_ifstack (x : list IfContext.t) (s : Lexer) : Lexer :=
  mkLexer (cc_ s) (pp_ s) (options_ s) (chars_ s) (range_id s) (pos_ s)
    (line_number_ s) (lexing_for_directive_ s) (suppress_errors_ s)
    (lexed_tokens_on_line_ s) (literal_ s) x.

(** [Lexer::Lexer]: the cursor at the first byte, line 1, no flag set. *)
Definition Lexer_new (cc : CompileContext) (pp : Preprocessor)
    (options : LexOptions) (buffer : list Z) (range : nat) : Lexer :=
  mkLexer cc pp options buffer range 0 1 false false false [] [].

(** ** The monad of member functions

    [Ok a s]: the call returned [a] and left the lexer in [s].
    [AssertFail s]: a C [assert] failed in state [s].
    [Stuck s]: the call has no defined behaviour in C++ (a null pointer
    dereferenced, an empty vector popped) or leaves the modelled part of a
    collaborator.
    [OutOfFuel]: the fuel was used up before the call returned. *)

Inductive Res (A : Type) : Type :=
  | Ok (a : A) (s : Lexer)
  | AssertFail (s : Lexer)
  | Stuck (s : Lexer)
  | OutOfFuel.

Arguments AssertFail {A} s.
Arguments Stuck {A} s.
Arguments OutOfFuel {A}.

Definition M (A : Type) : Type := Lexer -> Res A.

Definition ret {A} (a : A) : M A := fun s => Ok a s.

Definition bind {A B} (m : M A) (f : A -> M B) : M B :=
  fun s =>
    match m s with
    | Ok a s' => f a s'
    | AssertFail s' => AssertFail s'
    | Stuck s' => Stuck s'
    | OutOfFuel => OutOfFuel
    end.

Declare Scope lexer_scope.
Delimit Scope lexer_scope with lexer.
Notation "x <- m ;; k" := (bind m (fun x => k))
  (at level 100, m at next level, right associativity) : lexer_scope.
Notation "' p <- m ;; k" := (bind m (fun x => let p := x in k))
  (at level 100, p pattern, m at next level, right associativity) : lexer_scope.
Notation "m ;;; k" := (bind m (fun _ => k))
  (at level 100, right associativity) : lexer_scope.
Open Scope lexer_scope.

Definition get : M Lexer := fun s => Ok s s.
Definition gets {A} (f : Lexer -> A) : M A := fun s => Ok (f s) s.
Definition modify (f : Lexer -> Lexer) : M unit := fun s => Ok tt (f s).
Definition assert (b : bool) : M unit :=
  fun s => if b then Ok tt s else AssertFail s.
Definition stuck {A} : M A := fun s => Stuck s.
Definition out_of_fuel {A} : M A := fun _ => OutOfFuel.

(** [SaveAndSet<bool>]: set a flag for a scope and restore the saved value
    when the scope is left by any return. *)
Definition SaveAndSet {A} (read : Lexer -> bool) (write : bool -> Lexer -> Lexer)
    (v : bool) (scope : M A) : M A :=
  saved <- gets read ;;
  modify (write v) ;;;
  r <- scope ;;
  modify (write saved) ;;;
  ret r.

(** ** Source buffer cursor

    Modelled from the spec: the inline cursor operations of [lexer.h], which
    is not among the sources.  [read_char] advances and returns the byte, and
    returns the NUL sentinel at the end of the buffer; the cursor advances
    there too, so that the one-byte backup [pos_--] of the scanners always
    undoes exactly the last read. *)

Definition char_at (s : Lexer) (p : nat) : Z :=
  if (buffer_length s <=? p)%nat then 0 else nth p (chars_ s) 0.

Definition readChar : M Z :=
  fun s => Ok (char_at s (pos_ s)) (with_pos (S (pos_ s)) s).

Definition peekChar : M Z := fun s => Ok (char_at s (pos_ s)) s.

Definition peekCharIs (expected : Z) : M bool :=
  c <- peekChar ;; ret (c =? expected).

Definition matchChar (expected : Z) : M bool :=
  c <- peekChar ;;
  if negb (c =? expected) then ret false
  else modify (fun s => with_pos (S (pos_ s)) s) ;;; ret true.

(** [pos_--] and [pos_ -= 1]. *)
Definition backup : M unit := modify (fun s => with_pos (pos_ s - 1)%nat s).

Definition ptr : M nat := gets pos_.
Definition pos : M SourceLocation := gets (fun s => Loc (pos_ s)).
Definition lastpos : M SourceLocation := gets (fun s => Loc (pos_ s - 1)%nat).

(** ** Reporting *)

(** [cc_.report]: the message is delivered to the reporter. *)
Definition cc_report (l : SourceLocation) (id : rmsg.Id) (args : list MessageArg) : M unit :=
  modify (fun s =>
    with_cc (mkCompileContext (reports (cc_ s) ++ [mkMessage l id args])
                              (pragma_dynamic (cc_ s))) s).

(** [Lexer::report]: a builder on nothing while errors are suppressed. *)
Definition report (l : SourceLocation) (id : rmsg.Id) (args : list MessageArg) : M unit :=
  suppressed <- gets suppress_errors_ ;;
  if suppressed then ret tt else cc_report l id args.

(** ** The scratch literal *)

Definition literal_clear : M unit := modify (with_literal []).
Definition literal_append (c : Z) : M unit :=
  modify (fun s => with_literal (literal_ s ++ [c]) s).

(** Modelled from the spec: [literal_length] of [lexer.h]; the literal is
    NUL-terminated on completion and its length does not count the NUL. *)
Definition literal_length (s : Lexer) : nat := (List.length (literal_ s) - 1)%nat.

(** The bytes [literal(), literal_length()] handed to the atom table. *)
Definition literal_text (s : Lexer) : list Z := firstn (literal_length s) (literal_ s).

(** [cc_.add]: interning. *)
Definition cc_add (bytes : list Z) : Atom := bytes.

Definition bytes_eqb (a b : list Z) : bool :=
  if list_eq_dec Z.eq_dec a b then true else false.

(** ** Small helpers of the scanner *)

Fixpoint skipSpaces_loop (fuel : nat) : M unit :=
  match fuel with
  | O => out_of_fuel
  | S fuel' =>
      c <- peekChar ;;
      if IsSkipSpace c then readChar ;;; skipSpaces_loop fuel' else ret tt
  end.

Definition skipSpaces (fuel : nat) : M nat := skipSpaces_loop fuel ;;; ptr.

Fixpoint firstNonSpaceChar_loop (fuel : nat) (c : Z) : M Z :=
  match fuel with
  | O => out_of_fuel
  | S fuel' =>
      if IsSkipSpace c then c' <- readChar ;; firstNonSpaceChar_loop fuel' c'
      else ret c
  end.

Definition firstNonSpaceChar (fuel : nat) : M Z :=
  c <- readChar ;; firstNonSpaceChar_loop fuel c.

Fixpoint read_to_line_end (fuel : nat) : M unit :=
  match fuel with
  | O => out_of_fuel
  | S fuel' =>
      c <- peekChar ;;
      if negb (IsLineTerminator c) then readChar ;;; read_to_line_end fuel'
      else ret tt
  end.

(** The backward trim of [readUntilEnd]: [end] moves down to [begin] past
    spaces and line terminators. *)
Fixpoint trim_end (s : Lexer) (begin : nat) (e : nat) : nat :=
  match e with
  | O => e
  | S e' =>
      if (begin <? e)%nat then
        if negb (IsSkipSpace (char_at s e)) && negb (IsLineTerminator (char_at s e))
        then e
        else trim_end s begin e'
      else e
  end.

Definition readUntilEnd (fuel : nat) : M (nat * nat) :=
  begin <- skipSpaces fuel ;;
  read_to_line_end fuel ;;;
  e <- ptr ;;
  s <- get ;;
  ret (begin, S (trim_end s begin e)).

(** ** Literal scanners *)

Fixpoint hexLiteral_loop (fuel : nat) : M unit :=
  match fuel with
  | O => out_of_fuel
  | S fuel' =>
      c <- readChar ;;
      if negb (IsHexDigit c) then backup
      else literal_append c ;;; hexLiteral_loop fuel'
  end.

Definition hexLiteral (fuel : nat) : M TokenKind :=
  literal_clear ;;;
  hexLiteral_loop fuel ;;;
  literal_append 0 ;;;
  ret TOK_HEX_LITERAL.

(** [for (;;) { c = readChar(); if (!IsDigit(c)) break; literal_.append(c); }]
    The character that ended the loop is returned. *)
Fixpoint digits_loop (fuel : nat) : M Z :=
  match fuel with
  | O => out_of_fuel
  | S fuel' =>
      c <- readChar ;;
      if negb (IsDigit c) then ret c
      else literal_append c ;;; digits_loop fuel'
  end.

(** The same loop with [pos_--] before the [break]. *)
Fixpoint digits_loop_backup (fuel : nat) : M Z :=
  match fuel with
  | O => out_of_fuel
  | S fuel' =>
      c <- readChar ;;
      if negb (IsDigit c) then backup ;;; ret c
      else literal_append c ;;; digits_loop_backup fuel'
  end.

Definition numberLiteral (fuel : nat) (first : Z) : M TokenKind :=
  literal_clear ;;;
  literal_append first ;;;
  c <- digits_loop fuel ;;
  lit <- gets literal_ ;;
  (* Detect a hexadecimal string. *)
  if (List.length lit =? 1)%nat && (nth 0 lit 0 =? chr "0")
     && ((c =? chr "x") || (c =? chr "X"))
  then hexLiteral fuel
  else if negb (c =? chr ".") then
    backup ;;;
    literal_append 0 ;;;
    ret TOK_INTEGER_LITERAL
  else
    literal_append c ;;;
    c <- readChar ;;
    if negb (IsDigit c) then
      p <- pos ;;
      cc_report p rmsg.expected_digit_for_float [ArgChars [c]] ;;;
      ret TOK_UNKNOWN
    else
      literal_append c ;;;
      c <- digits_loop_backup fuel ;;
      matched <- matchChar (chr "e") ;;
      if negb matched then
        literal_append 0 ;;;
        ret TOK_FLOAT_LITERAL
      else
        literal_append c ;;;
        c <- readChar ;;
        c <- (if c =? chr "-" then literal_append c ;;; readChar else ret c) ;;
        if negb (IsDigit c) then
          backup ;;;
          p <- pos ;;
          cc_report p rmsg.expected_digit_for_float [ArgChars [c]] ;;;
          ret TOK_UNKNOWN
        else
          literal_append c ;;;
          digits_loop_backup fuel ;;;
          literal_append 0 ;;;
          ret TOK_FLOAT_LITERAL.

Definition HexDigitToValue (c : Z) : M Z :=
  if IsDigit c then ret (to_uint64 (c - chr "0"))
  else if chr "a" <=? c then
    assert (c <=? chr "f") ;;;
    ret (to_uint64 (c - chr "a" + 10))
  else
    assert ((chr "A" <=? c) && (c <=? chr "F")) ;;;
    ret (to_uint64 (c - chr "A" + 10)).

(** The decoding loop of the [TOK_INTEGER_LITERAL] case, over the bytes
    [literal_[i]] for [i < literal_length()] that are still to be read. *)
Fixpoint decode_integer (l : SourceLocation) (digits : list Z) (val : Z) : M Z :=
  match digits with
  | [] => ret val
  | c :: rest =>
      assert (IsDigit c) ;;;
      match TryUint64Multiply val 10 with
      | None => report l rmsg.int_literal_overflow [] ;;; ret val
      | Some val1 =>
          match TryUint64Add val1 (to_uint64 (c - chr "0")) with
          | None => report l rmsg.int_literal_overflow [] ;;; ret val1
          | Some val2 => decode_integer l rest val2
          end
      end
  end.

(** The decoding loop of the [TOK_HEX_LITERAL] case. *)
Fixpoint decode_hex (l : SourceLocation) (digits : list Z) (val : Z) : M Z :=
  match digits with
  | [] => ret val
  | c :: rest =>
      digit <- HexDigitToValue c ;;
      match TryUint64Multiply val 10 with
      | None => report l rmsg.int_literal_overflow [] ;;; ret val
      | Some val1 =>
          match TryUint64Add val1 digit with
          | None => report l rmsg.int_literal_overflow [] ;;; ret val1
          | Some val2 => decode_hex l rest val2
          end
      end
  end.

Definition handleNumber (fuel : nat) (tok : Token) (first : Z) : M (TokenKind * Token) :=
  k <- numberLiteral fuel first ;;
  match k with
  | TOK_INTEGER_LITERAL =>
      text <- gets literal_text ;;
      val <- decode_integer (loc (start tok)) text 0 ;;
      ret (k, setIntValue val tok)
  | TOK_HEX_LITERAL =>
      text <- gets literal_text ;;
      val <- decode_hex (loc (start tok)) text 0 ;;
      ret (k, setIntValue val tok)
  | TOK_FLOAT_LITERAL =>
      text <- gets literal_ ;;
      ret (k, setDoubleValue text tok)
  | _ =>
      assert false ;;;
      ret (k, tok)
  end.

(** ** Identifiers and the preprocessor facade *)

Fixpoint name_loop (fuel : nat) : M unit :=
  match fuel with
  | O => out_of_fuel
  | S fuel' =>
      c <- readChar ;;
      if negb (IsIdentChar c) then backup
      else literal_append c ;;; name_loop fuel'
  end.

Definition name (fuel : nat) (first : Z) : M TokenKind :=
  literal_clear ;;;
  literal_append first ;;;
  name_loop fuel ;;;
  literal_append 0 ;;;
  ret TOK_NAME.

Fixpoint lookup_atom {V} (a : Atom) (table : list (Atom * V)) : option V :=
  match table with
  | [] => None
  | (k, v) :: rest => if bytes_eqb a k then Some v else lookup_atom a rest
  end.

(** Modelled from the spec: [Preprocessor::findKeyword] of [preprocessor.cpp],
    which is not among the sources; it returns [TOK_NONE] for an atom that is
    not a keyword.  The keyword table is a field of the facade. *)
Definition findKeyword (a : Atom) : M TokenKind :=
  table <- gets (fun s => keywords (pp_ s)) ;;
  match lookup_atom a table with
  | Some k => ret k
  | None => ret TOK_NONE
  end.

(** The directive names of the keyword table, as section 4.G of the spec
    lists them. *)
Definition directive_keywords : list (Atom * TokenKind) :=
  [ (chars_of "#define", TOK_M_DEFINE); (chars_of "#undef", TOK_M_UNDEF);
    (chars_of "#if", TOK_M_IF); (chars_of "#else", TOK_M_ELSE);
    (chars_of "#endif", TOK_M_ENDIF); (chars_of "#include", TOK_M_INCLUDE);
    (chars_of "#tryinclude", TOK_M_TRYINCLUDE);
    (chars_of "#endinput", TOK_M_ENDINPUT); (chars_of "#pragma", TOK_M_PRAGMA) ].

Definition modify_pp (f : Preprocessor -> Preprocessor) : M unit :=
  modify (fun s => with_pp (f (pp_ s)) s).

Definition set_macro_expansion (b : bool) (s : Lexer) : Lexer :=
  let p := pp_ s in
  with_pp (mkPreprocessor b (keywords p) (macros p) (entered_macros p)
             (entered_files p) (comments p) (next_deprecation_message p)) s.

(** Modelled from the spec: [Preprocessor::enterMacro]; it pushes a virtual
    source over the cursor iff the atom is a defined macro. *)
Definition enterMacro (l : SourceLocation) (a : Atom) : M bool :=
  table <- gets (fun s => macros (pp_ s)) ;;
  match lookup_atom a table with
  | None => ret false
  | Some _ =>
      modify_pp (fun p =>
        mkPreprocessor (macro_expansion p) (keywords p) (macros p)
          (entered_macros p ++ [(l, a)]) (entered_files p) (comments p)
          (next_deprecation_message p)) ;;;
      ret true
  end.

(** Modelled from the spec: [Preprocessor::defineMacro], keyed by atom. *)
Definition defineMacro (a : Atom) (l : SourceLocation) (tokens : list Token) : M unit :=
  modify_pp (fun p =>
    mkPreprocessor (macro_expansion p) (keywords p) ((a, tokens) :: macros p)
      (entered_macros p) (entered_files p) (comments p)
      (next_deprecation_message p)).

(** Modelled from the spec: [Preprocessor::removeMacro]; the facade drops the
    macro, and the result says whether there was one to drop. *)
Definition removeMacro (l : SourceLocation) (a : Atom) : M bool :=
  table <- gets (fun s => macros (pp_ s)) ;;
  modify_pp (fun p =>
    mkPreprocessor (macro_expansion p) (keywords p)
      (filter (fun e => negb (bytes_eqb a (fst e))) (macros p))
      (entered_macros p) (entered_files p) (comments p)
      (next_deprecation_message p)) ;;;
  ret (match lookup_atom a table with Some _ => true | None => false end).

(** Modelled from the spec: [Preprocessor::enterFile]; path resolution and the
    new lexer belong to the facade, the request is recorded. *)
Definition enterFile (directive : TokenKind) (begin : SourceLocation)
    (filename : list Z) (relative : bool) : M unit :=
  modify_pp (fun p =>
    mkPreprocessor (macro_expansion p) (keywords p) (macros p)
      (entered_macros p) (entered_files p ++ [(directive, begin, filename, relative)])
      (comments p) (next_deprecation_message p)).

(** Modelled from the spec: [Preprocessor::addComment]. *)
Definition addComment (where_ : CommentPos) (range : SourceRange) : M unit :=
  modify_pp (fun p =>
    mkPreprocessor (macro_expansion p) (keywords p) (macros p)
      (entered_macros p) (entered_files p) (comments p ++ [(where_, range)])
      (next_deprecation_message p)).

(** Modelled from the spec: [Preprocessor::setNextDeprecationMessage]. *)
Definition setNextDeprecationMessage (bytes : list Z) : M unit :=
  modify_pp (fun p =>
    mkPreprocessor (macro_expansion p) (keywords p) (macros p)
      (entered_macros p) (entered_files p) (comments p) (Some bytes)).

(** Modelled from the spec: [CompileContext::ChangePragmaDynamic]; the
    context is notified of the requested dynamic heap size. *)
Definition ChangePragmaDynamic (l : SourceLocation) (value : Z) : M bool :=
  modify (fun s => with_cc (mkCompileContext (reports (cc_ s)) (Some value)) s) ;;;
  ret true.

Definition maybeKeyword (fuel : nat) (first : Z) : M TokenKind :=
  name fuel first ;;;
  text <- gets literal_text ;;
  findKeyword (cc_add text).

(** ** Escape codes, character and string literals. *)

(** The [while (IsHexDigit(c) && digits < 2)] loop of the [\x] case.  The
    value assigned to [c] inside the body is replaced by the next
    [readChar()]; [r] is not written. *)
Fixpoint escape_hex_loop (fuel : nat) (c : Z) (digits : nat) : M Z :=
  match fuel with
  | O => out_of_fuel
  | S fuel' =>
      if IsHexDigit c && (digits <? 2)%nat then
        let c :=
          if IsDigit c then to_char (Z.shiftl c 4 + (c - chr "0"))
          else to_char (Z.shiftl c 4 + (tolower c - chr "a" + 10)) in
        let digits := S digits in
        c <- readChar ;;
        escape_hex_loop fuel' c digits
      else ret c
  end.

(** The [while (IsDigit(c))] loop of the [\ddd] case; [r] is a [char]. *)
Fixpoint escape_decimal_loop (fuel : nat) (c : Z) (r : Z) : M (Z * Z) :=
  match fuel with
  | O => out_of_fuel
  | S fuel' =>
      if IsDigit c then
        let r := to_char (r * 10 + (c - chr "0")) in
        c <- readChar ;;
        escape_decimal_loop fuel' c r
      else ret (c, r)
  end.

Definition readEscapeCode (fuel : nat) : M Z :=
  c <- readChar ;;
  if c =? chr "\" then ret c
  else if c =? chr "a" then ret 7
  else if c =? chr "b" then ret 8
  else if c =? chr "e" then ret 27
  else if c =? chr "f" then ret 12
  else if c =? chr "n" then ret 10
  else if c =? chr "r" then ret 13
  else if c =? chr "t" then ret 9
  else if c =? chr "v" then ret 11
  else if c =? chr "x" then
    let r := 0 in
    c <- readChar ;;
    c <- escape_hex_loop fuel c 0 ;;
    (* Swallow a trailing semicolon. *)
    (if negb (c =? chr ";") then backup else ret tt) ;;;
    ret r
  else if (c =? chr "'") || (c =? 34) || (c =? chr "%") then ret c
  else if IsDigit c then
    ' (c, r) <- escape_decimal_loop fuel c 0 ;;
    (* Swallow a trailing semicolon. *)
    (if negb (c =? chr ";") then backup else ret tt) ;;;
    ret r
  else
    p <- lastpos ;;
    cc_report p rmsg.unknown_escapecode [ArgChars [c]] ;;;
    ret INT_MAX.

Definition charLiteral (fuel : nat) (tok : Token) : M (TokenKind * Token) :=
  c <- readChar ;;
  if c =? chr "'" then
    report (loc (start tok)) rmsg.invalid_char_literal [] ;;;
    ret (TOK_UNKNOWN, tok)
  else
    let tok := set_kind TOK_CHAR_LITERAL tok in
    tok <- (if c =? chr "\" then
              code <- readEscapeCode fuel ;; ret (setCharValue code tok)
            else ret (setCharValue c tok)) ;;
    c <- readChar ;;
    (if negb (c =? chr "'") then
       report (loc (start tok)) rmsg.bad_char_terminator [] ;;;
       (* If the character is a double quote, assume a typo and keep the
          token. Otherwise, backtrack. *)
       (if negb (c =? 34) then backup else ret tt)
     else ret tt) ;;;
    ret (kind tok, tok).

(** The [for (;;)] loop of [stringLiteral]; [true] when it was left by the
    closing quote, [false] when it returned on a line terminator. *)
Fixpoint stringLiteral_loop (fuel : nat) (tok : Token) : M bool :=
  match fuel with
  | O => out_of_fuel
  | S fuel' =>
      c <- readChar ;;
      if c =? 34 then ret true
      else if (c =? 13) || (c =? 10) || (c =? 0) then
        cc_report (loc (start tok)) rmsg.unterminated_string [] ;;;
        ret false
      else
        c <- (if c =? chr "\" then
                code <- readEscapeCode fuel' ;;
                let code := if code =? INT_MAX then chr "?" else code in
                ret (to_char code)
              else ret c) ;;
        literal_append c ;;;
        stringLiteral_loop fuel' tok
  end.

Definition stringLiteral (fuel : nat) (tok : Token) : M (TokenKind * Token) :=
  literal_clear ;;;
  closed <- stringLiteral_loop fuel tok ;;
  if negb closed then ret (TOK_STRING_LITERAL, tok)
  else
    literal_append 0 ;;;
    text <- gets literal_text ;;
    ret (TOK_STRING_LITERAL, setAtom (cc_add text) tok).

Definition handleIdentifier (fuel : nat) (tok : Token) (first : Z) : M (TokenKind * Token) :=
  name fuel first ;;;
  text <- gets literal_text ;;
  let a := cc_add text in
  let tok := setAtom a tok in
  expansion <- gets (fun s => macro_expansion (pp_ s)) ;;
  entered <- (if expansion then enterMacro (loc (start tok)) a else ret false) ;;
  if entered then
    (* No matter what the macro expands to, it introduced a token onto the
       current line. *)
    modify (with_lexed_tokens_on_line true) ;;;
    ret (TOK_NONE, tok)
  else
    k <- findKeyword a ;;
    if negb (kind_eqb k TOK_NONE) then ret (k, tok)
    else
      colon <- matchChar (chr ":") ;;
      if colon then ret (TOK_LABEL, tok) else ret (TOK_NAME, tok).

(** ** Comments, line accounting and whitespace *)

Definition current_TokenPos : M TokenPos :=
  gets (fun s => mkTokenPos (Loc (pos_ s)) (line_number_ s)).

Definition singleLineComment (fuel : nat) (tok : Token) : M (TokenKind * Token) :=
  read_to_line_end fuel ;;;
  (* Comments are filled in early since the caller lexes again. *)
  e <- current_TokenPos ;;
  ret (TOK_COMMENT, set_kind TOK_COMMENT (set_end e tok)).

(** Advance line heuristics for newline character [c]. *)
Definition advanceLine (c : Z) : M unit :=
  assert ((c =? 13) || (c =? 10)) ;;;
  (if c =? 13 then
     c' <- readChar ;;
     if negb (c' =? 10) then backup else ret tt
   else ret tt) ;;;
  modify (fun s => with_line_number (S (line_number_ s)) s) ;;;
  modify (with_lexed_tokens_on_line false).

Fixpoint multiLineComment_loop (fuel : nat) (tok : Token) : M unit :=
  match fuel with
  | O => out_of_fuel
  | S fuel' =>
      c <- readChar ;;
      if (c =? 13) || (c =? 10) then
        advanceLine c ;;; multiLineComment_loop fuel' tok
      else if c =? 0 then
        cc_report (loc (start tok)) rmsg.unterminated_comment []
      else if c =? chr "*" then
        closed <- matchChar (chr "/") ;;
        if closed then ret tt else multiLineComment_loop fuel' tok
      else multiLineComment_loop fuel' tok
  end.

Definition multiLineComment (fuel : nat) (tok : Token) : M (TokenKind * Token) :=
  multiLineComment_loop fuel tok ;;;
  e <- current_TokenPos ;;
  ret (TOK_COMMENT, set_kind TOK_COMMENT (set_end e tok)).

(** Consume characters until we have something to start parsing from. *)
Fixpoint consumeWhitespace (fuel : nat) : M Z :=
  match fuel with
  | O => out_of_fuel
  | S fuel' =>
      c <- readChar ;;
      if (c =? 10) || (c =? 13) then
        directive <- gets lexing_for_directive_ ;;
        if directive then
          (* Back up - don't consume the newline. *)
          backup ;;; ret c
        else advanceLine c ;;; consumeWhitespace fuel'
      else if (c =? chr " ") || (c =? 9) || (c =? 12) then
        consumeWhitespace fuel'
      else ret c
  end.

(** ** The if-stack *)

(** [ifstack_] is a vector: [append] adds at the back, [pop] removes the back. *)
Definition currentIf (s : Lexer) : option IfContext.t :=
  match rev (ifstack_ s) with
  | [] => None
  | ix :: _ => Some ix
  end.

Definition ifstack_append (ix : IfContext.t) : M unit :=
  modify (fun s => with_ifstack (ifstack_ s ++ [ix]) s).

Definition ifstack_pop : M unit :=
  fun s =>
    match ifstack_ s with
    | [] => Stuck s
    | _ => Ok tt (with_ifstack (removelast (ifstack_ s)) s)
    end.

(** A write through the pointer [currentIf()] returned. *)
Definition currentIf_write (ix : IfContext.t) : M unit :=
  fun s =>
    match ifstack_ s with
    | [] => Stuck s
    | _ => Ok tt (with_ifstack (removelast (ifstack_ s) ++ [ix]) s)
    end.

Definition is_active (o : option IfContext.t) : bool :=
  match o with
  | Some ix => IfContext.State_eqb (IfContext.state ix) IfContext.Active
  | None => false
  end.

Definition checkIfStackAtEndOfFile : M unit :=
  cur <- gets currentIf ;;
  match cur with
  | Some ix =>
      if isSet (IfContext.elseloc ix)
      then cc_report (IfContext.elseloc ix) rmsg.unterminated_else []
      else cc_report (IfContext.first ix) rmsg.unterminated_if []
  | None => ret tt
  end.

(** Modelled from the spec: [Preprocessor::handleEndOfFile]; it is true if
    another file was resumed and false at true end of input.  This lexer is
    the only one on the file stack; the facade asks it to verify that its
    [#if] blocks ended. *)
Definition handleEndOfFile : M bool :=
  checkIfStackAtEndOfFile ;;; ret false.

(** ** The directive engine

    [scan] and the directive engine call each other.  The engine is written
    over the scanner it calls back, [scan_rec]; the knot is tied in [scan]. *)

Section DirectiveEngine.

Variable scan_rec : Token -> M (TokenKind * Token).

(** [do { tok->kind = scan(tok); } while (tok->kind == TOK_COMMENT);] *)
Fixpoint directive_next_loop (fuel : nat) (tok : Token) : M Token :=
  match fuel with
  | O => out_of_fuel
  | S fuel' =>
      ' (k, tok) <- scan_rec tok ;;
      let tok := set_kind k tok in
      if kind_eqb (kind tok) TOK_COMMENT then directive_next_loop fuel' tok
      else ret tok
  end.

(** Lex for a token while inside a preprocessor directive. *)
Definition directive_next (fuel : nat) (tok : Token) : M (TokenKind * Token) :=
  directive <- gets lexing_for_directive_ ;;
  assert directive ;;;
  tok <- directive_next_loop fuel tok ;;
  e <- current_TokenPos ;;
  let tok := set_end e tok in
  ret (kind tok, tok).

Fixpoint chewLine_loop (fuel : nat) (warnOnNonSpace warned : bool) : M unit :=
  match fuel with
  | O => out_of_fuel
  | S fuel' =>
      ' (k, tok) <- directive_next fuel' Token_default ;;
      match k with
      | TOK_EOL => ret tt
      | TOK_COMMENT => chewLine_loop fuel' warnOnNonSpace warned
      | _ =>
          if warnOnNonSpace && negb warned then
            (* Note: use cc since we're suppressing internal errors. *)
            cc_report (loc (start tok)) rmsg.pp_extra_characters [] ;;;
            chewLine_loop fuel' warnOnNonSpace true
          else chewLine_loop fuel' warnOnNonSpace warned
      end
  end.

(** Eat any trailing characters after a preprocessor directive, until we hit
    a newline. *)
Definition chewLineAfterDirective (fuel : nat) (warnOnNonSpace : bool) : M unit :=
  directive <- gets lexing_for_directive_ ;;
  assert directive ;;;
  SaveAndSet suppress_errors_ with_suppress_errors true
    (chewLine_loop fuel warnOnNonSpace false).

Definition handleDirectiveWhileInactive (fuel : nat) : M unit :=
  SaveAndSet lexing_for_directive_ with_lexing_for_directive true
    (begin <- lastpos ;;
     directive <- maybeKeyword fuel (chr "#") ;;
     match directive with
     | TOK_M_IF =>
         (* We need to push something here, otherwise we don't know which
            #endifs match up to what. *)
         ifstack_append (IfContext.new begin IfContext.Dead)
     | TOK_M_ELSE =>
         cur <- gets currentIf ;;
         match cur with
         | None => stuck
         | Some ix =>
             (* Only check and update the context if we're not inside a dead
                context. *)
             if IfContext.State_eqb (IfContext.state ix) IfContext.Dead then ret tt
             else
               (if isSet (IfContext.elseloc ix) then
                  report begin rmsg.else_declared_twice
                    [ArgNote (IfContext.elseloc ix) rmsg.previous_location]
                else ret tt) ;;;
               currentIf_write
                 (IfContext.mk (IfContext.first ix)
                    (if IfContext.State_eqb (IfContext.state ix) IfContext.Ignoring
                     then IfContext.Active else IfContext.Inactive)
                    begin) ;;;
               chewLineAfterDirective fuel true
         end
     | TOK_M_ENDIF =>
         ifstack_pop ;;;
         chewLineAfterDirective fuel true
     | _ =>
         (* If we don't recognize the token, we just ignore it. *)
         ret tt
     end).

(** [while (!IsLineTerminator(c)) c = readChar();] *)
Fixpoint read_past_line (fuel : nat) (c : Z) : M Z :=
  match fuel with
  | O => out_of_fuel
  | S fuel' =>
      if negb (IsLineTerminator c) then c' <- readChar ;; read_past_line fuel' c'
      else ret c
  end.

Fixpoint handleIfContext_loop (fuel : nat) : M unit :=
  match fuel with
  | O => out_of_fuel
  | S fuel' =>
      c <- firstNonSpaceChar fuel' ;;
      back <- (if c =? chr "#" then
                 (* Handle the directive. This might put us back into normal
                    lexing territory, so check afterward. *)
                 handleDirectiveWhileInactive fuel' ;;;
                 cur <- gets currentIf ;;
                 ret (match cur with None => true | Some _ => is_active cur end)
               else ret false) ;;
      if back then ret tt
      else
        c <- read_past_line fuel' c ;;
        if c =? 0 then ret tt
        else advanceLine c ;;; handleIfContext_loop fuel'
  end.

Definition handleIfContext (fuel : nat) : M unit :=
  (* Because we chew lines after a directive, we should be at a newline or
     EOF right now. *)
  c <- peekChar ;;
  assert ((c =? 13) || (c =? 10) || (c =? 0)) ;;;
  if c =? 0 then ret tt
  else
    advanceLine c ;;;
    handleIfContext_loop fuel.

(** [while (directive_next(&tok) == TOK_COMMENT) continue;] *)
Fixpoint next_non_comment (fuel : nat) (tok : Token) : M Token :=
  match fuel with
  | O => out_of_fuel
  | S fuel' =>
      ' (k, tok) <- directive_next fuel' tok ;;
      if kind_eqb k TOK_COMMENT then next_non_comment fuel' tok else ret tok
  end.

Fixpoint getMacroTokens_loop (fuel : nat) (tokens : list Token) : M (list Token) :=
  match fuel with
  | O => out_of_fuel
  | S fuel' =>
      tok <- next_non_comment fuel' Token_default ;;
      if kind_eqb (kind tok) TOK_EOL then ret tokens
      else getMacroTokens_loop fuel' (tokens ++ [tok])
  end.

Definition getMacroTokens (fuel : nat) : M (list Token) :=
  (* We do not allow macro expansion while we're looking for tokens. *)
  SaveAndSet (fun s => macro_expansion (pp_ s)) set_macro_expansion false
    (getMacroTokens_loop fuel []).

(** Modelled from the spec: [Preprocessor::eval] of [preprocessor.cpp], which
    is not among the sources.  It evaluates the rest of the line as a
    constant integer expression, reading tokens through the lexer until
    [TOK_EOL], and is true on success.  The model covers the expressions that
    consist of one integer literal; any other expression leaves the modelled
    part of the facade. *)
Definition eval (fuel : nat) : M (bool * Z) :=
  ' (k, tok) <- directive_next fuel Token_default ;;
  match k, payload tok with
  | TOK_INTEGER_LITERAL, IntValue v
  | TOK_HEX_LITERAL, IntValue v =>
      ' (k', _) <- directive_next fuel Token_default ;;
      if kind_eqb k' TOK_EOL then ret (true, to_int32 v) else stuck
  | _, _ => stuck
  end.

Definition atom_is (tok : Token) (s : string) : bool :=
  match atom tok with
  | Some a => bytes_eqb a (chars_of s)
  | None => false
  end.

(** The file name loop of [#include]: [false] when a line terminator came
    before the closing delimiter. *)
Fixpoint include_name_loop (fuel : nat) (match_ : Z) : M bool :=
  match fuel with
  | O => out_of_fuel
  | S fuel' =>
      c <- peekChar ;;
      if IsLineTerminator c then
        p <- lastpos ;;
        report p rmsg.bad_include_syntax [] ;;;
        ret false
      else
        c <- readChar ;;
        if c =? match_ then ret true
        else literal_append c ;;; include_name_loop fuel' match_
  end.

Definition handlePragma (fuel : nat) : M bool :=
  ' (k, tok) <- directive_next fuel Token_default ;;
  if negb (kind_eqb k TOK_NAME) then
    cc_report (loc (start tok)) rmsg.pragma_must_have_name [] ;;;
    ret false
  else if atom_is tok "deprecated" then
    ' (b, e) <- readUntilEnd fuel ;;
    s <- get ;;
    setNextDeprecationMessage (firstn (e - b) (skipn b (chars_ s))) ;;;
    ret true
  else if atom_is tok "newdecls" then
    SaveAndSet (fun s => macro_expansion (pp_ s)) set_macro_expansion false
      (* Whether or not newdecls are required is limited to the local lexer
         options, though they are inherited. *)
      (' (k, tok) <- directive_next fuel tok ;;
       if negb (kind_eqb k TOK_NAME) then
         cc_report (loc (start tok)) rmsg.bad_pragma_newdecls [] ;;;
         ret false
       else if atom_is tok "required" then
         modify (fun s => with_options
                   (mkLexOptions true (TraceComments (options_ s))) s) ;;;
         ret true
       else if atom_is tok "optional" then
         modify (fun s => with_options
                   (mkLexOptions false (TraceComments (options_ s))) s) ;;;
         ret true
       else
         cc_report (loc (start tok)) rmsg.bad_pragma_newdecls [] ;;;
         ret false)
  else if atom_is tok "semicolon" then
    (* The directive is ignored; it is still checked to be well formed. *)
    ' (ok, _) <- eval fuel ;;
    ret ok
  else if atom_is tok "dynamic" then
    let l := loc (start tok) in
    ' (ok, val) <- eval fuel ;;
    if negb ok then ret false
    else ChangePragmaDynamic l val
  else
    cc_report (loc (start tok)) rmsg.unknown_pragma [ArgAtom (atom tok)] ;;;
    ret false.

(** Returns whether or not the user should be warned of trailing characters. *)
Definition handlePreprocessorDirective (fuel : nat) : M bool :=
  begin <- lastpos ;;
  directive <- maybeKeyword fuel (chr "#") ;;
  match directive with
  | TOK_M_DEFINE =>
      ' (k, tok) <- directive_next fuel Token_default ;;
      if negb (kind_eqb k TOK_NAME) then
        cc_report (loc (start tok)) rmsg.bad_directive_token
          [ArgTokenName TOK_NAME; ArgTokenName (kind tok)] ;;;
        ret false
      else
        paren <- peekCharIs (chr "(") ;;
        if paren then
          p <- pos ;;
          report p rmsg.macro_functions_unsupported [] ;;;
          ret false
        else
          tokens <- getMacroTokens fuel ;;
          match atom tok with
          | None => stuck
          | Some a => defineMacro a (loc (start tok)) tokens ;;; ret false
          end
  | TOK_M_IF =>
      ' (errored, val) <- eval fuel ;;
      ifstack_append
        (IfContext.new begin
           (if negb (val =? 0) then IfContext.Active else IfContext.Ignoring)) ;;;
      ret (negb errored)
  | TOK_M_ELSE =>
      cur <- gets currentIf ;;
      match cur with
      | None =>
          report begin rmsg.else_without_if [] ;;;
          ret false
      | Some ix =>
          if isSet (IfContext.elseloc ix) then
            report begin rmsg.else_declared_twice
              [ArgNote begin rmsg.previous_location] ;;;
            ret false
          else
            currentIf_write
              (IfContext.mk (IfContext.first ix)
                 (if IfContext.State_eqb (IfContext.state ix) IfContext.Ignoring
                  then IfContext.Active else IfContext.Inactive)
                 begin) ;;;
            ret true
      end
  | TOK_M_ENDIF =>
      cur <- gets currentIf ;;
      match cur with
      | None =>
          report begin rmsg.endif_without_if [] ;;;
          ret false
      | Some _ =>
          ifstack_pop ;;;
          ret true
      end
  | TOK_M_UNDEF =>
      SaveAndSet (fun s => macro_expansion (pp_ s)) set_macro_expansion false
        (' (k, tok) <- directive_next fuel Token_default ;;
         if negb (kind_eqb k TOK_NAME) then
           cc_report (loc (start tok)) rmsg.bad_directive_token
             [ArgTokenName TOK_NAME; ArgTokenName (kind tok)] ;;;
           ret false
         else
           match atom tok with
           | None => stuck
           | Some a => removeMacro (loc (start tok)) a
           end)
  | TOK_M_ENDINPUT =>
      (* Simulate reaching the end of the file. *)
      modify (fun s => with_pos (buffer_length s) s) ;;;
      (* Purge the ifstack, since the preprocessor will ask us to verify
         whether or not we ended #if blocks. *)
      modify (with_ifstack []) ;;;
      ret false
  | TOK_M_INCLUDE | TOK_M_TRYINCLUDE =>
      (* Search for a delimiter. *)
      c <- firstNonSpaceChar fuel ;;
      if negb (c =? 34) && negb (c =? chr "<") then
        p <- lastpos ;;
        report p rmsg.bad_include_syntax [] ;;;
        ret false
      else
        let match_ := if c =? 34 then 34 else chr ">" in
        literal_clear ;;;
        found <- include_name_loop fuel match_ ;;
        if negb found then ret false
        else
          literal_append 0 ;;;
          (* Chew tokens beforehand; for simplicity we always warn here. *)
          chewLineAfterDirective fuel true ;;;
          text <- gets literal_text ;;
          enterFile directive begin text (match_ =? 34) ;;;
          ret false
  | TOK_M_PRAGMA => handlePragma fuel
  | _ =>
      text <- gets literal_text ;;
      report begin rmsg.unknown_directive [ArgChars text] ;;;
      ret false
  end.

Definition enterPreprocessorDirective (fuel : nat) : M unit :=
  (* Note: it is very important we set this, since this will recursively
     re-enter scan(). *)
  modify (with_lexed_tokens_on_line true) ;;;
  SaveAndSet lexing_for_directive_ with_lexing_for_directive true
    (warnOnExtraChars <- handlePreprocessorDirective fuel ;;
     chewLineAfterDirective fuel warnOnExtraChars) ;;;
  (* If we are now in an inactive or ignored #if context, we sweep through
     the file until we find a new position we can parse from. *)
  cur <- gets currentIf ;;
  match cur with
  | Some ix =>
      if negb (IfContext.State_eqb (IfContext.state ix) IfContext.Active) then
        handleIfContext fuel ;;;
        c <- peekChar ;;
        if c =? 0 then
          (* We reached the end of the file handling dead code. *)
          ret tt
        else
          (* We should be back into normal lexing now. *)
          cur <- gets currentIf ;;
          assert (match cur with None => true | Some _ => is_active cur end)
      else ret tt
  | None => ret tt
  end.

End DirectiveEngine.

(** ** The main scanner *)

(** The body of [Lexer::scan], over the scanner [scan_rec] that the directive
    engine re-enters. *)
Definition scan_body (scan_rec : Token -> M (TokenKind * Token)) (fuel : nat)
    (tok : Token) : M (TokenKind * Token) :=
  c <- consumeWhitespace fuel ;;
  lexed <- gets lexed_tokens_on_line_ ;;
  (* Preprocessor directives can only be parsed if they are the first token
     on the line. *)
  if (c =? chr "#") && negb lexed then
    enterPreprocessorDirective scan_rec fuel ;;;
    ret (TOK_NONE, tok)
  else
    p <- lastpos ;;
    ln <- gets line_number_ ;;
    id <- gets range_id ;;
    let tok := Token_init (mkTokenPos p ln) id tok in
    if c =? 0 then
      directive <- gets lexing_for_directive_ ;;
      if directive then ret (TOK_EOL, tok)
      else
        resumed <- handleEndOfFile ;;
        if resumed then ret (TOK_NONE, tok) else ret (TOK_EOF, tok)
    else if c =? chr ";" then ret (TOK_SEMICOLON, tok)
    else if c =? chr "{" then ret (TOK_LBRACE, tok)
    else if c =? chr "}" then ret (TOK_RBRACE, tok)
    else if c =? chr "(" then ret (TOK_LPAREN, tok)
    else if c =? chr ")" then ret (TOK_RPAREN, tok)
    else if c =? chr "[" then ret (TOK_LBRACKET, tok)
    else if c =? chr "]" then ret (TOK_RBRACKET, tok)
    else if c =? chr "~" then ret (TOK_TILDE, tok)
    else if c =? chr "?" then ret (TOK_QMARK, tok)
    else if c =? chr ":" then ret (TOK_COLON, tok)
    else if c =? chr "," then ret (TOK_COMMA, tok)
    else if (c =? 13) || (c =? 10) then
      directive <- gets lexing_for_directive_ ;;
      assert directive ;;;
      ret (TOK_EOL, tok)
    else if c =? chr "." then
      m <- matchChar (chr ".") ;;
      if m then
        m <- matchChar (chr ".") ;;
        if m then ret (TOK_ELLIPSES, tok)
        else backup ;;; ret (TOK_DOT, tok)
      else ret (TOK_DOT, tok)
    else if c =? chr "/" then
      m <- matchChar (chr "=") ;;
      if m then ret (TOK_ASSIGN_DIV, tok) else
      m <- matchChar (chr "/") ;;
      if m then singleLineComment fuel tok else
      m <- matchChar (chr "*") ;;
      if m then multiLineComment fuel tok else
      ret (TOK_SLASH, tok)
    else if c =? chr "*" then
      m <- matchChar (chr "=") ;;
      if m then ret (TOK_ASSIGN_MUL, tok) else ret (TOK_STAR, tok)
    else if c =? chr "+" then
      m <- matchChar (chr "=") ;;
      if m then ret (TOK_ASSIGN_ADD, tok) else
      m <- matchChar (chr "+") ;;
      if m then ret (TOK_INCREMENT, tok) else ret (TOK_PLUS, tok)
    else if c =? chr "&" then
      m <- matchChar (chr "=") ;;
      if m then ret (TOK_ASSIGN_BITAND, tok) else
      m <- matchChar (chr "&") ;;
      if m then ret (TOK_AND, tok) else ret (TOK_BITAND, tok)
    else if c =? chr "|" then
      m <- matchChar (chr "=") ;;
      if m then ret (TOK_ASSIGN_BITOR, tok) else
      m <- matchChar (chr "|") ;;
      if m then ret (TOK_OR, tok) else ret (TOK_BITOR, tok)
    else if c =? chr "^" then
      m <- matchChar (chr "=") ;;
      if m then ret (TOK_ASSIGN_BITXOR, tok) else ret (TOK_BITXOR, tok)
    else if c =? chr "%" then
      m <- matchChar (chr "=") ;;
      if m then ret (TOK_ASSIGN_MOD, tok) else ret (TOK_PERCENT, tok)
    else if c =? chr "-" then
      m <- matchChar (chr "=") ;;
      if m then ret (TOK_ASSIGN_SUB, tok) else
      m <- matchChar (chr "-") ;;
      if m then ret (TOK_DECREMENT, tok) else ret (TOK_MINUS, tok)
    else if c =? chr "!" then
      m <- matchChar (chr "=") ;;
      if m then ret (TOK_NOTEQUALS, tok) else ret (TOK_NOT, tok)
    else if c =? chr "=" then
      m <- matchChar (chr "=") ;;
      if m then ret (TOK_EQUALS, tok) else ret (TOK_ASSIGN, tok)
    else if c =? chr "<" then
      m <- matchChar (chr "=") ;;
      if m then ret (TOK_LE, tok) else
      m <- matchChar (chr "<") ;;
      if m then
        m <- matchChar (chr "=") ;;
        if m then ret (TOK_ASSIGN_SHL, tok) else ret (TOK_SHL, tok)
      else ret (TOK_LT, tok)
    else if c =? chr ">" then
      m <- matchChar (chr "=") ;;
      if m then ret (TOK_GE, tok) else
      m <- matchChar (chr ">") ;;
      if m then
        m <- matchChar (chr ">") ;;
        if m then
          m <- matchChar (chr "=") ;;
          if m then ret (TOK_ASSIGN_USHR, tok) else ret (TOK_USHR, tok)
        else ret (TOK_SHR, tok)
      else ret (TOK_GT, tok)
    else if c =? chr "'" then charLiteral fuel tok
    else if c =? 34 then stringLiteral fuel tok
    else if IsDigit c then handleNumber fuel tok c
    else if IsIdentStart c then handleIdentifier fuel tok c
    else
      (* Don't report an error if we're lexing for a directive. *)
      directive <- gets lexing_for_directive_ ;;
      (if negb directive then
         cc_report (loc (start tok)) rmsg.unexpected_char
           [ArgChars [c]; ArgByteHex (c mod 256)]
       else ret tt) ;;;
      ret (TOK_UNKNOWN, tok).

Fixpoint scan (fuel : nat) (tok : Token) : M (TokenKind * Token) :=
  match fuel with
  | O => out_of_fuel
  | S fuel' => scan_body (scan fuel') fuel' tok
  end.

(** [tok->kind = scan(tok)] *)
Definition scan_into (fuel : nat) (tok : Token) : M Token :=
  ' (k, tok) <- scan fuel tok ;;
  ret (set_kind k tok).

(** The loop of [processFrontCommentBlock]; [None] when the function returned
    from inside the loop, otherwise the committed [end]. *)
Fixpoint frontComment_loop (fuel : nat) (start_ last_end e : TokenPos) (tok : Token)
    : M (option TokenPos * Token) :=
  match fuel with
  | O => out_of_fuel
  | S fuel' =>
      tok <- scan_into fuel' tok ;;
      if negb (kind_eqb (kind tok) TOK_COMMENT) then
        if (line start_ =? line (start tok))%nat then
          (* Front comment should be discarded entirely, since the token was
             not the first token on the line. *)
          ret (None, tok)
        else if negb (line (start tok) =? line last_end)%nat then
          ret (Some last_end, tok)
        else ret (Some e, tok)
      else
        (* Commit the last comment. *)
        let e := last_end in
        if (line last_end + 1 <? line (start tok))%nat then ret (Some e, tok)
        else frontComment_loop fuel' start_ (end_ tok) e tok
  end.

(** A front comment is a sequence of comments at most one line away from a
    non-comment token that is the first token on its line. *)
Definition processFrontCommentBlock (fuel : nat) (tok : Token) : M Token :=
  let start_ := start tok in
  ' (committed, tok) <-
      frontComment_loop fuel start_ TokenPos_default TokenPos_default tok ;;
  match committed with
  | None => ret tok
  | Some e =>
      (* If we discarded all comments in the block, this will be empty. *)
      if negb (isSet (loc e)) then ret tok
      else
        addComment Front (mkSourceRange (loc start_) (loc e)) ;;;
        ret tok
  end.

(** [while ((tok->kind = scan(tok)) != TOK_COMMENT) { ... }] *)
Fixpoint tailComment_loop (fuel : nat) (e : TokenPos) (tok : Token)
    : M (TokenPos * Token) :=
  match fuel with
  | O => out_of_fuel
  | S fuel' =>
      tok <- scan_into fuel' tok ;;
      if negb (kind_eqb (kind tok) TOK_COMMENT) then
        if (line e + 1 <? line (start tok))%nat then ret (e, tok)
        else tailComment_loop fuel' (end_ tok) tok
      else ret (e, tok)
  end.

(** A tail comment is a sequence of comments appearing after a token, ending
    after a blank line or a non-comment token. *)
Definition processTailCommentBlock (fuel : nat) (tok : Token) : M Token :=
  let start_ := start tok in
  ' (e, tok) <- tailComment_loop fuel (end_ tok) tok ;;
  addComment Tail (mkSourceRange (loc start_) (loc e)) ;;;
  ret tok.

(** [while (tok->kind == TOK_COMMENT) tok->kind = scan(tok);] *)
Fixpoint skip_comments (fuel : nat) (tok : Token) : M Token :=
  match fuel with
  | O => out_of_fuel
  | S fuel' =>
      if kind_eqb (kind tok) TOK_COMMENT then
        tok <- scan_into fuel' tok ;; skip_comments fuel' tok
      else ret tok
  end.

(** [while (tok->kind == TOK_COMMENT) processFrontCommentBlock(tok);] *)
Fixpoint front_blocks (fuel : nat) (tok : Token) : M Token :=
  match fuel with
  | O => out_of_fuel
  | S fuel' =>
      if kind_eqb (kind tok) TOK_COMMENT then
        tok <- processFrontCommentBlock fuel' tok ;; front_blocks fuel' tok
      else ret tok
  end.

(** Note: this calls back into scan(), so it is only called from next(). *)
Definition handleComments (fuel : nat) (tok : Token) : M Token :=
  trace <- gets (fun s => TraceComments (options_ s)) ;;
  directive <- gets lexing_for_directive_ ;;
  (* We don't bother inserting comments from macros, or if we're not parsing
     for an AST dump. *)
  if negb trace || directive then skip_comments fuel tok
  else
    lexed <- gets lexed_tokens_on_line_ ;;
    tok <- (if lexed then processTailCommentBlock fuel tok else ret tok) ;;
    (* We should be at a token that started on its own line. *)
    lexed <- gets lexed_tokens_on_line_ ;;
    assert (negb lexed) ;;;
    (* We can have multiple front comment blocks. *)
    front_blocks fuel tok.

Definition next (fuel : nat) (tok : Token) : M (TokenKind * Token) :=
  tok <- scan_into fuel tok ;;
  tok <- (if kind_eqb (kind tok) TOK_COMMENT then
            tok <- handleComments fuel tok ;;
            (* Should not have any comments after. *)
            assert (negb (kind_eqb (kind tok) TOK_COMMENT)) ;;;
            ret tok
          else ret tok) ;;
  modify (with_lexed_tokens_on_line (negb (kind_eqb (kind tok) TOK_NONE))) ;;;
  e <- current_TokenPos ;;
  let tok := set_end e tok in
  ret (kind tok, tok).

(** ** Running the lexer on a source text *)

Definition CompileContext_new : CompileContext := mkCompileContext [] None.

Definition Preprocessor_new (table : list (Atom * TokenKind)) : Preprocessor :=
  mkPreprocessor true table [] [] [] [] None.

Definition lexer_of (options : LexOptions) (src : list Z) : Lexer :=
  Lexer_new CompileContext_new (Preprocessor_new directive_keywords) options src 1.

Definition no_trace : LexOptions := mkLexOptions false false.
Definition trace_comments : LexOptions := mkLexOptions false true.

(** The caller of [next]: it passes a fresh token, calls again when the
    answer is [TOK_NONE], and stops at [TOK_EOF].  [calls] bounds the number
    of calls, [fuel] is the fuel of each. *)
Fixpoint lex_all (calls fuel : nat) (acc : list Token) : M (list Token) :=
  match calls with
  | O => out_of_fuel
  | S calls' =>
      ' (k, tok) <- next fuel Token_default ;;
      match k with
      | TOK_NONE => lex_all calls' fuel acc
      | TOK_EOF => ret (acc ++ [tok])
      | _ => lex_all calls' fuel (acc ++ [tok])
      end
  end.

(** What a test observes of a token: its kind and payload. *)
Definition observe (t : Token) : TokenKind * Payload := (kind t, payload t).


(** What a run of the lexer over a whole source text shows: how it ended,
    the tokens handed to the caller, the identifiers of the delivered
    diagnostics, the if-stack and the attributed comment blocks. *)
Inductive Outcome : Type := Returned | AssertionFailed | GotStuck | RanOutOfFuel.

Record Run : Type := mkRun {
  run_outcome : Outcome;
  run_tokens : list (TokenKind * Payload);
  run_reports : list rmsg.Id;
  run_ifstack : list IfContext.t;
  run_comments : list (CommentPos * SourceRange)
}.

Definition observe_state (o : Outcome) (ts : list Token) (s : Lexer) : Run :=
  mkRun o (map observe ts) (ids_of (reports (cc_ s))) (ifstack_ s)
    (comments (pp_ s)).

Definition run (options : LexOptions) (src : string) : Run :=
  match lex_all 64 64 [] (lexer_of options (chars_of src)) with
  | Ok ts s => observe_state Returned ts s
  | AssertFail s => observe_state AssertionFailed [] s
  | Stuck s => observe_state GotStuck [] s
  | OutOfFuel => mkRun RanOutOfFuel [] [] [] []
  end.

Definition nl : string := String (ascii_of_nat 10) EmptyString.

Definition dq : string := String (ascii_of_nat 34) EmptyString.

(** ** Reference values of literals

    The value a digit string denotes, written positionally and independently
    of the decoding loops of [handleNumber]. *)

Fixpoint dec_value (ds : list Z) : Z :=
  match ds with
  | [] => 0
  | d :: rest => (d - chr "0") * 10 ^ Z.of_nat (List.length rest) + dec_value rest
  end.

Definition hex_digit_value (c : Z) : Z :=
  if IsDigit c then c - chr "0"
  else if chr "a" <=? c then c - chr "a" + 10
  else c - chr "A" + 10.

Fixpoint hex_value (ds : list Z) : Z :=
  match ds with
  | [] => 0
  | d :: rest => hex_digit_value d * 16 ^ Z.of_nat (List.length rest) + hex_value rest
  end.

(** The escape table of [readEscapeCode]: the characters that may follow a
    backslash. *)
Definition in_escape_table (c : Z) : bool :=
  existsb (Z.eqb c) (chars_of "\abefnrtvx'%") || (c =? 34) || IsDigit c.

(** The lexer is at the first byte of [text]: [pre] has been consumed. *)
Definition at_text (s : Lexer) (pre text : list Z) : Prop :=
  chars_ s = pre ++ text /\ pos_ s = List.length pre.

(** The byte after a literal, NUL at the end of the buffer. *)
Definition first_or_nul (rest : list Z) : Z := hd 0 rest.

(** What may follow the digits of an integer literal [ds]: not a digit and
    not a dot, and not an [x] after a lone [0]. *)
Definition ends_integer (ds rest : list Z) : bool :=
  let c := first_or_nul rest in
  negb (IsDigit c) && negb (c =? chr ".")
  && negb (bytes_eqb ds [chr "0"] && ((c =? chr "x") || (c =? chr "X"))).

(** The message [readEscapeCode] delivers at an unknown escape character
    [c], when the cursor of [s] is on it. *)
Definition unknown_escape_message (s : Lexer) (c : Z) : Message :=
  mkMessage (Loc (pos_ s)) rmsg.unknown_escapecode [ArgChars [c]].

(** The state [readEscapeCode] leaves behind on an unknown escape character:
    the character is consumed and the diagnostic is delivered, whether or not
    errors are suppressed. *)
Definition after_unknown_escape (s : Lexer) (c : Z) : Lexer :=
  with_cc (mkCompileContext (reports (cc_ s) ++ [unknown_escape_message s c])
                            (pragma_dynamic (cc_ s)))
    (with_pos (S (pos_ s)) s).

(** ** Proof automation for character tests *)

Ltac eval_chr :=
  repeat match goal with
         | |- context [chr ?a] =>
             let v := eval vm_compute in (chr a) in change (chr a) with v
         end.

Ltac eqb_false c :=
  repeat match goal with
         | |- context [Z.eqb c ?k] =>
             rewrite (proj2 (Z.eqb_neq c k)) by lia
         end.

Ltac eqb_compute c :=
  repeat match goal with
         | |- context [Z.eqb c ?k] =>
             let v := eval vm_compute in (Z.eqb c k) in
             change (Z.eqb c k) with v
         end.

(** ** Reference definitions for the scanner and the directive engine *)

(** ** Reference notions for the further properties *)

(** A digit string without its separators. *)
Definition strip_underscores (ptr : list Z) : list Z :=
  filter (fun c => negb (c =? chr "_")) ptr.

(** The state after [cc_.report] delivered the message [m]. *)
Definition delivered (s : Lexer) (m : Message) : Lexer :=
  with_cc (mkCompileContext (reports (cc_ s) ++ [m]) (pragma_dynamic (cc_ s))) s.

(** The state after [Lexer::report] was asked to report [m]. *)
Definition reported (s : Lexer) (m : Message) : Lexer :=
  if suppress_errors_ s then s else delivered s m.

(** The diagnostic of an integer literal that does not fit 64 bits. *)
Definition overflow_message (l : SourceLocation) : Message :=
  mkMessage l rmsg.int_literal_overflow [].

(** A byte that [stringLiteral] appends to the literal as it is: not the
    closing quote, not a backslash and not a line terminator. *)
Definition plain_string_char (c : Z) : bool :=
  negb (c =? 34) && negb (c =? chr "\") && negb ((c =? 13) || (c =? 10) || (c =? 0)).

(** The bytes [consumeWhitespace] skips outside a directive. *)
Definition is_whitespace (c : Z) : bool :=
  (c =? 10) || (c =? 13) || (c =? chr " ") || (c =? 9) || (c =? 12).

(** The number of line ends in a text, by the heuristics of [advanceLine]:
    a line feed, a carriage return, or a carriage return and the line feed
    right after it, each count once. *)
Fixpoint count_lines (ws : list Z) : nat :=
  match ws with
  | [] => 0
  | c :: r =>
      if c =? 13 then
        match r with
        | c' :: r' => if c' =? 10 then S (count_lines r') else S (count_lines r)
        | [] => 1
        end
      else if c =? 10 then S (count_lines r)
      else count_lines r
  end.

(** The state after the text [ws] and one more byte were read, the lines of
    [ws] counted. *)
Definition after_lines (s : Lexer) (ws : list Z) : Lexer :=
  with_lexed_tokens_on_line
    (lexed_tokens_on_line_ s && (count_lines ws =? 0)%nat)
    (with_line_number (line_number_ s + count_lines ws)
       (with_pos (S (pos_ s + List.length ws)) s)).

(** The text [body] holds no NUL and no star followed by a slash, also when
    the byte [next] comes after it: a block comment does not end inside it. *)
Fixpoint open_comment (body : list Z) (next : Z) : bool :=
  match body with
  | [] => true
  | c :: r =>
      negb (c =? 0)
      && negb ((c =? chr "*") && (hd next r =? chr "/"))
      && open_comment r next
  end.

(** The state after the text [body] was read, its lines counted. *)
Definition after_body (s : Lexer) (body : list Z) : Lexer :=
  with_lexed_tokens_on_line
    (lexed_tokens_on_line_ s && (count_lines body =? 0)%nat)
    (with_line_number (line_number_ s + count_lines body)
       (with_pos (pos_ s + List.length body) s)).




(** * Properties of the lexer *)

(** ** The cursor *)

Lemma char_at_nth (s : Lexer) (p : nat) : char_at s p = nth p (chars_ s) 0.
Proof.
  unfold char_at, buffer_length.
  destruct (Nat.leb_spec (List.length (chars_ s)) p) as [Hle | Hlt]; [| reflexivity].
  symmetry. now apply nth_overflow.
Qed.

Lemma char_at_text (s : Lexer) (pre text : list Z) :
  at_text s pre text -> char_at s (pos_ s) = first_or_nul text.
Proof.
  intros [Hc Hp]. rewrite char_at_nth, Hc, Hp.
  rewrite app_nth2, Nat.sub_diag by lia.
  now destruct text.
Qed.

Lemma readChar_text (s : Lexer) (pre text : list Z) :
  at_text s pre text ->
  readChar s = Ok (first_or_nul text) (with_pos (S (pos_ s)) s).
Proof.
  intros H. unfold readChar. now rewrite (char_at_text H).
Qed.

Lemma at_text_read (s : Lexer) (pre : list Z) (c : Z) (text : list Z) :
  at_text s pre (c :: text) ->
  at_text (with_pos (S (pos_ s)) s) (pre ++ [c]) text.
Proof.
  intros [Hc Hp]. split; simpl.
  - now rewrite Hc, <- app_assoc.
  - rewrite Hp, length_app. simpl. lia.
Qed.

(** ** Character classes *)

Lemma IsDigit_range (c : Z) : IsDigit c = true <-> 48 <= c <= 57.
Proof.
  unfold IsDigit. change (chr "0") with 48. change (chr "9") with 57.
  rewrite andb_true_iff, !Z.leb_le. tauto.
Qed.

(** ** The digit loop of [numberLiteral] *)

Lemma digits_loop_run (ds : list Z) :
  forall (fuel : nat) (s : Lexer) (pre rest : list Z),
    Forall (fun c => IsDigit c = true) ds ->
    IsDigit (first_or_nul rest) = false ->
    at_text s pre (ds ++ rest) ->
    (List.length ds < fuel)%nat ->
    digits_loop fuel s =
      Ok (first_or_nul rest)
         (with_pos (S (pos_ s + List.length ds))
            (with_literal (literal_ s ++ ds) s)).
Proof.
  induction ds as [| d ds IH]; intros fuel s pre rest Hds Hend Hat Hfuel;
    (destruct fuel as [| fuel]; [simpl in Hfuel; lia |]); simpl in Hat.
  - simpl. unfold bind. rewrite (readChar_text Hat).
    rewrite Hend. simpl. unfold ret.
    rewrite app_nil_r, Nat.add_0_r. now destruct s.
  - inversion Hds as [| ? ? Hd Hds']; subst.
    simpl. unfold bind. rewrite (readChar_text Hat). simpl.
    rewrite Hd. simpl. unfold literal_append, modify.
    apply at_text_read in Hat.
    erewrite IH with (pre := pre ++ [d]) (rest := rest); eauto.
    + destruct s; simpl. rewrite <- app_assoc, Nat.add_succ_r. reflexivity.
    + simpl in Hfuel. lia.
Qed.

Lemma numberLiteral_integer (fuel : nat) (s : Lexer) (pre : list Z) (d : Z)
    (ds rest : list Z) :
  Forall (fun c => IsDigit c = true) ds ->
  ends_integer (d :: ds) rest = true ->
  at_text s pre (ds ++ rest) ->
  (List.length ds < fuel)%nat ->
  numberLiteral fuel d s =
    Ok TOK_INTEGER_LITERAL
       (with_pos (pos_ s + List.length ds)
          (with_literal (d :: ds ++ [0]) s)).
Proof.
  intros Hds Hend Hat Hfuel.
  unfold ends_integer in Hend.
  apply andb_true_iff in Hend as [Hend Hhex].
  apply andb_true_iff in Hend as [Hnd Hdot].
  apply negb_true_iff in Hnd, Hdot, Hhex.
  unfold numberLiteral, bind, literal_clear, literal_append, modify.
  erewrite digits_loop_run with (pre := pre) (rest := rest); eauto.
  unfold gets. cbn [literal_ with_pos with_literal app].
  assert (Hnothex :
    (List.length (d :: ds) =? 1)%nat && (nth 0 (d :: ds) 0 =? chr "0")
    && ((first_or_nul rest =? chr "x") || (first_or_nul rest =? chr "X")) = false).
  { destruct ds as [| d' ds'].
    - cbn [List.length nth]. rewrite Nat.eqb_refl. cbn [andb].
      destruct (Z.eqb_spec d (chr "0")) as [-> | Hne]; [| reflexivity].
      cbn [andb]. unfold bytes_eqb in Hhex.
      destruct (list_eq_dec Z.eq_dec [chr "0"] [chr "0"]); [| congruence].
      exact Hhex.
    - reflexivity. }
  rewrite Hnothex, Hdot. cbn [negb].
  unfold backup, modify, ret. destruct s; simpl.
  rewrite Nat.sub_0_r. reflexivity.
Qed.

(** ** The decoding loop of integer literals *)

Lemma dec_value_nonneg (ds : list Z) :
  Forall (fun c => IsDigit c = true) ds -> 0 <= dec_value ds.
Proof.
  induction 1 as [| d ds Hd _ IH]; simpl; [lia |].
  apply IsDigit_range in Hd. change (chr "0") with 48.
  assert (0 < 10 ^ Z.of_nat (List.length ds)) by (apply Z.pow_pos_nonneg; lia).
  nia.
Qed.

Lemma decode_integer_exact (l : SourceLocation) (ds : list Z) :
  forall (val : Z) (s : Lexer),
    Forall (fun c => IsDigit c = true) ds ->
    0 <= val ->
    val * 10 ^ Z.of_nat (List.length ds) + dec_value ds < UINT64_MOD ->
    decode_integer l ds val s =
      Ok (val * 10 ^ Z.of_nat (List.length ds) + dec_value ds) s.
Proof.
  induction ds as [| d ds IH]; intros val s Hds Hval Hfit.
  - simpl. unfold ret. f_equal. lia.
  - inversion Hds as [| ? ? Hd Hds']; subst.
    pose proof (dec_value_nonneg Hds') as Hrest.
    apply IsDigit_range in Hd as Hrange.
    assert (Hpow : 0 < 10 ^ Z.of_nat (List.length ds))
      by (apply Z.pow_pos_nonneg; lia).
    assert (Hstep : 10 ^ Z.of_nat (List.length (d :: ds))
                    = 10 * 10 ^ Z.of_nat (List.length ds)).
    { cbn [List.length]. rewrite Nat2Z.inj_succ, Z.pow_succ_r by lia. reflexivity. }
    rewrite Hstep in *. cbn [dec_value] in *. change (chr "0") with 48 in *.
    cbn [decode_integer]. unfold bind, assert. rewrite Hd.
    unfold TryUint64Multiply, TryUint64Add, to_uint64.
    change (chr "0") with 48.
    rewrite (Z.mod_small (d - 48)) by (unfold UINT64_MOD; lia).
    destruct (Z.ltb_spec (val * 10) UINT64_MOD) as [_ | Hover]; [| nia].
    cbn zeta.
    destruct (Z.ltb_spec (val * 10 + (d - 48)) UINT64_MOD) as [_ | Hover]; [| nia].
    rewrite IH; [f_equal; ring | assumption | lia | nia].
Qed.

(** ** Entering a literal from [scan] *)



Lemma consumeWhitespace_start (fuel : nat) (s : Lexer) (pre : list Z) (c : Z)
    (text : list Z) :
  at_text s pre (c :: text) ->
  32 < c ->
  consumeWhitespace (S fuel) s = Ok c (with_pos (S (pos_ s)) s).
Proof.
  intros Hat Hc. cbn [consumeWhitespace]. unfold bind.
  rewrite (readChar_text Hat). cbn [first_or_nul hd].
  eval_chr. eqb_false c. reflexivity.
Qed.

Lemma scan_digit (fuel : nat) (tok : Token) (s : Lexer) (pre : list Z) (d : Z)
    (text : list Z) :
  at_text s pre (d :: text) ->
  IsDigit d = true ->
  scan (S (S fuel)) tok s =
    handleNumber (S fuel)
      (Token_init (mkTokenPos (Loc (pos_ s)) (line_number_ s)) (range_id s) tok)
      d (with_pos (S (pos_ s)) s).
Proof.
  intros Hat Hd. apply IsDigit_range in Hd as Hrange.
  cbn [scan]. unfold scan_body. unfold bind at 1.
  rewrite (consumeWhitespace_start fuel Hat) by lia.
  unfold bind at 1. unfold gets at 1.
  eval_chr. eqb_false d. cbn [andb orb].
  unfold bind at 1. unfold lastpos at 1. unfold gets at 1.
  unfold bind at 1. unfold gets at 1.
  unfold bind at 1. unfold gets at 1.
  rewrite Hd.
  cbn [pos_ with_pos line_number_ range_id Nat.sub]. rewrite Nat.sub_0_r.
  reflexivity.
Qed.

Lemma literal_text_terminated (s : Lexer) (body : list Z) :
  literal_ s = body ++ [0] -> literal_text s = body.
Proof.
  intros H. unfold literal_text, literal_length. rewrite H, length_app.
  cbn [List.length]. rewrite Nat.add_sub.
  rewrite firstn_app, Nat.sub_diag, firstn_all. cbn [firstn]. apply app_nil_r.
Qed.

Lemma handleNumber_integer (fuel : nat) (tok : Token) (s : Lexer)
    (pre : list Z) (d : Z) (ds rest : list Z) :
  Forall (fun c => IsDigit c = true) (d :: ds) ->
  ends_integer (d :: ds) rest = true ->
  at_text s pre (ds ++ rest) ->
  (List.length ds < fuel)%nat ->
  dec_value (d :: ds) < UINT64_MOD ->
  handleNumber fuel tok d s =
    Ok (TOK_INTEGER_LITERAL, setIntValue (dec_value (d :: ds)) tok)
       (with_pos (pos_ s + List.length ds) (with_literal (d :: ds ++ [0]) s)).
Proof.
  intros Hds Hend Hat Hfuel Hfit.
  inversion Hds as [| ? ? Hd Hds']; subst.
  unfold handleNumber. unfold bind at 1.
  rewrite (@numberLiteral_integer fuel s pre d ds rest Hds' Hend Hat Hfuel).
  unfold bind at 1. unfold gets at 1.
  rewrite (@literal_text_terminated _ (d :: ds)) by reflexivity.
  unfold bind.
  rewrite decode_integer_exact; try assumption; try lia.
  unfold ret. rewrite Z.mul_0_l, Z.add_0_l. reflexivity.
Qed.

(** C8. Scanning a decimal digit string that denotes a value [x] below
    [2^63] produces an [INTEGER_LITERAL] token whose payload is [x], and no
    diagnostic is delivered.  The digits may stand anywhere in the buffer
    and be followed by any text that does not continue the literal. *)
Theorem integer_literal_round_trip (fuel : nat) (tok : Token) (s : Lexer)
    (pre ds rest : list Z) :
  ds <> [] ->
  Forall (fun c => IsDigit c = true) ds ->
  ends_integer ds rest = true ->
  at_text s pre (ds ++ rest) ->
  0 <= dec_value ds < 2 ^ 63 ->
  (List.length ds < fuel)%nat ->
  exists tok' s',
    next fuel tok s = Ok (TOK_INTEGER_LITERAL, tok') s'
    /\ kind tok' = TOK_INTEGER_LITERAL
    /\ payload tok' = IntValue (dec_value ds)
    /\ reports (cc_ s') = reports (cc_ s)
    /\ pos_ s' = (pos_ s + List.length ds)%nat.
Proof.
  intros Hne Hds Hend Hat Hval Hfuel.
  destruct ds as [| d ds]; [congruence |].
  cbn [List.length] in Hfuel.
  destruct fuel as [| [| fuel]]; try lia.
  inversion Hds as [| ? ? Hd Hds']; subst.
  cbn [app] in Hat.
  assert (Hfit : dec_value (d :: ds) < UINT64_MOD).
  { unfold UINT64_MOD. assert (2 ^ 63 < 2 ^ 64) by reflexivity. lia. }
  unfold next, scan_into. unfold bind at 1. unfold bind at 1.
  rewrite (@scan_digit fuel tok s pre d (ds ++ rest) Hat Hd).
  erewrite handleNumber_integer with (pre := pre ++ [d]) (rest := rest);
    eauto using at_text_read; [| lia].
  do 2 eexists. split; [reflexivity |].
  destruct s; cbn. repeat split. lia.
Qed.

(** The hypotheses of [integer_literal_round_trip] hold for the literal
    [4096] in the text [x = 4096;]. *)
Lemma integer_literal_round_trip_witness :
  exists tok' s',
    next 8 Token_default (with_pos 4 (lexer_of no_trace (chars_of "x = 4096;")))
      = Ok (TOK_INTEGER_LITERAL, tok') s'
    /\ kind tok' = TOK_INTEGER_LITERAL
    /\ payload tok' = IntValue (dec_value (chars_of "4096"))
    /\ reports (cc_ s') = []
    /\ pos_ s' = 8%nat.
Proof.
  apply (@integer_literal_round_trip 8 Token_default
           (with_pos 4 (lexer_of no_trace (chars_of "x = 4096;")))
           (chars_of "x = ") (chars_of "4096") (chars_of ";")).
  - discriminate.
  - repeat constructor.
  - reflexivity.
  - split; reflexivity.
  - vm_compute. split; [discriminate | reflexivity].
  - vm_compute. lia.
Defined.

(** ** Unknown escape codes *)


Lemma readEscapeCode_unknown (fuel : nat) (s : Lexer) (pre text : list Z) :
  at_text s pre text ->
  in_escape_table (first_or_nul text) = false ->
  readEscapeCode fuel s = Ok INT_MAX (after_unknown_escape s (first_or_nul text)).
Proof.
  intros Hat Htable.
  unfold in_escape_table in Htable. cbn [existsb chars_of] in Htable.
  repeat (apply orb_false_iff in Htable as [? Htable] || apply orb_false_iff in Htable as [Htable ?]).
  repeat match goal with
         | H : _ || _ = false |- _ => apply orb_false_iff in H as [? ?]
         end.
  unfold readEscapeCode. unfold bind at 1. rewrite (readChar_text Hat).
  repeat match goal with
         | H : Z.eqb _ _ = false |- _ => rewrite H; clear H
         | H : IsDigit _ = false |- _ => rewrite H; clear H
         end.
  cbn [orb]. unfold bind, lastpos, gets, cc_report, modify, ret.
  unfold after_unknown_escape, unknown_escape_message.
  cbn [pos_ with_pos Nat.sub cc_ with_cc]. rewrite Nat.sub_0_r. reflexivity.
Qed.

Lemma charLiteral_unknown_escape (fuel : nat) (tok : Token) (s : Lexer)
    (pre text : list Z) :
  at_text s pre (chr "\" :: text) ->
  in_escape_table (first_or_nul text) = false ->
  exists tok' s' more,
    charLiteral fuel tok s = Ok (TOK_CHAR_LITERAL, tok') s'
    /\ kind tok' = TOK_CHAR_LITERAL
    /\ payload tok' = CharValue INT_MAX
    /\ reports (cc_ s') =
         reports (cc_ s)
         ++ mkMessage (Loc (S (pos_ s))) rmsg.unknown_escapecode
              [ArgChars [first_or_nul text]] :: more
    /\ Forall (fun m => msg_id m = rmsg.bad_char_terminator) more.
Proof.
  intros Hat Htable.
  unfold charLiteral. unfold bind at 1. rewrite (readChar_text Hat).
  cbn [first_or_nul hd]. eval_chr.
  change (92 =? 39) with false. change (92 =? 92) with true. cbv iota.
  unfold bind at 1. unfold bind at 1.
  rewrite (@readEscapeCode_unknown fuel _ (pre ++ [92]) text (at_text_read Hat) Htable).
  unfold ret at 1. unfold bind at 1. unfold readChar at 1.
  set (s2 := after_unknown_escape _ _).
  set (c2 := char_at s2 (pos_ s2)).
  assert (Hreports : reports (cc_ s2) =
            reports (cc_ s)
            ++ [mkMessage (Loc (S (pos_ s))) rmsg.unknown_escapecode
                  [ArgChars [first_or_nul text]]]) by reflexivity.
  assert (Hsup : suppress_errors_ s2 = suppress_errors_ s) by reflexivity.
  clearbody s2 c2.
  cbv beta iota delta [bind report gets cc_report backup modify ret].
  destruct (c2 =? 39); cbn [negb suppress_errors_ with_pos];
    [| rewrite Hsup; destruct (suppress_errors_ s); destruct (c2 =? 34);
       cbn [negb]; cbv beta iota ];
    do 2 eexists;
    match goal with
    | |- exists more, Ok _ ?st = _ /\ _ =>
        let r := eval cbn in (reports (cc_ st)) in
        match r with
        | reports (cc_ s2) => exists []
        | reports (cc_ s2) ++ ?m => exists m
        end
    end;
    (split; [reflexivity |]); cbn; rewrite Hreports, <- ?app_assoc;
    repeat split; repeat constructor.
Qed.


Lemma scan_quote (fuel : nat) (tok : Token) (s : Lexer) (pre text : list Z) :
  at_text s pre (chr "'" :: text) ->
  scan (S (S fuel)) tok s =
    charLiteral (S fuel)
      (Token_init (mkTokenPos (Loc (pos_ s)) (line_number_ s)) (range_id s) tok)
      (with_pos (S (pos_ s)) s).
Proof.
  intros Hat.
  cbn [scan]. unfold scan_body. unfold bind at 1.
  rewrite (consumeWhitespace_start fuel Hat) by reflexivity.
  unfold bind at 1. unfold gets at 1.
  eval_chr. eqb_compute 39. cbn [andb orb].
  unfold bind at 1. unfold lastpos at 1. unfold gets at 1.
  unfold bind at 1. unfold gets at 1.
  unfold bind at 1. unfold gets at 1.
  cbn [pos_ with_pos line_number_ range_id Nat.sub]. rewrite Nat.sub_0_r.
  reflexivity.
Qed.

(** Inside a string literal the sentinel is replaced: an unknown escape
    appends a question mark to the literal. *)
Lemma stringLiteral_unknown_escape (fuel : nat) (tok : Token) (s : Lexer)
    (pre text : list Z) :
  at_text s pre (chr "\" :: text) ->
  in_escape_table (first_or_nul text) = false ->
  stringLiteral_loop (S fuel) tok s =
    stringLiteral_loop fuel tok
      (with_literal (literal_ s ++ [chr "?"])
         (after_unknown_escape (with_pos (S (pos_ s)) s) (first_or_nul text))).
Proof.
  intros Hat Htable.
  cbn [stringLiteral_loop]. unfold bind at 1. rewrite (readChar_text Hat).
  cbn [first_or_nul hd]. eval_chr. eqb_compute 92. cbn [orb].
  unfold bind at 1. unfold bind at 1.
  rewrite (@readEscapeCode_unknown fuel _ (pre ++ [92]) text (at_text_read Hat) Htable).
  change (INT_MAX =? INT_MAX) with true. cbv iota.
  unfold ret at 1. unfold bind at 1. unfold literal_append, modify.
  reflexivity.
Qed.

(** C10. A character literal whose escape character is not in the escape
    table makes the lexer report [unknown_escapecode] and yields a
    [CHAR_LITERAL] token that carries the raw sentinel [INT_MAX]; the same
    escape inside a string literal appends a question mark instead. *)
Theorem unknown_escape_in_char_literal (fuel : nat) (tok : Token) (s : Lexer)
    (pre text : list Z) :
  at_text s pre (chr "'" :: chr "\" :: text) ->
  in_escape_table (first_or_nul text) = false ->
  (2 <= fuel)%nat ->
  (exists tok' s' more,
      next fuel tok s = Ok (TOK_CHAR_LITERAL, tok') s'
      /\ kind tok' = TOK_CHAR_LITERAL
      /\ payload tok' = CharValue 2147483647
      /\ reports (cc_ s') =
           reports (cc_ s)
           ++ mkMessage (Loc (pos_ s + 2)) rmsg.unknown_escapecode
                [ArgChars [first_or_nul text]] :: more
      /\ Forall (fun m => msg_id m = rmsg.bad_char_terminator) more)
  /\ stringLiteral_loop fuel tok (with_pos (S (pos_ s)) s) =
       stringLiteral_loop (fuel - 1) tok
         (with_literal (literal_ s ++ [chr "?"])
            (after_unknown_escape (with_pos (S (S (pos_ s))) s)
               (first_or_nul text))).
Proof.
  intros Hat Htable Hfuel.
  destruct fuel as [| [| fuel]]; try lia.
  pose proof (at_text_read Hat) as Hat'.
  split.
  - destruct (@charLiteral_unknown_escape (S fuel)
                (Token_init (mkTokenPos (Loc (pos_ s)) (line_number_ s))
                   (range_id s) tok)
                _ _ _ Hat' Htable)
      as (tok' & s' & more & Hrun & Hkind & Hpayload & Hreports & Hmore).
    unfold next, scan_into. unfold bind at 1. unfold bind at 1.
    rewrite (@scan_quote fuel tok s pre _ Hat), Hrun.
    cbv beta iota delta [bind ret modify current_TokenPos gets].
    cbn [set_kind kind kind_eqb]. cbv iota.
    destruct (TokenKind_eq_dec TOK_CHAR_LITERAL TOK_COMMENT) as [Heq | _];
      [discriminate Heq |].
    cbv beta iota.
    do 2 eexists. exists more. split; [reflexivity |].
    cbn. repeat split; try assumption.
    rewrite Hreports. cbn. rewrite Nat.add_succ_r, Nat.add_1_r. reflexivity.
  - rewrite (@stringLiteral_unknown_escape (S fuel) tok _ _ _ Hat' Htable).
    cbn [Nat.sub]. reflexivity.
Qed.

(** The hypotheses of [unknown_escape_in_char_literal] hold for the literal
    whose escape character is [q]. *)
Lemma unknown_escape_in_char_literal_witness :
  (exists tok' s' more,
      next 4 Token_default (lexer_of no_trace (chars_of "'\q'"))
        = Ok (TOK_CHAR_LITERAL, tok') s'
      /\ kind tok' = TOK_CHAR_LITERAL
      /\ payload tok' = CharValue 2147483647
      /\ reports (cc_ s') =
           [] ++ mkMessage (Loc 2) rmsg.unknown_escapecode [ArgChars [chr "q"]] :: more
      /\ Forall (fun m => msg_id m = rmsg.bad_char_terminator) more)
  /\ stringLiteral_loop 4 Token_default
       (with_pos 1 (lexer_of no_trace (chars_of "'\q'"))) =
     stringLiteral_loop 3 Token_default
       (with_literal [chr "?"]
          (after_unknown_escape
             (with_pos 2 (lexer_of no_trace (chars_of "'\q'"))) (chr "q"))).
Proof.
  apply (@unknown_escape_in_char_literal 4 Token_default
           (lexer_of no_trace (chars_of "'\q'")) [] (chars_of "q'")).
  - split; reflexivity.
  - reflexivity.
  - lia.
Defined.

(** ** Runs of the lexer on the boundary scenarios *)

(** C1. On the input [0x1A + 2] the lexer yields a HEX token, PLUS,
    INTEGER 2 and EOF, but the payload of the HEX token is 20: the decoding
    loop of the [TOK_HEX_LITERAL] case multiplies the accumulator by 10.  The
    base-16 value of the digits [1A] is 26. *)
Theorem hex_literal_is_decoded_in_base_ten :
  run no_trace "0x1A + 2" =
    mkRun Returned
      [ (TOK_HEX_LITERAL, IntValue 20); (TOK_PLUS, NoValue);
        (TOK_INTEGER_LITERAL, IntValue 2); (TOK_EOF, NoValue) ]
      [] [] []
  /\ hex_value (chars_of "1A") = 26.
Proof. split; vm_compute; reflexivity. Qed.

(** C2. Scanning the character literal with the escape [\x41;] yields a CHAR
    token whose value is 0, not 65: [readEscapeCode] returns [r], which the
    hex loop never writes. *)
Theorem hex_escape_yields_zero :
  run no_trace "'\x41;'" =
    mkRun Returned [ (TOK_CHAR_LITERAL, CharValue 0); (TOK_EOF, NoValue) ] [] [] []
  /\ hex_value (chars_of "41") = 65.
Proof. split; vm_compute; reflexivity. Qed.

(** C3. On the malformed float [1.x], [numberLiteral] reports
    [expected_digit_for_float] and returns [TOK_UNKNOWN], and [handleNumber]
    then reaches the [assert(false)] of its default branch: the call to
    [next] ends in a failed assertion instead of a token. *)
Theorem malformed_float_fails_assertion :
  run no_trace "1.x" =
    mkRun AssertionFailed [] [rmsg.expected_digit_for_float] [] []
  /\ match numberLiteral 8 (chr "1") (with_pos 1 (lexer_of no_trace (chars_of "1.x"))) with
     | Ok k _ => k = TOK_UNKNOWN
     | _ => False
     end
  /\ match next 8 Token_default (lexer_of no_trace (chars_of "1.x")) with
     | AssertFail _ => True
     | _ => False
     end.
Proof. repeat split; vm_compute; reflexivity. Qed.

(** C4. Lexing the five lines [#if 0], [JUNK], [#else], [ok], [#endif]
    hands exactly one concrete token, NAME(ok), to the caller before EOF;
    no diagnostic is delivered and the if-stack is empty at the end.  The
    first call to [next] answers [TOK_NONE] after the skip engine has
    fast-forwarded over the ignored region and [#else] has made the context
    active. *)
Theorem else_branch_of_false_if_is_lexed :
  run no_trace
    ("#if 0" ++ nl ++ "JUNK" ++ nl ++ "#else" ++ nl ++ "ok" ++ nl ++ "#endif" ++ nl) =
    mkRun Returned
      [ (TOK_NAME, AtomValue (chars_of "ok")); (TOK_EOF, NoValue) ] [] [] []
  /\ match next 64 Token_default
             (lexer_of no_trace
                (chars_of ("#if 0" ++ nl ++ "JUNK" ++ nl ++ "#else" ++ nl
                           ++ "ok" ++ nl ++ "#endif" ++ nl))) with
     | Ok (k, _) s =>
         k = TOK_NONE
         /\ ifstack_ s = [IfContext.mk (Loc 0) IfContext.Active (Loc 11)]
         /\ pos_ s = 16%nat
         /\ reports (cc_ s) = []
     | _ => False
     end.
Proof. split; vm_compute; [reflexivity | repeat split]. Qed.

(** C5. While [suppress_errors_] is true and a directive line is chewed, the
    scan of an unterminated string still delivers [unterminated_string]:
    [stringLiteral] reports through [cc_.report], not through
    [Lexer::report].  An empty character literal in the same place is
    silenced, since [charLiteral] reports through [Lexer::report]. *)
Theorem unterminated_string_is_reported_while_suppressed :
  match directive_next (scan 8) 8 Token_default
          (with_suppress_errors true
             (with_lexing_for_directive true
                (lexer_of no_trace (chars_of (dq ++ "a" ++ nl))))) with
  | Ok (k, _) s =>
      k = TOK_STRING_LITERAL
      /\ suppress_errors_ s = true
      /\ ids_of (reports (cc_ s)) = [rmsg.unterminated_string]
  | _ => False
  end
  /\ run no_trace ("#if 1" ++ nl ++ "#endif " ++ dq ++ "a" ++ nl) =
       mkRun Returned [ (TOK_EOF, NoValue) ]
         [rmsg.unterminated_string; rmsg.pp_extra_characters] [] []
  /\ run no_trace ("#if 1" ++ nl ++ "#endif ''" ++ nl) =
       mkRun Returned [ (TOK_EOF, NoValue) ] [rmsg.pp_extra_characters] [] [].
Proof. repeat split; vm_compute; reflexivity. Qed.

(** C6. With comment tracing on, the tail comment block that starts after
    [x] on the first line runs over the non-comment token [y] of the next
    line: the caller receives [x] and [z] only.  The loop of
    [processTailCommentBlock] continues while the scanned token is not a
    comment. *)
Theorem tail_comment_block_consumes_a_token :
  run trace_comments ("x // c" ++ nl ++ "y // d" ++ nl ++ "z") =
    mkRun Returned
      [ (TOK_NAME, AtomValue (chars_of "x")); (TOK_NAME, AtomValue (chars_of "z"));
        (TOK_EOF, NoValue) ]
      [] [] [ (Tail, mkSourceRange (Loc 2) (Loc 6)) ]
  /\ run no_trace ("x // c" ++ nl ++ "y // d" ++ nl ++ "z") =
    mkRun Returned
      [ (TOK_NAME, AtomValue (chars_of "x")); (TOK_NAME, AtomValue (chars_of "y"));
        (TOK_NAME, AtomValue (chars_of "z")); (TOK_EOF, NoValue) ]
      [] [] [].
Proof. split; vm_compute; reflexivity. Qed.

(** C7. In the skip engine a duplicate [#else] is reported as
    [else_declared_twice] and then overwrites the context's else location:
    after [#if 1], [#else], [#else] the context holds the location of the
    second [#else] (offset 12), where after [#if 1], [#else] it held the
    first (offset 6).  The active directive engine leaves the context as it
    was: after [#if 0], [#else], [#else] the location is still offset 6. *)
Theorem duplicate_else_overwrites_else_location :
  run no_trace ("#if 1" ++ nl ++ "#else" ++ nl) =
    mkRun Returned [ (TOK_EOF, NoValue) ] [rmsg.unterminated_else]
      [IfContext.mk (Loc 0) IfContext.Inactive (Loc 6)] []
  /\ run no_trace ("#if 1" ++ nl ++ "#else" ++ nl ++ "#else" ++ nl) =
    mkRun Returned [ (TOK_EOF, NoValue) ]
      [rmsg.else_declared_twice; rmsg.unterminated_else]
      [IfContext.mk (Loc 0) IfContext.Inactive (Loc 12)] []
  /\ run no_trace ("#if 0" ++ nl ++ "#else" ++ nl ++ "#else" ++ nl) =
    mkRun Returned [ (TOK_EOF, NoValue) ]
      [rmsg.else_declared_twice; rmsg.unterminated_else]
      [IfContext.mk (Loc 0) IfContext.Active (Loc 6)] [].
Proof. repeat split; vm_compute; reflexivity. Qed.

(** C9. A string literal that meets a newline before its closing quote is
    reported as [unterminated_string] once and a [STRING_LITERAL] kind is
    returned, but the token has no payload: [stringLiteral] returns before
    the literal is terminated and interned.  A closed string does carry its
    atom. *)
Theorem unterminated_string_token_has_no_atom :
  match next 64 Token_default
          (lexer_of no_trace (chars_of (dq ++ "a" ++ nl ++ "b" ++ dq))) with
  | Ok (k, tok) s =>
      k = TOK_STRING_LITERAL
      /\ payload tok = NoValue
      /\ ids_of (reports (cc_ s)) = [rmsg.unterminated_string]
      /\ literal_ s = chars_of "a"
  | _ => False
  end
  /\ match next 64 Token_default (lexer_of no_trace (chars_of (dq ++ "a" ++ dq))) with
     | Ok (k, tok) s =>
         k = TOK_STRING_LITERAL
         /\ payload tok = AtomValue (chars_of "a")
         /\ reports (cc_ s) = []
     | _ => False
     end.
Proof. split; vm_compute; repeat split. Qed.

(** * Further properties of the lexer *)

(** ** [StringToInt32] *)

Lemma StringToInt32_from_strip (ptr : list Z) :
  forall v, StringToInt32_from v (strip_underscores ptr) = StringToInt32_from v ptr.
Proof.
  induction ptr as [| c r IH]; intros v; [reflexivity |].
  cbn [strip_underscores filter StringToInt32_from].
  destruct (Z.eqb_spec c (chr "_")) as [-> | Hne]; cbn [negb].
  - rewrite orb_true_r. apply IH.
  - rewrite orb_false_r. cbn [StringToInt32_from].
    rewrite (proj2 (Z.eqb_neq c (chr "_")) Hne), orb_false_r. cbn [negb].
    destruct (IsDigit c); [apply IH | reflexivity].
Qed.

(** X1. [StringToInt32] treats the underscore as a digit separator: removing
    every underscore from the text does not change the result. *)
Theorem StringToInt32_ignores_underscores (ptr : list Z) :
  StringToInt32 (strip_underscores ptr) = StringToInt32 ptr.
Proof. apply StringToInt32_from_strip. Qed.

Lemma StringToInt32_from_digits (ds : list Z) :
  forall (v : Z) (rest : list Z),
    Forall (fun c => IsDigit c = true) ds ->
    IsDigit (first_or_nul rest) = false ->
    first_or_nul rest <> chr "_" ->
    0 <= v ->
    v * 10 ^ Z.of_nat (List.length ds) + dec_value ds < 2 ^ 31 ->
    StringToInt32_from v (ds ++ rest) =
      v * 10 ^ Z.of_nat (List.length ds) + dec_value ds.
Proof.
  induction ds as [| d ds IH]; intros v rest Hds Hend Hsep Hv Hfit.
  - cbn [app List.length dec_value Z.of_nat]. rewrite Z.pow_0_r, Z.mul_1_r, Z.add_0_r.
    destruct rest as [| c r]; [reflexivity |].
    cbn [first_or_nul hd] in Hend, Hsep. cbn [StringToInt32_from].
    rewrite Hend, (proj2 (Z.eqb_neq c (chr "_")) Hsep). reflexivity.
  - inversion Hds as [| ? ? Hd Hds']; subst.
    pose proof (dec_value_nonneg Hds') as Hrest.
    apply IsDigit_range in Hd as Hrange.
    assert (Hpow : 0 < 10 ^ Z.of_nat (List.length ds))
      by (apply Z.pow_pos_nonneg; lia).
    assert (Hstep : 10 ^ Z.of_nat (List.length (d :: ds))
                    = 10 * 10 ^ Z.of_nat (List.length ds)).
    { cbn [List.length]. rewrite Nat2Z.inj_succ, Z.pow_succ_r by lia. reflexivity. }
    rewrite Hstep in *. cbn [dec_value] in *. change (chr "0") with 48 in *.
    cbn [app StringToInt32_from]. rewrite Hd. cbn [orb].
    change (chr "_") with 95. rewrite (proj2 (Z.eqb_neq d 95)) by lia. cbn [negb].
    change (chr "0") with 48.
    assert (Hsmall : to_int32 (v * 10 + (d - 48)) = v * 10 + (d - 48)).
    { unfold to_int32. rewrite Z.mod_small; [lia |].
      change (2 ^ 32) with 4294967296. change (2 ^ 31) with 2147483648 in *. nia. }
    rewrite Hsmall, IH; try assumption; [ring | lia | nia].
Qed.

(** X2. On a run of decimal digits whose value fits a 32-bit [int],
    followed by a character that is neither a digit nor an underscore (or by
    the end of the text), [StringToInt32] returns the value of the digits. *)
Theorem StringToInt32_decodes_decimal (ds rest : list Z) :
  Forall (fun c => IsDigit c = true) ds ->
  IsDigit (first_or_nul rest) = false ->
  first_or_nul rest <> chr "_" ->
  dec_value ds < 2 ^ 31 ->
  StringToInt32 (ds ++ rest) = dec_value ds.
Proof.
  intros Hds Hend Hsep Hfit. unfold StringToInt32.
  rewrite StringToInt32_from_digits; try assumption; lia.
Qed.

Lemma StringToInt32_decodes_decimal_witness :
  StringToInt32 (chars_of "1024" ++ chars_of " bytes") = dec_value (chars_of "1024").
Proof.
  apply StringToInt32_decodes_decimal.
  - repeat constructor.
  - reflexivity.
  - discriminate.
  - vm_compute. reflexivity.
Defined.

(** ** Reporting *)

Lemma report_run (l : SourceLocation) (id : rmsg.Id) (args : list MessageArg)
    (s : Lexer) :
  report l id args s = Ok tt (reported s (mkMessage l id args)).
Proof.
  unfold report, reported, bind, gets, cc_report, modify, ret, delivered.
  now destruct (suppress_errors_ s).
Qed.

Lemma reports_reported (s : Lexer) (m : Message) :
  reports (cc_ (reported s m)) =
    reports (cc_ s) ++ (if suppress_errors_ s then [] else [m]).
Proof.
  unfold reported, delivered. destruct (suppress_errors_ s); cbn.
  - now rewrite app_nil_r.
  - reflexivity.
Qed.

Lemma pos_reported (s : Lexer) (m : Message) : pos_ (reported s m) = pos_ s.
Proof. unfold reported, delivered. now destruct (suppress_errors_ s). Qed.

(** ** Integer literals that overflow *)

Lemma decode_integer_overflow (l : SourceLocation) (ds : list Z) :
  forall (val : Z) (s : Lexer),
    Forall (fun c => IsDigit c = true) ds ->
    0 <= val < UINT64_MOD ->
    UINT64_MOD <= val * 10 ^ Z.of_nat (List.length ds) + dec_value ds ->
    exists v,
      decode_integer l ds val s = Ok v (reported s (overflow_message l))
      /\ 0 <= v < UINT64_MOD.
Proof.
  induction ds as [| d ds IH]; intros val s Hds Hval Hover.
  - cbn [List.length dec_value Z.of_nat] in Hover.
    rewrite Z.pow_0_r in Hover. lia.
  - inversion Hds as [| ? ? Hd Hds']; subst.
    pose proof (dec_value_nonneg Hds') as Hrest.
    apply IsDigit_range in Hd as Hrange.
    assert (Hstep : 10 ^ Z.of_nat (List.length (d :: ds))
                    = 10 * 10 ^ Z.of_nat (List.length ds)).
    { cbn [List.length]. rewrite Nat2Z.inj_succ, Z.pow_succ_r by lia. reflexivity. }
    rewrite Hstep in Hover. cbn [dec_value] in Hover. change (chr "0") with 48 in Hover.
    cbn [decode_integer]. unfold bind at 1. unfold assert. rewrite Hd.
    unfold TryUint64Multiply, TryUint64Add, to_uint64.
    change (chr "0") with 48.
    rewrite (Z.mod_small (d - 48)) by (unfold UINT64_MOD; lia).
    cbn zeta.
    destruct (Z.ltb_spec (val * 10) UINT64_MOD) as [Hmul | Hmul].
    + destruct (Z.ltb_spec (val * 10 + (d - 48)) UINT64_MOD) as [Hadd | Hadd].
      * apply IH; [assumption | lia |].
        replace ((val * 10 + (d - 48)) * 10 ^ Z.of_nat (List.length ds) + dec_value ds)
          with (val * (10 * 10 ^ Z.of_nat (List.length ds))
                + ((d - 48) * 10 ^ Z.of_nat (List.length ds) + dec_value ds)) by ring.
        exact Hover.
      * exists (val * 10). unfold bind. rewrite report_run. split; [reflexivity | lia].
    + exists val. unfold bind. rewrite report_run. split; [reflexivity | lia].
Qed.

(** X3. A decimal literal whose value does not fit 64 bits is still lexed as
    one [INTEGER_LITERAL] token over all its digits; [int_literal_overflow]
    is reported once at the start of the literal (not at all while errors are
    suppressed) and the payload stays below [2^64]. *)
Theorem integer_literal_overflow_is_reported_once (fuel : nat) (tok : Token)
    (s : Lexer) (pre ds rest : list Z) :
  Forall (fun c => IsDigit c = true) ds ->
  ends_integer ds rest = true ->
  at_text s pre (ds ++ rest) ->
  2 ^ 64 <= dec_value ds ->
  (List.length ds < fuel)%nat ->
  exists tok' s' v,
    next fuel tok s = Ok (TOK_INTEGER_LITERAL, tok') s'
    /\ payload tok' = IntValue v
    /\ 0 <= v < 2 ^ 64
    /\ reports (cc_ s') =
         reports (cc_ s)
         ++ (if suppress_errors_ s then []
             else [overflow_message (Loc (pos_ s))])
    /\ pos_ s' = (pos_ s + List.length ds)%nat.
Proof.
  intros Hds Hend Hat Hover Hfuel.
  destruct ds as [| d ds]; [cbn in Hover; lia |].
  cbn [List.length] in Hfuel.
  destruct fuel as [| [| fuel]]; try lia.
  inversion Hds as [| ? ? Hd Hds']; subst.
  cbn [app] in Hat.
  unfold next, scan_into. unfold bind at 1. unfold bind at 1.
  rewrite (@scan_digit fuel tok s pre d (ds ++ rest) Hat Hd).
  unfold handleNumber. unfold bind at 1.
  rewrite (@numberLiteral_integer (S fuel) _ (pre ++ [d]) d ds rest Hds' Hend
             (at_text_read Hat)) by lia.
  unfold bind at 1. unfold gets at 1.
  rewrite (@literal_text_terminated _ (d :: ds)) by reflexivity.
  set (s1 := with_pos _ _).
  destruct (@decode_integer_overflow
              (loc (start (Token_init (mkTokenPos (Loc (pos_ s)) (line_number_ s))
                             (range_id s) tok)))
              (d :: ds) 0 s1 Hds)
    as (v & Hrun & Hv).
  { unfold UINT64_MOD. lia. }
  { rewrite Z.mul_0_l, Z.add_0_l. exact Hover. }
  unfold bind at 1. rewrite Hrun.
  cbv beta iota delta [bind ret modify current_TokenPos gets].
  cbn [set_kind kind kind_eqb setIntValue set_payload].
  destruct (TokenKind_eq_dec TOK_INTEGER_LITERAL TOK_COMMENT) as [Heq | _];
    [discriminate Heq |].
  cbv beta iota.
  do 2 eexists. exists v. split; [reflexivity |].
  cbn [payload set_end cc_ pos_ with_lexed_tokens_on_line].
  rewrite reports_reported.
  subst s1. unfold UINT64_MOD in Hv.
  split; [reflexivity |]. split; [exact Hv |].
  split; [reflexivity |]. rewrite pos_reported. cbn [pos_ with_pos List.length]. lia.
Qed.

Lemma integer_literal_overflow_is_reported_once_witness :
  exists tok' s' v,
    next 32 Token_default (lexer_of no_trace (chars_of "18446744073709551616;"))
      = Ok (TOK_INTEGER_LITERAL, tok') s'
    /\ payload tok' = IntValue v
    /\ 0 <= v < 2 ^ 64
    /\ reports (cc_ s') = [] ++ [overflow_message (Loc 0)]
    /\ pos_ s' = 20%nat.
Proof.
  apply (@integer_literal_overflow_is_reported_once 32 Token_default
           (lexer_of no_trace (chars_of "18446744073709551616;"))
           [] (chars_of "18446744073709551616") (chars_of ";")).
  - repeat constructor.
  - reflexivity.
  - split; reflexivity.
  - vm_compute. discriminate.
  - vm_compute. lia.
Defined.

(** ** Stepping through the monad *)

Lemma bind_run {A B} (m : M A) (f : A -> M B) (s s' : Lexer) (a : A) :
  m s = Ok a s' -> bind m f s = f a s'.
Proof. intros H. unfold bind. now rewrite H. Qed.

Arguments bind_run {A B m} f {s s' a} _.

(** One step of a computation whose first action is a primitive of the
    monad or of the cursor. *)
Ltac step := erewrite bind_run by reflexivity; cbv beta.

(** Two lexer states are equal when their fields are. *)
Lemma Lexer_ext (a b : Lexer) :
  cc_ a = cc_ b -> pp_ a = pp_ b -> options_ a = options_ b ->
  chars_ a = chars_ b -> range_id a = range_id b -> pos_ a = pos_ b ->
  line_number_ a = line_number_ b ->
  lexing_for_directive_ a = lexing_for_directive_ b ->
  suppress_errors_ a = suppress_errors_ b ->
  lexed_tokens_on_line_ a = lexed_tokens_on_line_ b ->
  literal_ a = literal_ b -> ifstack_ a = ifstack_ b ->
  a = b.
Proof. destruct a, b; cbn; intros; subst; reflexivity. Qed.

Ltac lexer_fields :=
  cbn [cc_ pp_ options_ chars_ range_id pos_ line_number_ lexing_for_directive_
       suppress_errors_ lexed_tokens_on_line_ literal_ ifstack_
       with_cc with_pp with_options with_pos with_line_number
       with_lexing_for_directive with_suppress_errors with_lexed_tokens_on_line
       with_literal with_ifstack].

(** Equality of two states built from the same state by field updates. *)
Ltac lexer_eq :=
  apply Lexer_ext; lexer_fields; cbn [List.length]; try reflexivity; try lia.

(** ** From [scan] to [next] *)

(** What [next] makes of a token of [scan] that is not a comment. *)
Lemma next_of_scan (fuel : nat) (tok tok1 : Token) (s s1 : Lexer) (k : TokenKind) :
  scan fuel tok s = Ok (k, tok1) s1 ->
  k <> TOK_COMMENT ->
  next fuel tok s =
    Ok (k, set_end (mkTokenPos (Loc (pos_ s1)) (line_number_ s1)) (set_kind k tok1))
       (with_lexed_tokens_on_line (negb (kind_eqb k TOK_NONE)) s1).
Proof.
  intros Hscan Hk.
  unfold next, scan_into. unfold bind at 1. unfold bind at 1. rewrite Hscan.
  cbv beta iota delta [bind ret modify current_TokenPos gets].
  cbn [set_kind kind]. unfold kind_eqb at 1.
  destruct (TokenKind_eq_dec k TOK_COMMENT) as [Heq | _]; [contradiction |].
  reflexivity.
Qed.

(** ** Hexadecimal literals *)

Lemma IsHexDigit_range (c : Z) :
  IsHexDigit c = true <-> 48 <= c <= 57 \/ 97 <= c <= 102 \/ 65 <= c <= 70.
Proof.
  unfold IsHexDigit, IsDigit.
  change (chr "0") with 48. change (chr "9") with 57.
  change (chr "a") with 97. change (chr "f") with 102.
  change (chr "A") with 65. change (chr "F") with 70.
  rewrite !orb_true_iff, !andb_true_iff, !Z.leb_le. tauto.
Qed.

Lemma hex_digit_value_range (c : Z) :
  IsHexDigit c = true -> 0 <= hex_digit_value c < 16.
Proof.
  intros H. apply IsHexDigit_range in H. unfold hex_digit_value, IsDigit.
  change (chr "0") with 48. change (chr "9") with 57.
  change (chr "a") with 97. change (chr "A") with 65.
  destruct (Z.leb_spec 48 c), (Z.leb_spec c 57), (Z.leb_spec 97 c); cbn [andb]; lia.
Qed.

(** On a hex digit neither assertion of [HexDigitToValue] fails. *)
Lemma HexDigitToValue_run (c : Z) (s : Lexer) :
  IsHexDigit c = true -> HexDigitToValue c s = Ok (hex_digit_value c) s.
Proof.
  intros H. pose proof (hex_digit_value_range c H) as Hv.
  apply IsHexDigit_range in H.
  unfold HexDigitToValue, hex_digit_value, IsDigit in *.
  change (chr "0") with 48 in *. change (chr "9") with 57 in *.
  change (chr "a") with 97 in *. change (chr "f") with 102 in *.
  change (chr "A") with 65 in *. change (chr "F") with 70 in *.
  unfold to_uint64, UINT64_MOD, bind, assert, ret.
  destruct (Z.leb_spec 48 c), (Z.leb_spec c 57), (Z.leb_spec 97 c),
    (Z.leb_spec c 102), (Z.leb_spec 65 c), (Z.leb_spec c 70);
    cbn [andb] in *; try lia; rewrite Z.mod_small by lia; reflexivity.
Qed.

Lemma hexLiteral_loop_run (hs : list Z) :
  forall (fuel : nat) (s : Lexer) (pre rest : list Z),
    Forall (fun c => IsHexDigit c = true) hs ->
    IsHexDigit (first_or_nul rest) = false ->
    at_text s pre (hs ++ rest) ->
    (List.length hs < fuel)%nat ->
    hexLiteral_loop fuel s =
      Ok tt (with_pos (pos_ s + List.length hs)
               (with_literal (literal_ s ++ hs) s)).
Proof.
  induction hs as [| h hs IH]; intros fuel s pre rest Hhs Hend Hat Hfuel;
    (destruct fuel as [| fuel]; [simpl in Hfuel; lia |]); simpl in Hat.
  - cbn [hexLiteral_loop]. unfold bind. rewrite (readChar_text Hat).
    rewrite Hend. cbn [negb]. unfold backup, modify.
    destruct s; cbn. rewrite app_nil_r, Nat.sub_0_r, Nat.add_0_r. reflexivity.
  - inversion Hhs as [| ? ? Hh Hhs']; subst.
    cbn [hexLiteral_loop]. unfold bind. rewrite (readChar_text Hat).
    cbn [first_or_nul hd]. rewrite Hh. cbn [negb]. unfold literal_append, modify.
    apply at_text_read in Hat.
    erewrite IH with (pre := pre ++ [h]) (rest := rest); eauto.
    + destruct s; cbn. rewrite <- app_assoc, Nat.add_succ_r. reflexivity.
    + simpl in Hfuel. lia.
Qed.

Lemma numberLiteral_hex (fuel : nat) (s : Lexer) (pre : list Z) (x : Z)
    (hs rest : list Z) :
  x = chr "x" \/ x = chr "X" ->
  Forall (fun c => IsHexDigit c = true) hs ->
  IsHexDigit (first_or_nul rest) = false ->
  at_text s pre (x :: hs ++ rest) ->
  (List.length hs < fuel)%nat ->
  numberLiteral fuel (chr "0") s =
    Ok TOK_HEX_LITERAL
       (with_pos (S (pos_ s + List.length hs)) (with_literal (hs ++ [0]) s)).
Proof.
  intros Hx Hhs Hend Hat Hfuel.
  assert (Hxd : IsDigit x = false) by (destruct Hx; subst x; reflexivity).
  unfold numberLiteral, bind, literal_clear, literal_append, modify.
  rewrite (@digits_loop_run [] fuel _ pre (x :: hs ++ rest));
    [| constructor | exact Hxd | exact Hat | cbn; lia].
  unfold gets. cbn [literal_ with_pos with_literal app first_or_nul hd List.length nth].
  assert (Hhex : (x =? chr "x") || (x =? chr "X") = true)
    by (destruct Hx; subst x; reflexivity).
  rewrite Hhex. change (1 =? 1)%nat with true. change (chr "0" =? chr "0") with true.
  cbn [andb].
  unfold hexLiteral, bind, literal_clear, literal_append, modify.
  match goal with
  | |- context [hexLiteral_loop fuel ?st] => set (s1 := st)
  end.
  assert (Hat' : at_text s1 (pre ++ [x]) (hs ++ rest)).
  { destruct Hat as [Hc Hp]. split; subst s1; cbn.
    - now rewrite Hc, <- app_assoc.
    - rewrite Hp, length_app. cbn. lia. }
  rewrite (@hexLiteral_loop_run hs fuel s1 (pre ++ [x]) rest Hhs Hend Hat' Hfuel).
  unfold ret. subst s1. destruct s; cbn. rewrite Nat.add_0_r. reflexivity.
Qed.

(** The decoding loop of hex literals always returns a 64-bit value; it
    reports at most the overflow. *)
Lemma decode_hex_total (l : SourceLocation) (hs : list Z) :
  forall (val : Z) (s : Lexer),
    Forall (fun c => IsHexDigit c = true) hs ->
    0 <= val < UINT64_MOD ->
    exists v s',
      decode_hex l hs val s = Ok v s'
      /\ 0 <= v < UINT64_MOD
      /\ (s' = s \/ s' = reported s (overflow_message l)).
Proof.
  induction hs as [| h hs IH]; intros val s Hhs Hval.
  - exists val, s. cbn. auto.
  - inversion Hhs as [| ? ? Hh Hhs']; subst.
    pose proof (hex_digit_value_range h Hh) as Hd.
    cbn [decode_hex]. unfold bind at 1. rewrite (@HexDigitToValue_run h s Hh).
    unfold TryUint64Multiply, TryUint64Add. cbn zeta.
    destruct (Z.ltb_spec (val * 10) UINT64_MOD) as [Hmul | Hmul].
    + destruct (Z.ltb_spec (val * 10 + hex_digit_value h) UINT64_MOD) as [Hadd | Hadd].
      * apply IH; [assumption | lia].
      * exists (val * 10). eexists. unfold bind. rewrite report_run.
        split; [reflexivity |]. split; [lia | now right].
    + exists val. eexists. unfold bind. rewrite report_run.
      split; [reflexivity |]. split; [lia | now right].
Qed.

Lemma decode_hex_short (l : SourceLocation) (hs : list Z) (s : Lexer) :
  Forall (fun c => IsHexDigit c = true) hs ->
  (List.length hs <= 1)%nat ->
  decode_hex l hs 0 s = Ok (hex_value hs) s.
Proof.
  intros Hhs Hlen. destruct hs as [| h [| h' hs]]; [reflexivity | | cbn in Hlen; lia].
  inversion Hhs as [| ? ? Hh _]; subst.
  pose proof (hex_digit_value_range h Hh) as Hd.
  cbn [decode_hex hex_value List.length Z.of_nat]. unfold bind at 1.
  rewrite (@HexDigitToValue_run h s Hh).
  unfold TryUint64Multiply, TryUint64Add. cbn zeta.
  change (0 * 10) with 0. change (0 <? UINT64_MOD) with true. cbv iota.
  rewrite Z.add_0_l.
  destruct (Z.ltb_spec (hex_digit_value h) UINT64_MOD) as [_ | Hover];
    [| unfold UINT64_MOD in Hover; lia].
  unfold ret. f_equal. rewrite Z.pow_0_r. lia.
Qed.

(** X4. [0x] or [0X] followed by a maximal run of hex digits (possibly
    empty) is lexed as one [HEX_LITERAL] token over the whole run: no
    assertion of [HexDigitToValue] fails, the payload is a 64-bit value and
    the only diagnostic that can be added is the overflow.  With no digit the
    payload is 0 and with one digit it is that digit's value, and nothing is
    reported. *)
Theorem hex_literal_is_scanned (fuel : nat) (tok : Token) (s : Lexer)
    (pre : list Z) (x : Z) (hs rest : list Z) :
  x = chr "x" \/ x = chr "X" ->
  Forall (fun c => IsHexDigit c = true) hs ->
  IsHexDigit (first_or_nul rest) = false ->
  at_text s pre (chr "0" :: x :: hs ++ rest) ->
  (S (List.length hs) < fuel)%nat ->
  exists tok' s' v,
    next fuel tok s = Ok (TOK_HEX_LITERAL, tok') s'
    /\ payload tok' = IntValue v
    /\ 0 <= v < 2 ^ 64
    /\ pos_ s' = (pos_ s + 2 + List.length hs)%nat
    /\ (reports (cc_ s') = reports (cc_ s)
        \/ reports (cc_ s') = reports (cc_ s) ++ [overflow_message (Loc (pos_ s))])
    /\ ((List.length hs <= 1)%nat ->
        v = hex_value hs /\ reports (cc_ s') = reports (cc_ s)).
Proof.
  intros Hx Hhs Hend Hat Hfuel.
  destruct fuel as [| [| fuel]]; try lia.
  set (tok0 := Token_init (mkTokenPos (Loc (pos_ s)) (line_number_ s)) (range_id s) tok).
  set (s1 := with_pos (S (S (pos_ s) + List.length hs))
               (with_literal (hs ++ [0]) (with_pos (S (pos_ s)) s))).
  assert (Hnum : numberLiteral (S fuel) (chr "0") (with_pos (S (pos_ s)) s)
                 = Ok TOK_HEX_LITERAL s1).
  { unfold s1.
    rewrite (@numberLiteral_hex (S fuel) (with_pos (S (pos_ s)) s) (pre ++ [chr "0"])
               x hs rest Hx Hhs Hend (at_text_read Hat)) by lia.
    reflexivity. }
  assert (Htext : literal_text s1 = hs)
    by (apply literal_text_terminated; reflexivity).
  destruct (@decode_hex_total (loc (start tok0)) hs 0 s1 Hhs) as (v & s' & Hrun & Hv & Hs').
  { unfold UINT64_MOD. lia. }
  assert (Hscan : scan (S (S fuel)) tok s = Ok (TOK_HEX_LITERAL, setIntValue v tok0) s').
  { rewrite (@scan_digit fuel tok s pre (chr "0") (x :: hs ++ rest) Hat eq_refl).
    fold tok0. unfold handleNumber. unfold bind at 1. rewrite Hnum.
    unfold bind at 1. unfold gets at 1. rewrite Htext.
    unfold bind. rewrite Hrun. reflexivity. }
  rewrite (@next_of_scan _ _ _ _ _ _ Hscan) by discriminate.
  do 2 eexists. exists v.
  cbn [payload set_end set_kind setIntValue set_payload cc_ pos_
       with_lexed_tokens_on_line].
  unfold UINT64_MOD in Hv.
  assert (Hpos : pos_ s' = (pos_ s + 2 + List.length hs)%nat).
  { destruct Hs' as [-> | ->]; [| rewrite pos_reported]; subst s1; cbn; lia. }
  assert (Hrep : reports (cc_ s') = reports (cc_ s)
                 \/ reports (cc_ s') = reports (cc_ s) ++ [overflow_message (Loc (pos_ s))]).
  { destruct Hs' as [-> | ->]; [now left |].
    rewrite reports_reported. subst s1 tok0. cbn.
    destruct (suppress_errors_ s); [left; apply app_nil_r | now right]. }
  split; [reflexivity |].
  split; [reflexivity |].
  split; [exact Hv |].
  split; [exact Hpos |].
  split; [exact Hrep |].
  intros Hshort. rewrite (@decode_hex_short _ hs s1 Hhs Hshort) in Hrun.
  injection Hrun as <- <-. split; reflexivity.
Qed.

Lemma hex_literal_is_scanned_witness :
  exists tok' s' v,
    next 8 Token_default (lexer_of no_trace (chars_of "0xF;")) = Ok (TOK_HEX_LITERAL, tok') s'
    /\ payload tok' = IntValue v
    /\ 0 <= v < 2 ^ 64
    /\ pos_ s' = 3%nat
    /\ (reports (cc_ s') = [] \/ reports (cc_ s') = [] ++ [overflow_message (Loc 0)])
    /\ ((1 <= 1)%nat -> v = hex_value (chars_of "F") /\ reports (cc_ s') = []).
Proof.
  apply (@hex_literal_is_scanned 8 Token_default (lexer_of no_trace (chars_of "0xF;"))
           [] (chr "x") (chars_of "F") (chars_of ";")).
  - now left.
  - repeat constructor.
  - reflexivity.
  - split; reflexivity.
  - cbn. lia.
Defined.

(** ** Float literals *)

Lemma digits_loop_backup_run (ds : list Z) :
  forall (fuel : nat) (s : Lexer) (pre rest : list Z),
    Forall (fun c => IsDigit c = true) ds ->
    IsDigit (first_or_nul rest) = false ->
    at_text s pre (ds ++ rest) ->
    (List.length ds < fuel)%nat ->
    digits_loop_backup fuel s =
      Ok (first_or_nul rest)
         (with_pos (pos_ s + List.length ds)
            (with_literal (literal_ s ++ ds) s)).
Proof.
  induction ds as [| d ds IH]; intros fuel s pre rest Hds Hend Hat Hfuel;
    (destruct fuel as [| fuel]; [simpl in Hfuel; lia |]); simpl in Hat.
  - cbn [digits_loop_backup]. unfold bind. rewrite (readChar_text Hat).
    rewrite Hend. cbn [negb]. unfold backup, modify, ret.
    destruct s; cbn. rewrite app_nil_r, Nat.sub_0_r, Nat.add_0_r. reflexivity.
  - inversion Hds as [| ? ? Hd Hds']; subst.
    cbn [digits_loop_backup]. unfold bind. rewrite (readChar_text Hat).
    cbn [first_or_nul hd]. rewrite Hd. cbn [negb]. unfold literal_append, modify.
    apply at_text_read in Hat.
    erewrite IH with (pre := pre ++ [d]) (rest := rest); eauto.
    + destruct s; cbn. rewrite <- app_assoc, Nat.add_succ_r. reflexivity.
    + simpl in Hfuel. lia.
Qed.

Lemma at_text_skip (s : Lexer) (pre text1 text2 : list Z) (lit : list Z) :
  at_text s pre (text1 ++ text2) ->
  at_text (with_pos (pos_ s + List.length text1) (with_literal lit s))
    (pre ++ text1) text2.
Proof.
  intros [Hc Hp]. split; cbn.
  - now rewrite Hc, <- app_assoc.
  - rewrite Hp, length_app. reflexivity.
Qed.

Lemma matchChar_miss (s : Lexer) (pre text : list Z) (c : Z) :
  at_text s pre text -> first_or_nul text <> c -> matchChar c s = Ok false s.
Proof.
  intros Hat Hne. unfold matchChar, bind, peekChar.
  rewrite (char_at_text Hat), (proj2 (Z.eqb_neq _ _) Hne). reflexivity.
Qed.

Lemma matchChar_hit (s : Lexer) (pre text : list Z) (c : Z) :
  at_text s pre (c :: text) -> matchChar c s = Ok true (with_pos (S (pos_ s)) s).
Proof.
  intros Hat. unfold matchChar, bind, peekChar.
  rewrite (char_at_text Hat). cbn [first_or_nul hd]. rewrite Z.eqb_refl. reflexivity.
Qed.

Lemma numberLiteral_float (fuel : nat) (s : Lexer) (pre : list Z) (d : Z)
    (ds d2 : list Z) (rest : list Z) :
  Forall (fun c => IsDigit c = true) ds ->
  Forall (fun c => IsDigit c = true) d2 ->
  d2 <> [] ->
  IsDigit (first_or_nul rest) = false ->
  first_or_nul rest <> chr "e" ->
  at_text s pre (ds ++ chr "." :: d2 ++ rest) ->
  (List.length ds < fuel)%nat ->
  (List.length d2 <= fuel)%nat ->
  numberLiteral fuel d s =
    Ok TOK_FLOAT_LITERAL
       (with_pos (pos_ s + List.length ds + 1 + List.length d2)
          (with_literal (d :: ds ++ chr "." :: d2 ++ [0]) s)).
Proof.
  intros Hds Hd2 Hne Hend He Hat Hfuel Hfuel2.
  destruct d2 as [| f fs]; [congruence |].
  inversion Hd2 as [| ? ? Hf Hfs]; subst.
  unfold numberLiteral. step. step.
  erewrite bind_run
    by (apply (@digits_loop_run ds fuel _ pre (chr "." :: (f :: fs) ++ rest));
        [exact Hds | reflexivity | exact Hat | exact Hfuel]).
  step. cbn [first_or_nul hd literal_ with_pos with_literal app].
  change (chr "." =? chr "x") with false. change (chr "." =? chr "X") with false.
  rewrite andb_false_r. change (chr "." =? chr ".") with true. cbn [negb].
  step.
  match goal with
  | |- bind readChar _ ?st = _ => set (s1 := st)
  end.
  assert (Hat1 : at_text s1 ((pre ++ ds) ++ [chr "."]) ((f :: fs) ++ rest)).
  { destruct Hat as [Hc Hp]. split; subst s1; cbn.
    - rewrite Hc, <- !app_assoc. reflexivity.
    - rewrite Hp, !length_app. cbn. lia. }
  rewrite (bind_run _ (readChar_text Hat1)).
  cbn [app first_or_nul hd]. rewrite Hf. cbn [negb].
  step.
  apply at_text_read in Hat1. cbn [app] in Hat1.
  match goal with
  | |- bind (digits_loop_backup fuel) _ ?st = _ => set (s2 := st)
  end.
  assert (Hat2 : at_text s2 (((pre ++ ds) ++ [chr "."]) ++ [f]) (fs ++ rest))
    by exact Hat1.
  rewrite (bind_run _ (@digits_loop_backup_run fs fuel s2 _ rest Hfs Hend Hat2
                         ltac:(cbn in Hfuel2; lia))).
  erewrite bind_run
    by (eapply matchChar_miss; [apply (@at_text_skip s2 _ fs rest _ Hat2) | exact He]).
  cbn [negb]. step. unfold ret.
  subst s2 s1. f_equal. lexer_eq.
  rewrite <- !app_assoc. reflexivity.
Qed.

Lemma numberLiteral_float_exponent (fuel : nat) (s : Lexer) (pre : list Z) (d : Z)
    (ds d2 sign d3 : list Z) (rest : list Z) :
  Forall (fun c => IsDigit c = true) ds ->
  Forall (fun c => IsDigit c = true) d2 ->
  d2 <> [] ->
  sign = [] \/ sign = [chr "-"] ->
  Forall (fun c => IsDigit c = true) d3 ->
  d3 <> [] ->
  IsDigit (first_or_nul rest) = false ->
  at_text s pre (ds ++ chr "." :: d2 ++ chr "e" :: sign ++ d3 ++ rest) ->
  (List.length ds < fuel)%nat ->
  (List.length d2 <= fuel)%nat ->
  (List.length d3 <= fuel)%nat ->
  numberLiteral fuel d s =
    Ok TOK_FLOAT_LITERAL
       (with_pos (pos_ s + List.length ds + 1 + List.length d2 + 1
                  + List.length sign + List.length d3)
          (with_literal
             (d :: ds ++ chr "." :: d2 ++ chr "e" :: sign ++ d3 ++ [0]) s)).
Proof.
  intros Hds Hd2 Hne Hsign Hd3 Hne3 Hend Hat Hfuel Hfuel2 Hfuel3.
  destruct d2 as [| f fs]; [congruence |].
  destruct d3 as [| g gs]; [congruence |].
  inversion Hd2 as [| ? ? Hf Hfs]; subst.
  inversion Hd3 as [| ? ? Hg Hgs]; subst.
  unfold numberLiteral. step. step.
  erewrite bind_run
    by (apply (@digits_loop_run ds fuel _ pre
                 (chr "." :: (f :: fs) ++ chr "e" :: sign ++ (g :: gs) ++ rest));
        [exact Hds | reflexivity | exact Hat | exact Hfuel]).
  step. cbn [first_or_nul hd literal_ with_pos with_literal app].
  change (chr "." =? chr "x") with false. change (chr "." =? chr "X") with false.
  rewrite andb_false_r. change (chr "." =? chr ".") with true. cbn [negb].
  step.
  match goal with
  | |- bind readChar _ ?st = _ => set (s1 := st)
  end.
  assert (Hat1 : at_text s1 ((pre ++ ds) ++ [chr "."])
                   ((f :: fs) ++ chr "e" :: sign ++ (g :: gs) ++ rest)).
  { destruct Hat as [Hc Hp]. split; subst s1; cbn.
    - rewrite Hc, <- !app_assoc. reflexivity.
    - rewrite Hp, !length_app. cbn. lia. }
  rewrite (bind_run _ (readChar_text Hat1)).
  cbn [app first_or_nul hd]. rewrite Hf. cbn [negb].
  step.
  apply at_text_read in Hat1. cbn [app] in Hat1.
  match goal with
  | |- bind (digits_loop_backup fuel) _ ?st = _ => set (s2 := st)
  end.
  assert (Hat2 : at_text s2 (((pre ++ ds) ++ [chr "."]) ++ [f])
                   (fs ++ chr "e" :: sign ++ (g :: gs) ++ rest))
    by exact Hat1.
  rewrite (bind_run _ (@digits_loop_backup_run fs fuel s2 _
                         (chr "e" :: sign ++ (g :: gs) ++ rest) Hfs eq_refl Hat2
                         ltac:(cbn in Hfuel2; lia))).
  cbn [first_or_nul hd].
  pose proof (@at_text_skip s2 _ fs _ (literal_ s2 ++ fs) Hat2) as Hat3.
  rewrite (bind_run _ (matchChar_hit Hat3)).
  cbn [negb]. step.
  apply at_text_read in Hat3.
  match goal with
  | |- bind readChar _ ?st = _ => set (s3 := st)
  end.
  assert (Hat4 : at_text s3 ((((((pre ++ ds) ++ [chr "."]) ++ [f]) ++ fs) ++ [chr "e"]))
                   (sign ++ (g :: gs) ++ rest))
    by exact Hat3.
  destruct Hsign as [-> | ->]; cbn [app] in Hat4.
  - rewrite (bind_run _ (readChar_text Hat4)). cbn [first_or_nul hd].
    replace (g =? chr "-") with false
      by (symmetry; apply Z.eqb_neq; apply IsDigit_range in Hg; change (chr "-") with 45; lia).
    step. rewrite Hg. cbn [negb]. step.
    apply at_text_read in Hat4.
    erewrite bind_run
      by (eapply (@digits_loop_backup_run gs fuel _ _ rest Hgs Hend);
          [exact Hat4 | cbn in Hfuel3; lia]).
    step. unfold ret.
    subst s3 s2 s1. f_equal. lexer_eq.
    rewrite <- !app_assoc. reflexivity.
  - rewrite (bind_run _ (readChar_text Hat4)). cbn [first_or_nul hd].
    change (chr "-" =? chr "-") with true. cbv iota.
    apply at_text_read in Hat4.
    erewrite bind_run; cycle 1.
    { erewrite bind_run by reflexivity. cbv beta.
      eapply (@readChar_text _ _ (g :: gs ++ rest)). exact Hat4. }
    cbv beta. cbn [first_or_nul hd]. rewrite Hg. cbn [negb]. step.
    match goal with
    | |- bind (digits_loop_backup fuel) _ ?st = _ => set (s4 := st)
    end.
    assert (Hat5 : at_text s4
                     ((((((((pre ++ ds) ++ [chr "."]) ++ [f]) ++ fs) ++ [chr "e"])
                        ++ [chr "-"]) ++ [g])) (gs ++ rest)).
    { apply (@at_text_read _ _ g (gs ++ rest)). exact Hat4. }
    rewrite (bind_run _ (@digits_loop_backup_run gs fuel s4 _ rest Hgs Hend Hat5
                           ltac:(cbn in Hfuel3; lia))).
    step. unfold ret.
    subst s4 s3 s2 s1. f_equal. lexer_eq.
    rewrite <- !app_assoc. reflexivity.
Qed.

(** X5. Digits, a dot and at least one more digit, not followed by another
    digit or by [e], are lexed as one [FLOAT_LITERAL] token; the text handed
    to [ParseDouble] is the whole lexeme, NUL-terminated, and nothing is
    reported.  In particular an upper-case [E] does not start an exponent. *)
Theorem float_literal_is_scanned (fuel : nat) (tok : Token) (s : Lexer)
    (pre ip fp rest : list Z) :
  ip <> [] -> fp <> [] ->
  Forall (fun c => IsDigit c = true) ip ->
  Forall (fun c => IsDigit c = true) fp ->
  IsDigit (first_or_nul rest) = false ->
  first_or_nul rest <> chr "e" ->
  at_text s pre (ip ++ chr "." :: fp ++ rest) ->
  (List.length ip + List.length fp < fuel)%nat ->
  exists tok' s',
    next fuel tok s = Ok (TOK_FLOAT_LITERAL, tok') s'
    /\ payload tok' = DoubleValue (ip ++ chr "." :: fp ++ [0])
    /\ reports (cc_ s') = reports (cc_ s)
    /\ pos_ s' = (pos_ s + List.length ip + 1 + List.length fp)%nat.
Proof.
  intros Hip Hfp Hdi Hdf Hend He Hat Hfuel.
  destruct ip as [| d ds]; [congruence |].
  inversion Hdi as [| ? ? Hd Hds]; subst.
  destruct fp as [| f fs]; [congruence |].
  cbn [List.length] in Hfuel.
  destruct fuel as [| [| fuel]]; try lia.
  cbn [app] in Hat.
  assert (Hscan : scan (S (S fuel)) tok s =
            Ok (TOK_FLOAT_LITERAL,
                setDoubleValue (d :: ds ++ chr "." :: (f :: fs) ++ [0])
                  (Token_init (mkTokenPos (Loc (pos_ s)) (line_number_ s))
                     (range_id s) tok))
               (with_pos (S (pos_ s) + List.length ds + 1 + List.length (f :: fs))
                  (with_literal (d :: ds ++ chr "." :: (f :: fs) ++ [0])
                     (with_pos (S (pos_ s)) s)))).
  { rewrite (@scan_digit fuel tok s pre d _ Hat Hd).
    unfold handleNumber.
    rewrite (bind_run _ (@numberLiteral_float (S fuel) _ (pre ++ [d]) d ds (f :: fs) rest
                           Hds Hdf Hfp Hend He (at_text_read Hat)
                           ltac:(lia) ltac:(cbn [List.length]; lia))).
    step. reflexivity. }
  rewrite (@next_of_scan _ _ _ _ _ _ Hscan) by discriminate.
  do 2 eexists. split; [reflexivity |].
  split; [reflexivity |]. split; [reflexivity |].
  cbn [pos_ with_pos with_lexed_tokens_on_line List.length]. lia.
Qed.

Lemma float_literal_is_scanned_witness :
  exists tok' s',
    next 8 Token_default (lexer_of no_trace (chars_of "2.5E3")) = Ok (TOK_FLOAT_LITERAL, tok') s'
    /\ payload tok' = DoubleValue (chars_of "2" ++ chr "." :: chars_of "5" ++ [0])
    /\ reports (cc_ s') = []
    /\ pos_ s' = 3%nat.
Proof.
  apply (@float_literal_is_scanned 8 Token_default
           (lexer_of no_trace (chars_of "2.5E3")) [] (chars_of "2") (chars_of "5")
           (chars_of "E3")).
  - discriminate.
  - discriminate.
  - repeat constructor.
  - repeat constructor.
  - reflexivity.
  - discriminate.
  - split; reflexivity.
  - cbn. lia.
Defined.

(** X6. A float with an exponent, [e] followed by an optional minus sign and
    at least one digit, is lexed as one [FLOAT_LITERAL] token whose text is
    the whole lexeme; nothing is reported. *)
Theorem float_literal_with_exponent_is_scanned (fuel : nat) (tok : Token)
    (s : Lexer) (pre ip fp sign ep rest : list Z) :
  ip <> [] -> fp <> [] -> ep <> [] ->
  Forall (fun c => IsDigit c = true) ip ->
  Forall (fun c => IsDigit c = true) fp ->
  Forall (fun c => IsDigit c = true) ep ->
  sign = [] \/ sign = [chr "-"] ->
  IsDigit (first_or_nul rest) = false ->
  at_text s pre (ip ++ chr "." :: fp ++ chr "e" :: sign ++ ep ++ rest) ->
  (List.length ip + List.length fp + List.length ep < fuel)%nat ->
  exists tok' s',
    next fuel tok s = Ok (TOK_FLOAT_LITERAL, tok') s'
    /\ payload tok' =
         DoubleValue (ip ++ chr "." :: fp ++ chr "e" :: sign ++ ep ++ [0])
    /\ reports (cc_ s') = reports (cc_ s)
    /\ pos_ s' = (pos_ s + List.length ip + 1 + List.length fp + 1
                  + List.length sign + List.length ep)%nat.
Proof.
  intros Hip Hfp Hep Hdi Hdf Hde Hsign Hend Hat Hfuel.
  destruct ip as [| d ds]; [congruence |].
  inversion Hdi as [| ? ? Hd Hds]; subst.
  cbn [List.length] in Hfuel.
  destruct fuel as [| [| fuel]]; try lia.
  cbn [app] in Hat.
  assert (Hscan : scan (S (S fuel)) tok s =
            Ok (TOK_FLOAT_LITERAL,
                setDoubleValue
                  (d :: ds ++ chr "." :: fp ++ chr "e" :: sign ++ ep ++ [0])
                  (Token_init (mkTokenPos (Loc (pos_ s)) (line_number_ s))
                     (range_id s) tok))
               (with_pos (S (pos_ s) + List.length ds + 1 + List.length fp + 1
                          + List.length sign + List.length ep)
                  (with_literal
                     (d :: ds ++ chr "." :: fp ++ chr "e" :: sign ++ ep ++ [0])
                     (with_pos (S (pos_ s)) s)))).
  { rewrite (@scan_digit fuel tok s pre d _ Hat Hd).
    unfold handleNumber.
    rewrite (bind_run _ (@numberLiteral_float_exponent (S fuel) _ (pre ++ [d]) d ds
                           fp sign ep rest Hds Hdf Hfp Hsign Hde Hep Hend
                           (at_text_read Hat) ltac:(lia) ltac:(lia) ltac:(lia))).
    step. reflexivity. }
  rewrite (@next_of_scan _ _ _ _ _ _ Hscan) by discriminate.
  do 2 eexists. split; [reflexivity |].
  split; [reflexivity |]. split; [reflexivity |].
  cbn [pos_ with_pos with_lexed_tokens_on_line List.length]. lia.
Qed.

Lemma float_literal_with_exponent_is_scanned_witness :
  exists tok' s',
    next 16 Token_default (lexer_of no_trace (chars_of "3.14e-2"))
      = Ok (TOK_FLOAT_LITERAL, tok') s'
    /\ payload tok' = DoubleValue (chars_of "3.14e-2" ++ [0])
    /\ reports (cc_ s') = []
    /\ pos_ s' = 7%nat.
Proof.
  apply (@float_literal_with_exponent_is_scanned 16 Token_default
           (lexer_of no_trace (chars_of "3.14e-2")) [] (chars_of "3") (chars_of "14")
           (chars_of "-") (chars_of "2") []).
  - discriminate.
  - discriminate.
  - discriminate.
  - repeat constructor.
  - repeat constructor.
  - repeat constructor.
  - now right.
  - reflexivity.
  - split; reflexivity.
  - cbn. lia.
Defined.

(** ** String literals *)

Lemma scan_dquote (fuel : nat) (tok : Token) (s : Lexer) (pre text : list Z) :
  at_text s pre (34 :: text) ->
  scan (S (S fuel)) tok s =
    stringLiteral (S fuel)
      (Token_init (mkTokenPos (Loc (pos_ s)) (line_number_ s)) (range_id s) tok)
      (with_pos (S (pos_ s)) s).
Proof.
  intros Hat.
  cbn [scan]. unfold scan_body.
  rewrite (bind_run _ (consumeWhitespace_start fuel Hat ltac:(reflexivity))).
  step. eval_chr. eqb_compute 34. cbn [andb orb].
  step. step. step.
  cbn [pos_ with_pos line_number_ range_id Nat.sub]. rewrite Nat.sub_0_r.
  reflexivity.
Qed.

Lemma stringLiteral_loop_plain (body : list Z) :
  forall (fuel : nat) (tok : Token) (s : Lexer) (pre rest : list Z),
    Forall (fun c => plain_string_char c = true) body ->
    at_text s pre (body ++ 34 :: rest) ->
    (List.length body < fuel)%nat ->
    stringLiteral_loop fuel tok s =
      Ok true (with_pos (S (pos_ s + List.length body))
                 (with_literal (literal_ s ++ body) s)).
Proof.
  induction body as [| c body IH]; intros fuel tok s pre rest Hbody Hat Hfuel;
    (destruct fuel as [| fuel]; [simpl in Hfuel; lia |]); simpl in Hat.
  - cbn [stringLiteral_loop]. rewrite (bind_run _ (readChar_text Hat)).
    cbn [first_or_nul hd]. change (34 =? 34) with true. cbv iota. unfold ret.
    destruct s; cbn. rewrite app_nil_r, Nat.add_0_r. reflexivity.
  - inversion Hbody as [| ? ? Hc Hbody']; subst.
    unfold plain_string_char in Hc.
    apply andb_true_iff in Hc as [Hc Hterm].
    apply andb_true_iff in Hc as [Hq Hb].
    apply negb_true_iff in Hq, Hb, Hterm.
    cbn [stringLiteral_loop]. rewrite (bind_run _ (readChar_text Hat)).
    cbn [first_or_nul hd]. rewrite Hq, Hterm, Hb. step. step.
    apply at_text_read in Hat.
    erewrite IH with (pre := pre ++ [c]) (rest := rest); eauto.
    + destruct s; cbn. rewrite <- app_assoc, Nat.add_succ_r. reflexivity.
    + simpl in Hfuel. lia.
Qed.

(** X7. A string literal whose body holds no quote, backslash or line
    terminator is lexed as one [STRING_LITERAL] token whose atom is the
    body, byte for byte; nothing is reported and the cursor is left after the
    closing quote. *)
Theorem plain_string_literal_round_trip (fuel : nat) (tok : Token) (s : Lexer)
    (pre body rest : list Z) :
  Forall (fun c => plain_string_char c = true) body ->
  at_text s pre (34 :: body ++ 34 :: rest) ->
  (S (List.length body) < fuel)%nat ->
  exists tok' s',
    next fuel tok s = Ok (TOK_STRING_LITERAL, tok') s'
    /\ payload tok' = AtomValue body
    /\ reports (cc_ s') = reports (cc_ s)
    /\ pos_ s' = (pos_ s + List.length body + 2)%nat.
Proof.
  intros Hbody Hat Hfuel.
  destruct fuel as [| [| fuel]]; try lia.
  assert (Hscan : scan (S (S fuel)) tok s =
            Ok (TOK_STRING_LITERAL,
                setAtom body
                  (Token_init (mkTokenPos (Loc (pos_ s)) (line_number_ s))
                     (range_id s) tok))
               (with_literal (body ++ [0])
                  (with_pos (S (S (pos_ s) + List.length body)) s))).
  { rewrite (scan_dquote fuel tok Hat). unfold stringLiteral. step.
    erewrite bind_run
      by (eapply (@stringLiteral_loop_plain body (S fuel) _ _ (pre ++ [34]) rest Hbody);
          [apply (@at_text_read _ _ 34 (body ++ 34 :: rest)); exact Hat | lia]).
    cbn [negb]. step. step.
    rewrite (@literal_text_terminated _ body) by reflexivity.
    unfold ret, cc_add. destruct s; reflexivity. }
  rewrite (@next_of_scan _ _ _ _ _ _ Hscan) by discriminate.
  do 2 eexists. split; [reflexivity |].
  split; [reflexivity |]. split; [reflexivity |].
  cbn [pos_ with_pos with_literal with_lexed_tokens_on_line]. lia.
Qed.

Lemma plain_string_literal_round_trip_witness :
  exists tok' s',
    next 16 Token_default
      (with_pos 4 (lexer_of no_trace (chars_of ("s = " ++ dq ++ "a b" ++ dq ++ ";"))))
      = Ok (TOK_STRING_LITERAL, tok') s'
    /\ payload tok' = AtomValue (chars_of "a b")
    /\ reports (cc_ s') = []
    /\ pos_ s' = 9%nat.
Proof.
  apply (@plain_string_literal_round_trip 16 Token_default
           (with_pos 4 (lexer_of no_trace (chars_of ("s = " ++ dq ++ "a b" ++ dq ++ ";"))))
           (chars_of "s = ") (chars_of "a b") (chars_of ";")).
  - repeat constructor.
  - split; reflexivity.
  - cbn. lia.
Defined.

(** ** Character literals *)

(** X8. A character literal of one plain byte [c] yields a [CHAR_LITERAL]
    token with value [c].  When the next byte [c2] is not the closing quote,
    [bad_char_terminator] is reported at the start of the literal (unless
    errors are suppressed) and the token is kept; a double quote is consumed
    in place of the closing quote, any other byte is left for the next
    token. *)
Theorem plain_char_literal_is_scanned (fuel : nat) (tok : Token) (s : Lexer)
    (pre : list Z) (c : Z) (text : list Z) :
  at_text s pre (chr "'" :: c :: text) ->
  c <> chr "'" -> c <> chr "\" ->
  -128 <= c <= 127 ->
  (2 <= fuel)%nat ->
  exists tok' s',
    next fuel tok s = Ok (TOK_CHAR_LITERAL, tok') s'
    /\ payload tok' = CharValue c
    /\ reports (cc_ s') =
         reports (cc_ s)
         ++ (if (first_or_nul text =? chr "'") || suppress_errors_ s then []
             else [mkMessage (Loc (pos_ s)) rmsg.bad_char_terminator []])
    /\ pos_ s' =
         if (first_or_nul text =? chr "'") || (first_or_nul text =? 34)
         then (pos_ s + 3)%nat else (pos_ s + 2)%nat.
Proof.
  intros Hat Hq Hb Hc Hfuel.
  destruct fuel as [| [| fuel]]; try lia.
  pose proof (at_text_read Hat) as Hat1.
  pose proof (at_text_read Hat1) as Hat2.
  assert (Hval : to_int32 c = c).
  { unfold to_int32. change (2 ^ 31) with 2147483648. change (2 ^ 32) with 4294967296.
    rewrite Z.mod_small; lia. }
  set (tok0 := Token_init (mkTokenPos (Loc (pos_ s)) (line_number_ s)) (range_id s) tok).
  set (tok1 := setCharValue c (set_kind TOK_CHAR_LITERAL tok0)).
  set (s2 := with_pos (S (S (S (pos_ s)))) s).
  set (c2 := first_or_nul text).
  assert (Hscan : scan (S (S fuel)) tok s =
            Ok (TOK_CHAR_LITERAL, tok1)
               (if c2 =? chr "'" then s2
                else let s3 := reported s2 (mkMessage (Loc (pos_ s)) rmsg.bad_char_terminator [])
                     in if c2 =? 34 then s3 else with_pos (pos_ s3 - 1) s3)).
  { rewrite (scan_quote fuel tok Hat). fold tok0. unfold charLiteral.
    rewrite (bind_run _ (readChar_text Hat1)). cbn [first_or_nul hd].
    rewrite (proj2 (Z.eqb_neq _ _) Hq), (proj2 (Z.eqb_neq _ _) Hb).
    step. fold tok1.
    rewrite (bind_run _ (readChar_text Hat2)). fold c2.
    destruct (c2 =? chr "'"); cbn [negb].
    - step. unfold ret. f_equal.
    - destruct (c2 =? 34); cbn [negb].
      + erewrite bind_run; cycle 1.
        { rewrite (bind_run _ (report_run _ _ _ _)). reflexivity. }
        unfold ret. f_equal.
      + erewrite bind_run; cycle 1.
        { rewrite (bind_run _ (report_run _ _ _ _)). reflexivity. }
        unfold ret. f_equal. }
  rewrite (@next_of_scan _ _ _ _ _ _ Hscan) by discriminate.
  do 2 eexists. split; [reflexivity |].
  split; [subst tok1; cbn; now rewrite Hval |].
  cbn [cc_ pos_ with_lexed_tokens_on_line].
  destruct (c2 =? chr "'"); cbn [orb].
  - subst s2. cbn. split; [now rewrite app_nil_r | lia].
  - cbv zeta. destruct (c2 =? 34); cbn [pos_ with_pos cc_];
      rewrite reports_reported, ?pos_reported; subst s2; cbn; split;
      try reflexivity; lia.
Qed.

Lemma plain_char_literal_is_scanned_witness :
  exists tok' s',
    next 4 Token_default (lexer_of no_trace (chars_of ("'5" ++ dq)))
      = Ok (TOK_CHAR_LITERAL, tok') s'
    /\ payload tok' = CharValue (chr "5")
    /\ reports (cc_ s') = [] ++ [mkMessage (Loc 0) rmsg.bad_char_terminator []]
    /\ pos_ s' = 3%nat.
Proof.
  apply (@plain_char_literal_is_scanned 4 Token_default
           (lexer_of no_trace (chars_of ("'5" ++ dq))) [] (chr "5") (chars_of dq)).
  - split; reflexivity.
  - discriminate.
  - discriminate.
  - vm_compute. split; discriminate.
  - lia.
Defined.

(** ** Decimal escape codes *)

Lemma to_char_step (a b : Z) : to_char (to_char a * 10 + b) = to_char (a * 10 + b).
Proof.
  unfold to_char. f_equal.
  rewrite (Z.mod_eq (a + 128) 256) by lia.
  replace ((a + 128 - 256 * ((a + 128) / 256) - 128) * 10 + b + 128)
    with (a * 10 + b + 128 + (- (10 * ((a + 128) / 256))) * 256) by ring.
  apply Z.mod_add. lia.
Qed.

Lemma escape_decimal_loop_run (ds : list Z) :
  forall (fuel : nat) (c r : Z) (s : Lexer) (pre rest : list Z),
    IsDigit c = true ->
    Forall (fun c => IsDigit c = true) ds ->
    IsDigit (first_or_nul rest) = false ->
    at_text s pre (ds ++ rest) ->
    (S (List.length ds) < fuel)%nat ->
    escape_decimal_loop fuel c (to_char r) s =
      Ok (first_or_nul rest,
          to_char (r * 10 ^ Z.of_nat (List.length (c :: ds)) + dec_value (c :: ds)))
         (with_pos (S (pos_ s + List.length ds)) s).
Proof.
  induction ds as [| d ds IH]; intros fuel c r s pre rest Hc Hds Hend Hat Hfuel;
    (destruct fuel as [| fuel]; [simpl in Hfuel; lia |]); simpl in Hat.
  - destruct fuel as [| fuel]; [simpl in Hfuel; lia |].
    cbn [escape_decimal_loop]. rewrite Hc.
    rewrite (bind_run _ (readChar_text Hat)). rewrite Hend. unfold ret.
    rewrite to_char_step. f_equal.
    + f_equal. f_equal. cbn [List.length dec_value Z.of_nat].
      change (10 ^ Z.of_nat 1) with 10. change (10 ^ Z.of_nat 0) with 1. ring.
    + lexer_eq.
  - inversion Hds as [| ? ? Hd Hds']; subst.
    cbn [escape_decimal_loop]. rewrite Hc.
    rewrite (bind_run _ (readChar_text Hat)). cbn [first_or_nul hd].
    rewrite to_char_step.
    rewrite (@IH fuel d (r * 10 + (c - chr "0")) _ (pre ++ [d]) rest
               Hd Hds' Hend (at_text_read Hat)) by (simpl in Hfuel; lia).
    f_equal.
    + f_equal. f_equal.
      assert (Hstep : forall n, 10 ^ Z.of_nat (S n) = 10 * 10 ^ Z.of_nat n)
        by (intros n; rewrite Nat2Z.inj_succ, Z.pow_succ_r by lia; reflexivity).
      cbn [List.length dec_value]. rewrite !Hstep. ring.
    + lexer_eq.
Qed.

(** X9. After a backslash, a run of decimal digits is read as a decimal
    escape: [readEscapeCode] returns the value of the digits reduced to a
    signed [char], consumes the digits and one following semicolon if there
    is one, and changes nothing else. *)
Theorem decimal_escape_value (fuel : nat) (s : Lexer) (pre ds rest : list Z) :
  ds <> [] ->
  Forall (fun c => IsDigit c = true) ds ->
  IsDigit (first_or_nul rest) = false ->
  at_text s pre (ds ++ rest) ->
  (List.length ds < fuel)%nat ->
  readEscapeCode fuel s =
    Ok (to_char (dec_value ds))
       (with_pos (if first_or_nul rest =? chr ";"
                  then S (pos_ s + List.length ds)
                  else (pos_ s + List.length ds)%nat) s).
Proof.
  intros Hne Hds Hend Hat Hfuel.
  destruct ds as [| d ds]; [congruence |].
  inversion Hds as [| ? ? Hd Hds']; subst.
  apply IsDigit_range in Hd as Hrange.
  cbn [app] in Hat. cbn [List.length] in Hfuel.
  unfold readEscapeCode. rewrite (bind_run _ (readChar_text Hat)).
  cbn [first_or_nul hd]. eval_chr. eqb_false d. cbn [orb].
  rewrite Hd.
  change 0 with (to_char 0) at 1.
  rewrite (bind_run _ (@escape_decimal_loop_run ds fuel d 0 _ (pre ++ [d]) rest
                         Hd Hds' Hend (at_text_read Hat) Hfuel)).
  cbv beta iota zeta.
  rewrite Z.mul_0_l, Z.add_0_l.
  destruct (first_or_nul rest =? 59); cbn [negb].
  - step. unfold ret. f_equal. lexer_eq.
  - step. unfold ret. f_equal. lexer_eq.
Qed.

Lemma decimal_escape_value_witness :
  readEscapeCode 8 (with_pos 2 (lexer_of no_trace (chars_of "'\200;'"))) =
    Ok (to_char (dec_value (chars_of "200")))
       (with_pos 6 (lexer_of no_trace (chars_of "'\200;'"))).
Proof.
  apply (@decimal_escape_value 8 (with_pos 2 (lexer_of no_trace (chars_of "'\200;'")))
           (chars_of "'\") (chars_of "200") (chars_of ";'")).
  - discriminate.
  - repeat constructor.
  - reflexivity.
  - split; reflexivity.
  - cbn. lia.
Defined.

(** ** Identifiers *)

Lemma IsIdentStart_range (c : Z) :
  IsIdentStart c = true <-> 97 <= c <= 122 \/ 65 <= c <= 90 \/ c = 95.
Proof.
  unfold IsIdentStart.
  change (chr "a") with 97. change (chr "z") with 122.
  change (chr "A") with 65. change (chr "Z") with 90. change (chr "_") with 95.
  rewrite !orb_true_iff, !andb_true_iff, !Z.leb_le, Z.eqb_eq. tauto.
Qed.

Lemma name_loop_run (cs : list Z) :
  forall (fuel : nat) (s : Lexer) (pre rest : list Z),
    Forall (fun c => IsIdentChar c = true) cs ->
    IsIdentChar (first_or_nul rest) = false ->
    at_text s pre (cs ++ rest) ->
    (List.length cs < fuel)%nat ->
    name_loop fuel s =
      Ok tt (with_pos (pos_ s + List.length cs)
               (with_literal (literal_ s ++ cs) s)).
Proof.
  induction cs as [| c cs IH]; intros fuel s pre rest Hcs Hend Hat Hfuel;
    (destruct fuel as [| fuel]; [simpl in Hfuel; lia |]); simpl in Hat.
  - cbn [name_loop]. rewrite (bind_run _ (readChar_text Hat)).
    rewrite Hend. cbn [negb]. unfold backup, modify. f_equal.
    lexer_eq. now rewrite app_nil_r.
  - inversion Hcs as [| ? ? Hc Hcs']; subst.
    cbn [name_loop]. rewrite (bind_run _ (readChar_text Hat)).
    cbn [first_or_nul hd]. rewrite Hc. cbn [negb]. step.
    apply at_text_read in Hat.
    erewrite IH with (pre := pre ++ [c]) (rest := rest);
      [| exact Hcs' | exact Hend | exact Hat | simpl in Hfuel; lia].
    f_equal. lexer_eq. now rewrite <- app_assoc.
Qed.

Lemma name_run (fuel : nat) (s : Lexer) (pre : list Z) (first : Z)
    (cs rest : list Z) :
  Forall (fun c => IsIdentChar c = true) cs ->
  IsIdentChar (first_or_nul rest) = false ->
  at_text s pre (cs ++ rest) ->
  (List.length cs < fuel)%nat ->
  name fuel first s =
    Ok TOK_NAME (with_pos (pos_ s + List.length cs)
                   (with_literal (first :: cs ++ [0]) s)).
Proof.
  intros Hcs Hend Hat Hfuel. unfold name. step. step.
  erewrite bind_run
    by (eapply (@name_loop_run cs fuel _ pre rest Hcs Hend); [exact Hat | exact Hfuel]).
  step. reflexivity.
Qed.

Lemma scan_ident (fuel : nat) (tok : Token) (s : Lexer) (pre : list Z) (c : Z)
    (text : list Z) :
  at_text s pre (c :: text) ->
  IsIdentStart c = true ->
  scan (S (S fuel)) tok s =
    handleIdentifier (S fuel)
      (Token_init (mkTokenPos (Loc (pos_ s)) (line_number_ s)) (range_id s) tok)
      c (with_pos (S (pos_ s)) s).
Proof.
  intros Hat Hc. apply IsIdentStart_range in Hc as Hrange.
  assert (Hnd : IsDigit c = false).
  { unfold IsDigit. change (chr "0") with 48. change (chr "9") with 57.
    apply andb_false_iff. rewrite !Z.leb_gt. lia. }
  cbn [scan]. unfold scan_body.
  rewrite (bind_run _ (consumeWhitespace_start fuel Hat ltac:(lia))).
  step. eval_chr. eqb_false c. cbn [andb orb].
  step. step. step.
  rewrite Hnd, Hc.
  cbn [pos_ with_pos line_number_ range_id Nat.sub]. rewrite Nat.sub_0_r.
  reflexivity.
Qed.

(** No macro is entered for the atom [a] in state [s]: expansion is off or
    the atom is not a macro. *)
Lemma no_macro_entered (s : Lexer) (a : Atom) (l : SourceLocation)
    {B} (k : bool -> M B) :
  macro_expansion (pp_ s) = false \/ lookup_atom a (macros (pp_ s)) = None ->
  bind (gets (fun s => macro_expansion (pp_ s)))
       (fun expansion =>
          bind (if expansion then enterMacro l a else ret false) k) s
  = k false s.
Proof.
  intros H. unfold bind at 1. unfold gets.
  destruct (macro_expansion (pp_ s)) eqn:Hexp.
  - destruct H as [H | H]; [discriminate |].
    unfold enterMacro, bind, gets. rewrite H. reflexivity.
  - reflexivity.
Qed.

Lemma findKeyword_run (a : Atom) (s : Lexer) :
  findKeyword a s =
    Ok (match lookup_atom a (keywords (pp_ s)) with
        | Some k => k
        | None => TOK_NONE
        end) s.
Proof.
  unfold findKeyword, bind, gets.
  now destruct (lookup_atom a (keywords (pp_ s))).
Qed.

(** What [scan] makes of an identifier that enters no macro. *)
Lemma scan_identifier (fuel : nat) (tok : Token) (s : Lexer) (pre : list Z)
    (c : Z) (cs rest : list Z) :
  IsIdentStart c = true ->
  Forall (fun c => IsIdentChar c = true) cs ->
  IsIdentChar (first_or_nul rest) = false ->
  at_text s pre (c :: cs ++ rest) ->
  macro_expansion (pp_ s) = false \/ lookup_atom (c :: cs) (macros (pp_ s)) = None ->
  (S (List.length cs) < fuel)%nat ->
  let tok1 := setAtom (c :: cs)
                (Token_init (mkTokenPos (Loc (pos_ s)) (line_number_ s))
                   (range_id s) tok) in
  let s1 := with_pos (S (pos_ s + List.length cs))
              (with_literal (c :: cs ++ [0]) s) in
  scan fuel tok s =
    match lookup_atom (c :: cs) (keywords (pp_ s)) with
    | Some TOK_NONE | None =>
        if first_or_nul rest =? chr ":"
        then Ok (TOK_LABEL, tok1) (with_pos (S (pos_ s1)) s1)
        else Ok (TOK_NAME, tok1) s1
    | Some k => Ok (k, tok1) s1
    end.
Proof.
  intros Hc Hcs Hend Hat Hmacro Hfuel tok1 s1.
  destruct fuel as [| [| fuel]]; try lia.
  rewrite (scan_ident fuel tok Hat Hc). unfold handleIdentifier.
  rewrite (bind_run _ (@name_run (S fuel) _ (pre ++ [c]) c cs rest Hcs Hend
                         (at_text_read Hat) ltac:(lia))).
  step. rewrite (@literal_text_terminated _ (c :: cs)) by reflexivity.
  cbv zeta. unfold cc_add.
  rewrite no_macro_entered by exact Hmacro.
  cbv iota.
  rewrite (bind_run _ (findKeyword_run _ _)).
  cbn [pp_ with_pos with_literal].
  assert (Hs1 : with_pos (pos_ (with_pos (S (pos_ s)) s) + List.length cs)
                  (with_literal (c :: cs ++ [0]) (with_pos (S (pos_ s)) s)) = s1)
    by (subst s1; lexer_eq).
  rewrite Hs1. fold tok1.
  assert (Hat1 : at_text s1 ((pre ++ [c]) ++ cs) rest).
  { destruct Hat as [Hch Hp]. split; subst s1; cbn.
    - rewrite Hch, <- !app_assoc. reflexivity.
    - rewrite Hp, !length_app. cbn. lia. }
  assert (Hlabel :
    (colon <- matchChar (chr ":") ;;
     if colon then ret (TOK_LABEL, tok1) else ret (TOK_NAME, tok1)) s1 =
    if first_or_nul rest =? chr ":"
    then Ok (TOK_LABEL, tok1) (with_pos (S (pos_ s1)) s1)
    else Ok (TOK_NAME, tok1) s1).
  { destruct (Z.eqb_spec (first_or_nul rest) (chr ":")) as [Heq | Hne].
    - destruct rest as [| r rest']; [discriminate Heq |].
      cbn [first_or_nul hd] in Heq. subst r.
      rewrite (bind_run _ (matchChar_hit Hat1)). reflexivity.
    - rewrite (bind_run _ (matchChar_miss Hat1 Hne)). reflexivity. }
  destruct (lookup_atom (c :: cs) (keywords (pp_ s))) as [k |]; [| exact Hlabel].
  destruct k; try reflexivity. exact Hlabel.
Qed.

(** X10. An identifier that is neither a macro to expand nor a keyword is
    lexed as [NAME] carrying its atom; when a colon follows at once, the
    colon is consumed and the token is a [LABEL].  Nothing is reported and
    the line is marked as holding a token. *)
Theorem identifier_is_name_or_label (fuel : nat) (tok : Token) (s : Lexer)
    (pre : list Z) (c : Z) (cs rest : list Z) :
  IsIdentStart c = true ->
  Forall (fun c => IsIdentChar c = true) cs ->
  IsIdentChar (first_or_nul rest) = false ->
  at_text s pre (c :: cs ++ rest) ->
  macro_expansion (pp_ s) = false \/ lookup_atom (c :: cs) (macros (pp_ s)) = None ->
  lookup_atom (c :: cs) (keywords (pp_ s)) = None ->
  (S (List.length cs) < fuel)%nat ->
  exists tok' s',
    next fuel tok s =
      Ok (if first_or_nul rest =? chr ":" then TOK_LABEL else TOK_NAME, tok') s'
    /\ payload tok' = AtomValue (c :: cs)
    /\ pos_ s' = (if first_or_nul rest =? chr ":"
                  then S (S (pos_ s + List.length cs))
                  else S (pos_ s + List.length cs))
    /\ reports (cc_ s') = reports (cc_ s)
    /\ lexed_tokens_on_line_ s' = true.
Proof.
  intros Hc Hcs Hend Hat Hmacro Hkw Hfuel.
  pose proof (@scan_identifier fuel tok s pre c cs rest Hc Hcs Hend Hat Hmacro Hfuel)
    as Hscan.
  cbv zeta in Hscan. rewrite Hkw in Hscan.
  destruct (first_or_nul rest =? chr ":");
    rewrite (@next_of_scan _ _ _ _ _ _ Hscan) by discriminate;
    do 2 eexists; (split; [reflexivity |]); repeat split.
Qed.

Lemma identifier_is_name_or_label_witness :
  exists tok' s',
    next 8 Token_default (lexer_of no_trace (chars_of "foo: bar")) =
      Ok (TOK_LABEL, tok') s'
    /\ payload tok' = AtomValue (chars_of "foo")
    /\ pos_ s' = 4%nat
    /\ reports (cc_ s') = []
    /\ lexed_tokens_on_line_ s' = true.
Proof.
  apply (@identifier_is_name_or_label 8 Token_default
           (lexer_of no_trace (chars_of "foo: bar")) [] (chr "f") (chars_of "oo")
           (chars_of ": bar")).
  - reflexivity.
  - repeat constructor.
  - reflexivity.
  - split; reflexivity.
  - now right.
  - reflexivity.
  - cbn. lia.
Defined.

(** X11. An identifier that the keyword table maps to a kind is lexed as
    that kind, and the keyword test comes before the label test: a colon
    after a keyword is not consumed. *)
Theorem keyword_is_not_a_label (fuel : nat) (tok : Token) (s : Lexer)
    (pre : list Z) (c : Z) (cs rest : list Z) (k : TokenKind) :
  IsIdentStart c = true ->
  Forall (fun c => IsIdentChar c = true) cs ->
  IsIdentChar (first_or_nul rest) = false ->
  at_text s pre (c :: cs ++ rest) ->
  macro_expansion (pp_ s) = false \/ lookup_atom (c :: cs) (macros (pp_ s)) = None ->
  lookup_atom (c :: cs) (keywords (pp_ s)) = Some k ->
  k <> TOK_NONE -> k <> TOK_COMMENT ->
  (S (List.length cs) < fuel)%nat ->
  exists tok' s',
    next fuel tok s = Ok (k, tok') s'
    /\ pos_ s' = S (pos_ s + List.length cs)
    /\ reports (cc_ s') = reports (cc_ s).
Proof.
  intros Hc Hcs Hend Hat Hmacro Hkw Hnone Hcomment Hfuel.
  pose proof (@scan_identifier fuel tok s pre c cs rest Hc Hcs Hend Hat Hmacro Hfuel)
    as Hscan.
  cbv zeta in Hscan. rewrite Hkw in Hscan.
  assert (Hscan' : scan fuel tok s =
            Ok (k, setAtom (c :: cs)
                     (Token_init (mkTokenPos (Loc (pos_ s)) (line_number_ s))
                        (range_id s) tok))
               (with_pos (S (pos_ s + List.length cs))
                  (with_literal (c :: cs ++ [0]) s)))
    by (destruct k; try congruence; exact Hscan).
  rewrite (@next_of_scan _ _ _ _ _ _ Hscan') by exact Hcomment.
  do 2 eexists. split; [reflexivity |]. split; reflexivity.
Qed.

Lemma keyword_is_not_a_label_witness :
  exists tok' s',
    next 8 Token_default
      (Lexer_new CompileContext_new
         (Preprocessor_new [(chars_of "default", TOK_KEYWORD 0)])
         no_trace (chars_of "default:") 1)
      = Ok (TOK_KEYWORD 0, tok') s'
    /\ pos_ s' = 7%nat
    /\ reports (cc_ s') = [].
Proof.
  apply (@keyword_is_not_a_label 8 Token_default
           (Lexer_new CompileContext_new
              (Preprocessor_new [(chars_of "default", TOK_KEYWORD 0)])
              no_trace (chars_of "default:") 1)
           [] (chr "d") (chars_of "efault") (chars_of ":") (TOK_KEYWORD 0)).
  - reflexivity.
  - repeat constructor.
  - reflexivity.
  - split; reflexivity.
  - now right.
  - reflexivity.
  - discriminate.
  - discriminate.
  - cbn. lia.
Defined.

(** ** Whitespace and line counting *)

Lemma advanceLine_lf (s : Lexer) :
  advanceLine 10 s =
    Ok tt (with_lexed_tokens_on_line false
             (with_line_number (S (line_number_ s)) s)).
Proof. reflexivity. Qed.

Lemma advanceLine_crlf (s : Lexer) (pre text : list Z) :
  at_text s pre (10 :: text) ->
  advanceLine 13 s =
    Ok tt (with_lexed_tokens_on_line false
             (with_line_number (S (line_number_ s)) (with_pos (S (pos_ s)) s))).
Proof.
  intros Hat. unfold advanceLine. step. change (13 =? 13) with true. cbv iota.
  erewrite bind_run; cycle 1.
  { rewrite (bind_run _ (readChar_text Hat)). reflexivity. }
  step. reflexivity.
Qed.

Lemma advanceLine_cr (s : Lexer) (pre text : list Z) :
  at_text s pre text ->
  first_or_nul text <> 10 ->
  advanceLine 13 s =
    Ok tt (with_lexed_tokens_on_line false
             (with_line_number (S (line_number_ s)) s)).
Proof.
  intros Hat Hne. unfold advanceLine. step. change (13 =? 13) with true. cbv iota.
  erewrite bind_run; cycle 1.
  { rewrite (bind_run _ (readChar_text Hat)).
    rewrite (proj2 (Z.eqb_neq _ _) Hne). reflexivity. }
  step. unfold modify. f_equal. lexer_eq.
Qed.

Ltac finish_lines :=
  unfold after_lines; f_equal; lexer_eq;
  cbn [count_lines];
  repeat match goal with
         | H : ?c <> ?k |- context [Z.eqb ?c ?k] =>
             rewrite (proj2 (Z.eqb_neq c k) H)
         end;
  change (10 =? 13) with false; change (10 =? 10) with true;
  change (13 =? 13) with true; cbv iota;
  cbn [Nat.eqb andb];
  rewrite ?andb_false_r, ?andb_true_r, ?Nat.add_0_r;
  try reflexivity; try lia.

Lemma consumeWhitespace_lines (n : nat) :
  forall (ws : list Z) (fuel : nat) (s : Lexer) (pre rest : list Z),
    (List.length ws <= n)%nat ->
    Forall (fun c => is_whitespace c = true) ws ->
    is_whitespace (first_or_nul rest) = false ->
    lexing_for_directive_ s = false ->
    at_text s pre (ws ++ rest) ->
    (List.length ws < fuel)%nat ->
    consumeWhitespace fuel s = Ok (first_or_nul rest) (after_lines s ws).
Proof.
  induction n as [| n IH]; intros ws fuel s pre rest Hlen Hws Hend Hdir Hat Hfuel.
  - destruct ws as [| c ws]; [| cbn in Hlen; lia].
    destruct fuel as [| fuel]; [cbn in Hfuel; lia |].
    cbn [app] in Hat. cbn [consumeWhitespace].
    rewrite (bind_run _ (readChar_text Hat)).
    unfold is_whitespace in Hend.
    repeat (apply orb_false_iff in Hend as [Hend ?]).
    repeat match goal with
           | H : Z.eqb _ _ = false |- _ => rewrite H; clear H
           end.
    cbn [orb]. unfold ret. finish_lines.
  - destruct ws as [| c ws]; [apply (IH [] fuel s pre rest); auto; cbn; lia |].
    destruct fuel as [| fuel]; [cbn in Hfuel; lia |].
    inversion Hws as [| ? ? Hc Hws']; subst.
    cbn [List.length] in Hlen, Hfuel. cbn [app] in Hat.
    pose proof (at_text_read Hat) as Hat1.
    cbn [consumeWhitespace]. rewrite (bind_run _ (readChar_text Hat)).
    cbn [first_or_nul hd].
    destruct (Z.eqb_spec c 10) as [-> | Hlf].
    + (* a line feed *)
      cbn [orb]. step.
      change (lexing_for_directive_ (with_pos (S (pos_ s)) s))
        with (lexing_for_directive_ s).
      rewrite Hdir.
      rewrite (bind_run _ (advanceLine_lf _)).
      rewrite (IH ws fuel _ (pre ++ [10]) rest); try assumption; try lia.
      finish_lines.
    + destruct (Z.eqb_spec c 13) as [-> | Hcr].
      * (* a carriage return *)
        cbn [orb]. step.
      change (lexing_for_directive_ (with_pos (S (pos_ s)) s))
        with (lexing_for_directive_ s).
      rewrite Hdir.
        destruct ws as [| c' ws'].
        -- cbn [app] in Hat1.
           rewrite (bind_run _ (@advanceLine_cr _ _ rest Hat1
                     ltac:(intros E; unfold is_whitespace in Hend;
                           rewrite E in Hend; discriminate))).
           rewrite (IH [] fuel _ (pre ++ [13]) rest); try assumption; try (cbn; lia).
           finish_lines.
        -- destruct (Z.eqb_spec c' 10) as [-> | Hc'].
           ++ cbn [app] in Hat1.
              rewrite (bind_run _ (advanceLine_crlf Hat1)).
              inversion Hws' as [| ? ? _ Hws'']; subst.
              rewrite (IH ws' fuel _ ((pre ++ [13]) ++ [10]) rest);
                try assumption; try (cbn [List.length] in *; lia).
              ** finish_lines.
              ** exact (at_text_read Hat1).
           ++ rewrite (bind_run _ (@advanceLine_cr _ _ ((c' :: ws') ++ rest) Hat1 Hc')).
              rewrite (IH (c' :: ws') fuel _ (pre ++ [13]) rest);
                try assumption; try lia.
              finish_lines.
      * (* a blank *)
        cbn [orb].
        unfold is_whitespace in Hc.
        rewrite (proj2 (Z.eqb_neq _ _) Hlf), (proj2 (Z.eqb_neq _ _) Hcr) in Hc.
        cbn [orb] in Hc. rewrite Hc.
        rewrite (IH ws fuel _ (pre ++ [c]) rest); try assumption; try lia.
        finish_lines.
Qed.

(** X12. Outside a directive, [consumeWhitespace] skips blanks and line
    ends up to the first other byte, which it returns (NUL at the end of the
    buffer).  The line number grows by the number of line ends skipped, a
    carriage return with the line feed after it counting once, and
    [lexed_tokens_on_line_] is cleared when a line end was skipped. *)
Theorem whitespace_lines_are_counted (fuel : nat) (s : Lexer)
    (pre ws rest : list Z) :
  Forall (fun c => is_whitespace c = true) ws ->
  is_whitespace (first_or_nul rest) = false ->
  lexing_for_directive_ s = false ->
  at_text s pre (ws ++ rest) ->
  (List.length ws < fuel)%nat ->
  exists s',
    consumeWhitespace fuel s = Ok (first_or_nul rest) s'
    /\ pos_ s' = S (pos_ s + List.length ws)
    /\ line_number_ s' = (line_number_ s + count_lines ws)%nat
    /\ lexed_tokens_on_line_ s' =
         lexed_tokens_on_line_ s && (count_lines ws =? 0)%nat
    /\ cc_ s' = cc_ s /\ ifstack_ s' = ifstack_ s /\ literal_ s' = literal_ s.
Proof.
  intros Hws Hend Hdir Hat Hfuel.
  exists (after_lines s ws). split.
  - apply (@consumeWhitespace_lines (List.length ws) ws fuel s pre rest);
      auto.
  - repeat split.
Qed.

Lemma whitespace_lines_are_counted_witness :
  exists s',
    consumeWhitespace 8
      (with_lexed_tokens_on_line true
         (lexer_of no_trace
            [chr " "; 13; 10; 9; 10; 13; chr "x"])) = Ok (chr "x") s'
    /\ pos_ s' = 7%nat
    /\ line_number_ s' = 4%nat
    /\ lexed_tokens_on_line_ s' = false
    /\ cc_ s' = CompileContext_new /\ ifstack_ s' = [] /\ literal_ s' = [].
Proof.
  apply (@whitespace_lines_are_counted 8
           (with_lexed_tokens_on_line true
              (lexer_of no_trace [chr " "; 13; 10; 9; 10; 13; chr "x"]))
           [] [chr " "; 13; 10; 9; 10; 13] [chr "x"]).
  - repeat constructor.
  - reflexivity.
  - reflexivity.
  - split; reflexivity.
  - cbn. lia.
Defined.

(** ** Line ends inside a directive *)

Lemma consumeWhitespace_directive (ws : list Z) :
  forall (fuel : nat) (s : Lexer) (pre rest : list Z),
    Forall (fun c => IsSkipSpace c = true) ws ->
    first_or_nul rest = 10 \/ first_or_nul rest = 13 ->
    lexing_for_directive_ s = true ->
    at_text s pre (ws ++ rest) ->
    (List.length ws < fuel)%nat ->
    consumeWhitespace fuel s =
      Ok (first_or_nul rest) (with_pos (pos_ s + List.length ws) s).
Proof.
  induction ws as [| c ws IH]; intros fuel s pre rest Hws Hend Hdir Hat Hfuel;
    (destruct fuel as [| fuel]; [simpl in Hfuel; lia |]); simpl in Hat.
  - cbn [consumeWhitespace]. rewrite (bind_run _ (readChar_text Hat)).
    assert (Hnl : (first_or_nul rest =? 10) || (first_or_nul rest =? 13) = true)
      by (destruct Hend as [-> | ->]; reflexivity).
    rewrite Hnl. step.
    change (lexing_for_directive_ (with_pos (S (pos_ s)) s))
      with (lexing_for_directive_ s).
    rewrite Hdir. step. unfold ret. f_equal. lexer_eq.
  - inversion Hws as [| ? ? Hc Hws']; subst.
    cbn [consumeWhitespace]. rewrite (bind_run _ (readChar_text Hat)).
    cbn [first_or_nul hd].
    assert (Hnl : (c =? 10) || (c =? 13) = false).
    { unfold IsSkipSpace in Hc. change (chr " ") with 32 in Hc.
      apply orb_false_iff. rewrite !Z.eqb_neq.
      repeat (apply orb_true_iff in Hc as [Hc | Hc]);
        apply Z.eqb_eq in Hc; lia. }
    rewrite Hnl. unfold IsSkipSpace in Hc. rewrite Hc.
    rewrite (IH fuel (with_pos (S (pos_ s)) s) (pre ++ [c]) rest Hws' Hend Hdir
               (at_text_read Hat))
      by (simpl in Hfuel; lia).
    f_equal. lexer_eq.
Qed.

(** X13. Inside a directive a line end is not consumed: after any blanks,
    [scan] answers [TOK_EOL] with the cursor left on the carriage return or
    line feed and the line number unchanged, so that every further call
    answers [TOK_EOL] from the same state. *)
Theorem directive_line_end_is_not_consumed (fuel : nat) (tok : Token)
    (s : Lexer) (pre ws rest : list Z) :
  Forall (fun c => IsSkipSpace c = true) ws ->
  first_or_nul rest = 10 \/ first_or_nul rest = 13 ->
  lexing_for_directive_ s = true ->
  at_text s pre (ws ++ rest) ->
  (S (List.length ws) < fuel)%nat ->
  let s' := with_pos (pos_ s + List.length ws) s in
  (exists tok', scan fuel tok s = Ok (TOK_EOL, tok') s')
  /\ (forall tok2, exists tok', scan fuel tok2 s' = Ok (TOK_EOL, tok') s').
Proof.
  assert (Hgen : forall (fuel : nat) (tok : Token) (s : Lexer) (pre ws rest : list Z),
    Forall (fun c => IsSkipSpace c = true) ws ->
    first_or_nul rest = 10 \/ first_or_nul rest = 13 ->
    lexing_for_directive_ s = true ->
    at_text s pre (ws ++ rest) ->
    (S (List.length ws) < fuel)%nat ->
    exists tok', scan fuel tok s = Ok (TOK_EOL, tok') (with_pos (pos_ s + List.length ws) s)).
  { clear. intros fuel tok s pre ws rest Hws Hend Hdir Hat Hfuel.
    destruct fuel as [| fuel]; [lia |].
    cbn [scan]. unfold scan_body.
    rewrite (bind_run _ (@consumeWhitespace_directive ws fuel s pre rest
                           Hws Hend Hdir Hat ltac:(lia))).
    step.
    destruct Hend as [-> | ->]; eval_chr;
      [eqb_compute 10 | eqb_compute 13]; cbn [andb orb];
      step; step; step; step;
      cbn [lexing_for_directive_ with_pos]; rewrite Hdir;
      step; eexists; reflexivity. }
  intros Hws Hend Hdir Hat Hfuel s'. split.
  - apply (Hgen fuel tok s pre ws rest); assumption.
  - intros tok2.
    assert (Hat' : at_text s' (pre ++ ws) ([] ++ rest)).
    { destruct Hat as [Hc Hp]. split; subst s'; lexer_fields; cbn [app].
      - now rewrite Hc, <- app_assoc.
      - now rewrite Hp, length_app. }
    destruct (Hgen fuel tok2 s' (pre ++ ws) [] rest (Forall_nil _) Hend Hdir Hat'
                ltac:(cbn; lia)) as [tok' Hrun].
    exists tok'. rewrite Hrun. f_equal. subst s'. lexer_eq.
Qed.

Lemma directive_line_end_is_not_consumed_witness :
  let s := with_lexing_for_directive true
             (with_pos 6 (lexer_of no_trace (chars_of ("#endif  " ++ nl ++ "x")))) in
  let s' := with_pos 8 s in
  (exists tok', scan 8 Token_default s = Ok (TOK_EOL, tok') s')
  /\ (forall tok2, exists tok', scan 8 tok2 s' = Ok (TOK_EOL, tok') s').
Proof.
  apply (@directive_line_end_is_not_consumed 8 Token_default
           (with_lexing_for_directive true
              (with_pos 6 (lexer_of no_trace (chars_of ("#endif  " ++ nl ++ "x")))))
           (chars_of "#endif") (chars_of "  ") (chars_of (nl ++ "x"))).
  - repeat constructor.
  - now left.
  - reflexivity.
  - split; reflexivity.
  - cbn. lia.
Defined.

(** ** Comments *)

Lemma read_to_line_end_run (body : list Z) :
  forall (fuel : nat) (s : Lexer) (pre rest : list Z),
    Forall (fun c => IsLineTerminator c = false) body ->
    IsLineTerminator (first_or_nul rest) = true ->
    at_text s pre (body ++ rest) ->
    (List.length body < fuel)%nat ->
    read_to_line_end fuel s = Ok tt (with_pos (pos_ s + List.length body) s).
Proof.
  induction body as [| c body IH]; intros fuel s pre rest Hbody Hend Hat Hfuel;
    (destruct fuel as [| fuel]; [simpl in Hfuel; lia |]); simpl in Hat.
  - cbn [read_to_line_end]. unfold bind at 1. unfold peekChar.
    rewrite (char_at_text Hat), Hend. cbn [negb]. unfold ret. f_equal. lexer_eq.
  - inversion Hbody as [| ? ? Hc Hbody']; subst.
    cbn [read_to_line_end]. unfold bind at 1. unfold peekChar.
    rewrite (char_at_text Hat). cbn [first_or_nul hd]. rewrite Hc. cbn [negb].
    step.
    rewrite (IH fuel (with_pos (S (pos_ s)) s) (pre ++ [c]) rest Hbody' Hend
               (at_text_read Hat)) by (simpl in Hfuel; lia).
    f_equal. lexer_eq.
Qed.

(** X14. Two slashes start a comment that runs up to the next line
    terminator (or the end of the buffer) and does not consume it: [scan]
    answers [TOK_COMMENT] with the token's end on the terminator, the line
    number unchanged and nothing reported. *)
Theorem line_comment_stops_before_line_end (fuel : nat) (tok : Token)
    (s : Lexer) (pre body rest : list Z) :
  Forall (fun c => IsLineTerminator c = false) body ->
  IsLineTerminator (first_or_nul rest) = true ->
  at_text s pre (chr "/" :: chr "/" :: body ++ rest) ->
  (S (List.length body) < fuel)%nat ->
  exists tok',
    scan fuel tok s =
      Ok (TOK_COMMENT, tok') (with_pos (pos_ s + 2 + List.length body) s)
    /\ kind tok' = TOK_COMMENT
    /\ start tok' = mkTokenPos (Loc (pos_ s)) (line_number_ s)
    /\ end_ tok' = mkTokenPos (Loc (pos_ s + 2 + List.length body)) (line_number_ s).
Proof.
  intros Hbody Hend Hat Hfuel.
  destruct fuel as [| [| fuel]]; try lia.
  pose proof (at_text_read Hat) as Hat1.
  cbn [scan]. unfold scan_body.
  rewrite (bind_run _ (consumeWhitespace_start fuel Hat ltac:(reflexivity))).
  step. eval_chr. eqb_compute 47. cbn [andb orb].
  step. step. step.
  rewrite (bind_run _ (@matchChar_miss _ _ _ 61 Hat1 ltac:(discriminate))).
  cbv iota.
  rewrite (bind_run _ (matchChar_hit Hat1)). cbv iota.
  unfold singleLineComment.
  rewrite (bind_run _ (@read_to_line_end_run body (S fuel) _ ((pre ++ [47]) ++ [47]) rest
                         Hbody Hend (at_text_read Hat1) ltac:(lia))).
  step. unfold ret. eexists. split.
  - f_equal. lexer_eq.
  - cbn [kind start end_ set_kind set_end Token_init pos_ with_pos line_number_
         Nat.sub].
    rewrite Nat.sub_0_r. repeat split. do 2 f_equal. lia.
Qed.

Lemma line_comment_stops_before_line_end_witness :
  exists tok',
    scan 16 Token_default (lexer_of no_trace (chars_of ("// note" ++ nl ++ "x"))) =
      Ok (TOK_COMMENT, tok')
         (with_pos 7 (lexer_of no_trace (chars_of ("// note" ++ nl ++ "x"))))
    /\ kind tok' = TOK_COMMENT
    /\ start tok' = mkTokenPos (Loc 0) 1
    /\ end_ tok' = mkTokenPos (Loc 7) 1.
Proof.
  apply (@line_comment_stops_before_line_end 16 Token_default
           (lexer_of no_trace (chars_of ("// note" ++ nl ++ "x")))
           [] (chars_of " note") (chars_of (nl ++ "x"))).
  - repeat constructor.
  - reflexivity.
  - split; reflexivity.
  - cbn. lia.
Defined.

Ltac finish_body :=
  unfold after_body; lexer_eq;
  cbn [count_lines];
  repeat match goal with
         | H : ?c <> ?k |- context [Z.eqb ?c ?k] =>
             rewrite (proj2 (Z.eqb_neq c k) H)
         end;
  change (10 =? 13) with false; change (10 =? 10) with true;
  change (13 =? 13) with true; cbv iota;
  cbn [Nat.eqb andb];
  rewrite ?andb_false_r, ?andb_true_r, ?Nat.add_0_r;
  try reflexivity; try lia.

(** The loop of [multiLineComment] over a text inside which the comment does
    not end: the text is skipped with its lines counted, and the loop goes on
    as [fin] says it does after the text. *)
Lemma multiLineComment_loop_body (tok : Token) (tail : list Z)
    (fin : Lexer -> Lexer) (n : nat) :
  first_or_nul tail <> 10 ->
  (forall fuel s1 pre1,
      at_text s1 pre1 tail -> (0 < fuel)%nat ->
      multiLineComment_loop fuel tok s1 = Ok tt (fin s1)) ->
  forall (body : list Z) (fuel : nat) (s : Lexer) (pre : list Z),
    (List.length body <= n)%nat ->
    open_comment body (first_or_nul tail) = true ->
    at_text s pre (body ++ tail) ->
    (List.length body < fuel)%nat ->
    multiLineComment_loop fuel tok s = Ok tt (fin (after_body s body)).
Proof.
  intros Htail Hfin.
  induction n as [| n IH]; intros body fuel s pre Hlen Hopen Hat Hfuel.
  - destruct body as [| c body]; [| cbn in Hlen; lia].
    cbn [app] in Hat. rewrite (Hfin fuel s pre Hat) by lia.
    f_equal. f_equal. finish_body.
  - destruct body as [| c body]; [apply (IH [] fuel s pre); auto; cbn; lia |].
    destruct fuel as [| fuel]; [cbn in Hfuel; lia |].
    cbn [List.length] in Hlen, Hfuel. cbn [app] in Hat.
    cbn [open_comment] in Hopen.
    apply andb_true_iff in Hopen as [Hopen Hrest].
    apply andb_true_iff in Hopen as [Hnul Hclose].
    apply negb_true_iff in Hnul, Hclose. apply Z.eqb_neq in Hnul.
    pose proof (at_text_read Hat) as Hat1.
    cbn [multiLineComment_loop]. rewrite (bind_run _ (readChar_text Hat)).
    cbn [first_or_nul hd].
    destruct (Z.eqb_spec c 10) as [-> | Hlf].
    + rewrite orb_true_r.
      rewrite (bind_run _ (advanceLine_lf _)).
      rewrite (IH body fuel _ (pre ++ [10])); try assumption; try lia.
      f_equal. f_equal. finish_body.
    + destruct (Z.eqb_spec c 13) as [-> | Hcr].
      * cbn [orb].
        destruct body as [| c' body'].
        -- cbn [app] in Hat1.
           rewrite (bind_run _ (@advanceLine_cr _ _ tail Hat1 Htail)).
           rewrite (IH [] fuel _ (pre ++ [13])); try assumption; try (cbn; lia).
           f_equal. f_equal. finish_body.
        -- destruct (Z.eqb_spec c' 10) as [-> | Hc'].
           ++ cbn [app] in Hat1.
              rewrite (bind_run _ (advanceLine_crlf Hat1)).
              cbn [open_comment] in Hrest.
              apply andb_true_iff in Hrest as [_ Hrest'].
              rewrite (IH body' fuel _ ((pre ++ [13]) ++ [10]));
                try assumption; try (cbn [List.length] in *; lia).
              ** f_equal. f_equal. finish_body.
              ** exact (at_text_read Hat1).
           ++ rewrite (bind_run _ (@advanceLine_cr _ _ ((c' :: body') ++ tail) Hat1 Hc')).
              rewrite (IH (c' :: body') fuel _ (pre ++ [13])); try assumption; try lia.
              f_equal. f_equal. finish_body.
      * cbn [orb]. rewrite (proj2 (Z.eqb_neq _ _) Hnul).
        assert (Hnext : multiLineComment_loop fuel tok (with_pos (S (pos_ s)) s)
                        = Ok tt (fin (after_body s (c :: body)))).
        { rewrite (IH body fuel _ (pre ++ [c])); try assumption; try lia.
          f_equal. f_equal. finish_body. }
        destruct (Z.eqb_spec c (chr "*")) as [-> | Hstar]; [| exact Hnext].
        cbn [andb] in Hclose. apply Z.eqb_neq in Hclose.
        assert (Hpeek : first_or_nul (body ++ tail) <> chr "/")
          by (destruct body; exact Hclose).
        rewrite (bind_run _ (matchChar_miss Hat1 Hpeek)). exact Hnext.
Qed.

Lemma scan_block_comment (fuel : nat) (tok : Token) (s : Lexer) (pre text : list Z) :
  at_text s pre (chr "/" :: chr "*" :: text) ->
  scan (S (S fuel)) tok s =
    multiLineComment (S fuel)
      (Token_init (mkTokenPos (Loc (pos_ s)) (line_number_ s)) (range_id s) tok)
      (with_pos (S (S (pos_ s))) s).
Proof.
  intros Hat. pose proof (at_text_read Hat) as Hat1.
  cbn [scan]. unfold scan_body.
  rewrite (bind_run _ (consumeWhitespace_start fuel Hat ltac:(reflexivity))).
  step. eval_chr. eqb_compute 47. cbn [andb orb].
  step. step. step.
  rewrite (bind_run _ (@matchChar_miss _ _ _ 61 Hat1 ltac:(discriminate))).
  cbv iota.
  rewrite (bind_run _ (@matchChar_miss _ _ _ 47 Hat1 ltac:(discriminate))).
  cbv iota.
  rewrite (bind_run _ (matchChar_hit Hat1)). cbv iota.
  cbn [pos_ with_pos line_number_ range_id Nat.sub]. rewrite Nat.sub_0_r.
  reflexivity.
Qed.

(** X15. A block comment that is still open at the end of the buffer is
    lexed as a [TOK_COMMENT] token; [unterminated_comment] is delivered
    once, at the start of the comment and also while errors are suppressed,
    and the lines inside the comment are counted. *)
Theorem unterminated_block_comment_is_reported (fuel : nat) (tok : Token)
    (s : Lexer) (pre body : list Z) :
  open_comment body 0 = true ->
  at_text s pre (chr "/" :: chr "*" :: body) ->
  (S (S (List.length body)) < fuel)%nat ->
  exists tok' s',
    scan fuel tok s = Ok (TOK_COMMENT, tok') s'
    /\ reports (cc_ s') =
         reports (cc_ s)
         ++ [mkMessage (Loc (pos_ s)) rmsg.unterminated_comment []]
    /\ line_number_ s' = (line_number_ s + count_lines body)%nat
    /\ pos_ s' = (pos_ s + 2 + List.length body + 1)%nat
    /\ end_ tok' = mkTokenPos (Loc (pos_ s')) (line_number_ s').
Proof.
  intros Hopen Hat Hfuel.
  destruct fuel as [| [| fuel]]; try lia.
  set (tok0 := Token_init (mkTokenPos (Loc (pos_ s)) (line_number_ s)) (range_id s) tok).
  set (msg := mkMessage (loc (start tok0)) rmsg.unterminated_comment []).
  rewrite (scan_block_comment fuel tok Hat). fold tok0.
  unfold multiLineComment.
  assert (Hat2 : at_text (with_pos (S (S (pos_ s))) s)
                   ((pre ++ [chr "/"]) ++ [chr "*"]) (body ++ []))
    by (rewrite app_nil_r; exact (at_text_read (at_text_read Hat))).
  erewrite bind_run; cycle 1.
  { apply (@multiLineComment_loop_body tok0 []
             (fun s1 => delivered (with_pos (S (pos_ s1)) s1) msg)
             (List.length body)) with (pre := (pre ++ [chr "/"]) ++ [chr "*"]);
      [ discriminate | | apply Nat.le_refl | exact Hopen | exact Hat2 | lia ].
    intros fuel' s1 pre1 Hat' Hpos.
    destruct fuel' as [| fuel']; [lia |].
    cbn [multiLineComment_loop]. rewrite (bind_run _ (readChar_text Hat')).
    reflexivity. }
  step. unfold ret. do 2 eexists. split; [reflexivity |].
  unfold delivered, after_body. lexer_fields.
  cbn [end_ set_kind set_end]. repeat split. lia.
Qed.

Lemma unterminated_block_comment_is_reported_witness :
  exists tok' s',
    scan 32 Token_default
      (with_suppress_errors true
         (lexer_of no_trace (chars_of ("/* a" ++ nl ++ "b *")))) = Ok (TOK_COMMENT, tok') s'
    /\ reports (cc_ s') = [] ++ [mkMessage (Loc 0) rmsg.unterminated_comment []]
    /\ line_number_ s' = 2%nat
    /\ pos_ s' = 9%nat
    /\ end_ tok' = mkTokenPos (Loc (pos_ s')) (line_number_ s').
Proof.
  apply (@unterminated_block_comment_is_reported 32 Token_default
           (with_suppress_errors true
              (lexer_of no_trace (chars_of ("/* a" ++ nl ++ "b *"))))
           [] (chars_of (" a" ++ nl ++ "b *"))).
  - reflexivity.
  - split; reflexivity.
  - cbn. lia.
Defined.

(** X16. A block comment runs to the first star that is followed by a slash
    and consumes both; the line ends inside it are counted, the token's end
    is the position after the slash, and nothing is reported. *)
Theorem block_comment_ends_at_first_close (fuel : nat) (tok : Token)
    (s : Lexer) (pre body rest : list Z) :
  open_comment body (chr "*") = true ->
  at_text s pre (chr "/" :: chr "*" :: body ++ chr "*" :: chr "/" :: rest) ->
  (S (S (List.length body)) < fuel)%nat ->
  exists tok' s',
    scan fuel tok s = Ok (TOK_COMMENT, tok') s'
    /\ reports (cc_ s') = reports (cc_ s)
    /\ line_number_ s' = (line_number_ s + count_lines body)%nat
    /\ pos_ s' = (pos_ s + 2 + List.length body + 2)%nat
    /\ lexed_tokens_on_line_ s' =
         lexed_tokens_on_line_ s && (count_lines body =? 0)%nat
    /\ end_ tok' = mkTokenPos (Loc (pos_ s')) (line_number_ s').
Proof.
  intros Hopen Hat Hfuel.
  destruct fuel as [| [| fuel]]; try lia.
  set (tok0 := Token_init (mkTokenPos (Loc (pos_ s)) (line_number_ s)) (range_id s) tok).
  rewrite (scan_block_comment fuel tok Hat). fold tok0.
  unfold multiLineComment.
  pose proof (at_text_read (at_text_read Hat)) as Hat2.
  erewrite bind_run; cycle 1.
  { apply (@multiLineComment_loop_body tok0 (chr "*" :: chr "/" :: rest)
             (fun s1 => with_pos (S (S (pos_ s1))) s1)
             (List.length body)) with (pre := (pre ++ [chr "/"]) ++ [chr "*"]);
      [ discriminate | | apply Nat.le_refl | exact Hopen | exact Hat2 | lia ].
    intros fuel' s1 pre1 Hat' Hpos.
    destruct fuel' as [| fuel']; [lia |].
    cbn [multiLineComment_loop]. rewrite (bind_run _ (readChar_text Hat')).
    cbn [first_or_nul hd]. eval_chr. eqb_compute 42. cbn [orb].
    rewrite (bind_run _ (matchChar_hit (at_text_read Hat'))).
    reflexivity. }
  step. unfold ret. do 2 eexists. split; [reflexivity |].
  unfold after_body. lexer_fields.
  cbn [end_ set_kind set_end]. repeat split. lia.
Qed.

Lemma block_comment_ends_at_first_close_witness :
  exists tok' s',
    scan 32 Token_default
      (lexer_of no_trace (chars_of ("/* a **" ++ nl ++ " b **/ c */"))) = Ok (TOK_COMMENT, tok') s'
    /\ reports (cc_ s') = []
    /\ line_number_ s' = 2%nat
    /\ pos_ s' = 14%nat
    /\ lexed_tokens_on_line_ s' = false
    /\ end_ tok' = mkTokenPos (Loc (pos_ s')) (line_number_ s').
Proof.
  apply (@block_comment_ends_at_first_close 32 Token_default
           (lexer_of no_trace (chars_of ("/* a **" ++ nl ++ " b **/ c */")))
           [] (chars_of (" a **" ++ nl ++ " b *")) (chars_of " c */")).
  - reflexivity.
  - split; reflexivity.
  - cbn. lia.
Defined.

(** ** Bytes that start no token *)

Lemma consumeWhitespace_token (fuel : nat) (s : Lexer) (pre : list Z) (c : Z)
    (text : list Z) :
  at_text s pre (c :: text) ->
  is_whitespace c = false ->
  consumeWhitespace (S fuel) s = Ok c (with_pos (S (pos_ s)) s).
Proof.
  intros Hat Hc. cbn [consumeWhitespace].
  rewrite (bind_run _ (readChar_text Hat)). cbn [first_or_nul hd].
  unfold is_whitespace in Hc.
  repeat (apply orb_false_iff in Hc as [Hc ?]).
  repeat match goal with
         | H : Z.eqb _ _ = false |- _ => rewrite H; clear H
         end.
  reflexivity.
Qed.

(** The diagnostic for a byte that starts no token. *)
Lemma scan_stray_byte (fuel : nat) (tok : Token) (s : Lexer) (pre : list Z)
    (c : Z) (text : list Z) :
  at_text s pre (c :: text) ->
  c < 0 \/ (c = chr "#" /\ lexed_tokens_on_line_ s = true) ->
  let tok0 := Token_init (mkTokenPos (Loc (pos_ s)) (line_number_ s)) (range_id s) tok in
  let s1 := with_pos (S (pos_ s)) s in
  scan (S (S fuel)) tok s =
    Ok (TOK_UNKNOWN, tok0)
       (if lexing_for_directive_ s then s1
        else delivered s1
               (mkMessage (Loc (pos_ s)) rmsg.unexpected_char
                  [ArgChars [c]; ArgByteHex (c mod 256)])).
Proof.
  intros Hat Hc tok0 s1.
  assert (Hws : is_whitespace c = false).
  { unfold is_whitespace. change (chr " ") with 32.
    destruct Hc as [Hc | [-> _]]; [| reflexivity].
    rewrite !orb_false_iff, !Z.eqb_neq. lia. }
  cbn [scan]. unfold scan_body.
  rewrite (bind_run _ (consumeWhitespace_token fuel Hat Hws)).
  step. cbn [lexed_tokens_on_line_ with_pos].
  assert (Hdirective : (c =? chr "#") && negb (lexed_tokens_on_line_ s) = false).
  { destruct Hc as [Hc | [-> Hl]].
    - change (chr "#") with 35. rewrite (proj2 (Z.eqb_neq c 35)) by lia. reflexivity.
    - rewrite Hl. reflexivity. }
  rewrite Hdirective.
  step. step. step.
  assert (Hnd : IsDigit c = false).
  { unfold IsDigit. change (chr "0") with 48. change (chr "9") with 57.
    apply andb_false_iff. rewrite !Z.leb_gt.
    destruct Hc as [Hc | [-> _]]; [lia | change (chr "#") with 35; lia]. }
  assert (Hni : IsIdentStart c = false).
  { destruct (IsIdentStart c) eqn:E; [| reflexivity].
    apply IsIdentStart_range in E.
    destruct Hc as [Hc | [-> _]]; [lia | change (chr "#") with 35 in E; lia]. }
  destruct Hc as [Hc | [Hc Hl]].
  - eval_chr. eqb_false c. cbn [orb]. rewrite Hnd, Hni.
    step. cbn [lexing_for_directive_ with_pos pos_ Nat.sub]. rewrite Nat.sub_0_r.
    fold tok0. fold s1.
    destruct (lexing_for_directive_ s); cbn [negb]; step; reflexivity.
  - subst c. eval_chr. eqb_compute 35. cbn [orb].
    change (IsDigit 35) with false. change (IsIdentStart 35) with false. cbv iota.
    step. cbn [lexing_for_directive_ with_pos pos_ Nat.sub]. rewrite Nat.sub_0_r.
    fold tok0. fold s1.
    destruct (lexing_for_directive_ s); cbn [negb]; step; reflexivity.
Qed.

(** X17. A byte outside ASCII (negative as a [char]) starts no token: it is
    lexed alone as [UNKNOWN], and [unexpected_char] is delivered with the
    byte and its hex code, except inside a directive, where nothing is
    reported. *)
Theorem non_ascii_byte_is_unknown (fuel : nat) (tok : Token) (s : Lexer)
    (pre : list Z) (c : Z) (text : list Z) :
  at_text s pre (c :: text) ->
  c < 0 ->
  (2 <= fuel)%nat ->
  exists tok' s',
    next fuel tok s = Ok (TOK_UNKNOWN, tok') s'
    /\ pos_ s' = S (pos_ s)
    /\ reports (cc_ s') =
         reports (cc_ s)
         ++ (if lexing_for_directive_ s then []
             else [mkMessage (Loc (pos_ s)) rmsg.unexpected_char
                     [ArgChars [c]; ArgByteHex (c mod 256)]]).
Proof.
  intros Hat Hc Hfuel.
  destruct fuel as [| [| fuel]]; try lia.
  pose proof (@scan_stray_byte fuel tok s pre c text Hat (or_introl Hc)) as Hscan.
  cbv zeta in Hscan.
  rewrite (@next_of_scan _ _ _ _ _ _ Hscan) by discriminate.
  do 2 eexists. split; [reflexivity |].
  destruct (lexing_for_directive_ s); cbn; split; try reflexivity.
  now rewrite app_nil_r.
Qed.

Lemma non_ascii_byte_is_unknown_witness :
  exists tok' s',
    next 4 Token_default (lexer_of no_trace [-61; -87]) = Ok (TOK_UNKNOWN, tok') s'
    /\ pos_ s' = 1%nat
    /\ reports (cc_ s') =
         [] ++ [mkMessage (Loc 0) rmsg.unexpected_char
                  [ArgChars [-61]; ArgByteHex (-61 mod 256)]].
Proof.
  apply (@non_ascii_byte_is_unknown 4 Token_default (lexer_of no_trace [-61; -87])
           [] (-61) [-87]).
  - split; reflexivity.
  - lia.
  - lia.
Defined.

(** X18. A [#] that comes after a token on its line does not start a
    directive: it is lexed as [UNKNOWN] and reported as [unexpected_char]
    (silently inside a directive), the if-stack is left as it was and only
    the [#] is consumed. *)
Theorem hash_after_token_is_no_directive (fuel : nat) (tok : Token) (s : Lexer)
    (pre text : list Z) :
  at_text s pre (chr "#" :: text) ->
  lexed_tokens_on_line_ s = true ->
  (2 <= fuel)%nat ->
  exists tok' s',
    next fuel tok s = Ok (TOK_UNKNOWN, tok') s'
    /\ pos_ s' = S (pos_ s)
    /\ ifstack_ s' = ifstack_ s
    /\ reports (cc_ s') =
         reports (cc_ s)
         ++ (if lexing_for_directive_ s then []
             else [mkMessage (Loc (pos_ s)) rmsg.unexpected_char
                     [ArgChars [chr "#"]; ArgByteHex (chr "#" mod 256)]]).
Proof.
  intros Hat Hlexed Hfuel.
  destruct fuel as [| [| fuel]]; try lia.
  pose proof (@scan_stray_byte fuel tok s pre (chr "#") text Hat
                (or_intror (conj eq_refl Hlexed))) as Hscan.
  cbv zeta in Hscan.
  rewrite (@next_of_scan _ _ _ _ _ _ Hscan) by discriminate.
  do 2 eexists. split; [reflexivity |].
  destruct (lexing_for_directive_ s); cbn; repeat split.
  now rewrite app_nil_r.
Qed.

Lemma hash_after_token_is_no_directive_witness :
  exists tok' s',
    next 4 Token_default
      (with_lexed_tokens_on_line true
         (with_pos 2 (lexer_of no_trace (chars_of "x #endif")))) = Ok (TOK_UNKNOWN, tok') s'
    /\ pos_ s' = 3%nat
    /\ ifstack_ s' = []
    /\ reports (cc_ s') =
         [] ++ [mkMessage (Loc 2) rmsg.unexpected_char
                  [ArgChars [chr "#"]; ArgByteHex (chr "#" mod 256)]].
Proof.
  apply (@hash_after_token_is_no_directive 4 Token_default
           (with_lexed_tokens_on_line true
              (with_pos 2 (lexer_of no_trace (chars_of "x #endif"))))
           (chars_of "x ") (chars_of "endif")).
  - split; reflexivity.
  - reflexivity.
  - lia.
Defined.

(** ** Directive lines *)

Lemma scan_directive_eol (fuel : nat) (tok : Token) (s : Lexer)
    (pre ws rest : list Z) :
  Forall (fun c => IsSkipSpace c = true) ws ->
  first_or_nul rest = 10 \/ first_or_nul rest = 13 ->
  lexing_for_directive_ s = true ->
  at_text s pre (ws ++ rest) ->
  (S (List.length ws) < fuel)%nat ->
  scan fuel tok s =
    Ok (TOK_EOL,
        Token_init (mkTokenPos (Loc (pos_ s + List.length ws - 1)) (line_number_ s))
          (range_id s) tok)
       (with_pos (pos_ s + List.length ws) s).
Proof.
  intros Hws Hend Hdir Hat Hfuel.
  destruct fuel as [| fuel]; [lia |].
  cbn [scan]. unfold scan_body.
  rewrite (bind_run _ (@consumeWhitespace_directive ws fuel s pre rest
                         Hws Hend Hdir Hat ltac:(lia))).
  step.
  destruct Hend as [-> | ->]; eval_chr;
    [eqb_compute 10 | eqb_compute 13]; cbn [andb orb];
    step; step; step; step;
    cbn [lexing_for_directive_ with_pos]; rewrite Hdir;
    step; reflexivity.
Qed.

Lemma SaveAndSet_run {A} (read : Lexer -> bool) (write : bool -> Lexer -> Lexer)
    (v : bool) (scope : M A) (s s2 : Lexer) (r : A) :
  scope (write v s) = Ok r s2 ->
  SaveAndSet read write v scope s = Ok r (write (read s) s2).
Proof.
  intros H. unfold SaveAndSet. step. step.
  rewrite (bind_run _ H). step. reflexivity.
Qed.

Lemma directive_next_eol (f fuel : nat) (tok : Token) (s : Lexer)
    (pre ws rest : list Z) :
  Forall (fun c => IsSkipSpace c = true) ws ->
  first_or_nul rest = 10 \/ first_or_nul rest = 13 ->
  lexing_for_directive_ s = true ->
  at_text s pre (ws ++ rest) ->
  (S (List.length ws) < f)%nat ->
  (1 <= fuel)%nat ->
  exists tok',
    directive_next (scan f) fuel tok s =
      Ok (TOK_EOL, tok') (with_pos (pos_ s + List.length ws) s)
    /\ kind tok' = TOK_EOL.
Proof.
  intros Hws Hend Hdir Hat Hf Hfuel.
  destruct fuel as [| fuel]; [lia |].
  unfold directive_next. step. rewrite Hdir. step.
  cbn [directive_next_loop].
  erewrite bind_run; cycle 1.
  { rewrite (bind_run _ (@scan_directive_eol f tok s pre ws rest
                           Hws Hend Hdir Hat Hf)).
    cbv beta iota. cbn [set_kind kind]. reflexivity. }
  step. eexists. split; reflexivity.
Qed.

(** At the end of a directive line, nothing is left to chew. *)
Lemma chew_at_line_end (f fuel : nat) (warn : bool) (s : Lexer)
    (pre ws rest : list Z) :
  Forall (fun c => IsSkipSpace c = true) ws ->
  first_or_nul rest = 10 \/ first_or_nul rest = 13 ->
  lexing_for_directive_ s = true ->
  at_text s pre (ws ++ rest) ->
  (S (List.length ws) < f)%nat ->
  (2 <= fuel)%nat ->
  chewLineAfterDirective (scan f) fuel warn s =
    Ok tt (with_pos (pos_ s + List.length ws) s).
Proof.
  intros Hws Hend Hdir Hat Hf Hfuel.
  destruct fuel as [| fuel]; try lia.
  unfold chewLineAfterDirective. step. rewrite Hdir. step.
  destruct (@directive_next_eol f fuel Token_default (with_suppress_errors true s)
              pre ws rest Hws Hend Hdir Hat Hf ltac:(lia)) as (tok' & Hrun & Hk).
  erewrite SaveAndSet_run; cycle 1.
  { cbn [chewLine_loop]. rewrite (bind_run _ Hrun). reflexivity. }
  f_equal; try lexer_eq.
Qed.

Lemma maybeKeyword_run (fuel : nat) (s : Lexer) (pre : list Z) (first : Z)
    (cs rest : list Z) :
  Forall (fun c => IsIdentChar c = true) cs ->
  IsIdentChar (first_or_nul rest) = false ->
  at_text s pre (cs ++ rest) ->
  (List.length cs < fuel)%nat ->
  maybeKeyword fuel first s =
    Ok (match lookup_atom (first :: cs) (keywords (pp_ s)) with
        | Some k => k
        | None => TOK_NONE
        end)
       (with_pos (pos_ s + List.length cs) (with_literal (first :: cs ++ [0]) s)).
Proof.
  intros Hcs Hend Hat Hfuel. unfold maybeKeyword.
  rewrite (bind_run _ (@name_run fuel s pre first cs rest Hcs Hend Hat Hfuel)).
  step. rewrite (@literal_text_terminated _ (first :: cs)) by reflexivity.
  rewrite findKeyword_run. reflexivity.
Qed.

Lemma scan_hash (fuel : nat) (tok : Token) (s : Lexer) (pre text : list Z) :
  at_text s pre (chr "#" :: text) ->
  lexed_tokens_on_line_ s = false ->
  scan (S (S fuel)) tok s =
    (enterPreprocessorDirective (scan (S fuel)) (S fuel) ;;; ret (TOK_NONE, tok))
      (with_pos (S (pos_ s)) s).
Proof.
  intros Hat Hlexed.
  cbn [scan]. unfold scan_body.
  rewrite (bind_run _ (consumeWhitespace_start fuel Hat ltac:(reflexivity))).
  step. cbn [lexed_tokens_on_line_ with_pos]. rewrite Hlexed.
  change (chr "#" =? chr "#") with true. reflexivity.
Qed.

Lemma blank_is_no_ident_char (c : Z) : IsSkipSpace c = true -> IsIdentChar c = false.
Proof.
  unfold IsSkipSpace. change (chr " ") with 32. intros H.
  assert (Hc : c = 32 \/ c = 9 \/ c = 12).
  { repeat (apply orb_true_iff in H as [H | H]); apply Z.eqb_eq in H; lia. }
  destruct Hc as [-> | [-> | ->]]; reflexivity.
Qed.

Lemma line_rest_is_no_ident_char (ws rest : list Z) :
  Forall (fun c => IsSkipSpace c = true) ws ->
  first_or_nul rest = 10 \/ first_or_nul rest = 13 ->
  IsIdentChar (first_or_nul (ws ++ rest)) = false.
Proof.
  intros Hws Hend. destruct ws as [| c ws]; cbn [app].
  - destruct Hend as [-> | ->]; reflexivity.
  - inversion Hws; subst. now apply blank_is_no_ident_char.
Qed.

(** A directive line whose handler leaves the cursor before the blanks that
    end the line, and the if-stack empty or active on top: the line is
    chewed up to its end and the scoped flag is restored. *)
Lemma directive_line_run (f : nat) (s0 sh : Lexer) (warn : bool)
    (pre ws rest : list Z) :
  handlePreprocessorDirective (scan f) f
    (with_lexing_for_directive true (with_lexed_tokens_on_line true s0))
    = Ok warn sh ->
  lexing_for_directive_ sh = true ->
  at_text sh pre (ws ++ rest) ->
  Forall (fun c => IsSkipSpace c = true) ws ->
  first_or_nul rest = 10 \/ first_or_nul rest = 13 ->
  currentIf sh = None \/ is_active (currentIf sh) = true ->
  (S (List.length ws) < f)%nat ->
  enterPreprocessorDirective (scan f) f s0 =
    Ok tt (with_lexing_for_directive (lexing_for_directive_ s0)
             (with_pos (pos_ sh + List.length ws) sh)).
Proof.
  intros Hhandle Hdir Hat Hws Hend Hif Hf.
  unfold enterPreprocessorDirective. step.
  erewrite bind_run; cycle 1.
  { apply SaveAndSet_run.
    rewrite (bind_run _ Hhandle).
    apply (@chew_at_line_end f f warn sh pre ws rest Hws Hend Hdir Hat Hf). lia. }
  step.
  set (s2 := with_lexing_for_directive _ _).
  assert (Hcur : currentIf s2 = currentIf sh) by reflexivity.
  rewrite Hcur.
  destruct Hif as [Hnone | Hact].
  - rewrite Hnone. reflexivity.
  - destruct (currentIf sh) as [ix |]; [| discriminate Hact].
    cbn [is_active] in Hact. rewrite Hact. reflexivity.
Qed.

(** The token and state of [next] on a directive line. *)
Lemma next_directive_line (fuel : nat) (tok : Token) (s sh : Lexer) (warn : bool)
    (pre text pre' ws rest : list Z) :
  at_text s pre (chr "#" :: text) ->
  lexed_tokens_on_line_ s = false ->
  handlePreprocessorDirective (scan (S fuel)) (S fuel)
    (with_lexing_for_directive true
       (with_lexed_tokens_on_line true (with_pos (S (pos_ s)) s)))
    = Ok warn sh ->
  lexing_for_directive_ sh = true ->
  at_text sh pre' (ws ++ rest) ->
  Forall (fun c => IsSkipSpace c = true) ws ->
  first_or_nul rest = 10 \/ first_or_nul rest = 13 ->
  currentIf sh = None \/ is_active (currentIf sh) = true ->
  (List.length ws < fuel)%nat ->
  exists tok',
    next (S (S fuel)) tok s =
      Ok (TOK_NONE, tok')
         (with_lexed_tokens_on_line false
            (with_lexing_for_directive (lexing_for_directive_ s)
               (with_pos (pos_ sh + List.length ws) sh))).
Proof.
  intros Hat Hlexed Hhandle Hdir Hat' Hws Hend Hif Hfuel.
  assert (Hscan : scan (S (S fuel)) tok s =
            Ok (TOK_NONE, tok)
               (with_lexing_for_directive (lexing_for_directive_ s)
                  (with_pos (pos_ sh + List.length ws) sh))).
  { rewrite (scan_hash fuel tok Hat Hlexed).
    rewrite (bind_run _ (@directive_line_run (S fuel) (with_pos (S (pos_ s)) s) sh warn
                           pre' ws rest Hhandle Hdir Hat' Hws Hend Hif ltac:(lia))).
    reflexivity. }
  rewrite (@next_of_scan _ _ _ _ _ _ Hscan) by discriminate.
  eexists. reflexivity.
Qed.

Lemma reported_unfold (s : Lexer) (m : Message) :
  reported s m =
    with_cc (mkCompileContext
               (reports (cc_ s) ++ (if suppress_errors_ s then [] else [m]))
               (pragma_dynamic (cc_ s))) s.
Proof.
  unfold reported, delivered. destruct (suppress_errors_ s); [| reflexivity].
  lexer_eq. rewrite app_nil_r. now destruct (cc_ s).
Qed.

(** X19. A line that holds only [#else] or only [#endif] while the if-stack
    is empty is an error that changes no state: [else_without_if]
    (respectively [endif_without_if]) is reported at the [#], the stack stays
    empty, [next] answers [TOK_NONE] with the cursor on the line end and the
    scoped flags as they were. *)
Theorem else_or_endif_without_if (fuel : nat) (tok : Token) (s : Lexer)
    (pre cs ws rest : list Z) (k : TokenKind) :
  at_text s pre (chr "#" :: cs ++ ws ++ rest) ->
  lexed_tokens_on_line_ s = false ->
  Forall (fun c => IsIdentChar c = true) cs ->
  Forall (fun c => IsSkipSpace c = true) ws ->
  first_or_nul rest = 10 \/ first_or_nul rest = 13 ->
  lookup_atom (chr "#" :: cs) (keywords (pp_ s)) = Some k ->
  k = TOK_M_ELSE \/ k = TOK_M_ENDIF ->
  ifstack_ s = [] ->
  (S (S (List.length cs + List.length ws)) < fuel)%nat ->
  exists tok' s',
    next fuel tok s = Ok (TOK_NONE, tok') s'
    /\ ifstack_ s' = []
    /\ reports (cc_ s') =
         reports (cc_ s)
         ++ (if suppress_errors_ s then []
             else [mkMessage (Loc (pos_ s))
                     (if kind_eqb k TOK_M_ELSE then rmsg.else_without_if
                      else rmsg.endif_without_if) []])
    /\ pos_ s' = (pos_ s + 1 + List.length cs + List.length ws)%nat
    /\ lexing_for_directive_ s' = lexing_for_directive_ s
    /\ suppress_errors_ s' = suppress_errors_ s
    /\ lexed_tokens_on_line_ s' = false.
Proof.
  intros Hat Hlexed Hcs Hws Hend Hkw Hk Hstack Hfuel.
  destruct fuel as [| [| fuel]]; try lia.
  set (sd := with_lexing_for_directive true
               (with_lexed_tokens_on_line true (with_pos (S (pos_ s)) s))).
  assert (Hatd : at_text sd (pre ++ [chr "#"]) (cs ++ ws ++ rest))
    by exact (at_text_read Hat).
  set (s1 := with_pos (pos_ sd + List.length cs)
               (with_literal (chr "#" :: cs ++ [0]) sd)).
  set (msg := mkMessage (Loc (pos_ s))
                (if kind_eqb k TOK_M_ELSE then rmsg.else_without_if
                 else rmsg.endif_without_if) []).
  assert (Hhandle : handlePreprocessorDirective (scan (S fuel)) (S fuel) sd
                    = Ok false (reported s1 msg)).
  { unfold handlePreprocessorDirective. step.
    rewrite (bind_run _ (@maybeKeyword_run (S fuel) sd _ (chr "#") cs (ws ++ rest)
                           Hcs (@line_rest_is_no_ident_char ws rest Hws Hend) Hatd
                           ltac:(lia))).
    change (keywords (pp_ sd)) with (keywords (pp_ s)). rewrite Hkw. fold s1.
    assert (Hcur : currentIf s1 = None)
      by (unfold currentIf; subst s1 sd; lexer_fields; now rewrite Hstack).
    destruct Hk as [-> | ->]; cbv iota; step; rewrite Hcur;
      rewrite (bind_run _ (report_run _ _ _ _));
      subst msg sd; cbn [pos_ with_pos with_lexing_for_directive
                          with_lexed_tokens_on_line Nat.sub];
      rewrite Nat.sub_0_r; reflexivity. }
  rewrite reported_unfold in Hhandle.
  destruct (@next_directive_line fuel tok s _ false pre (cs ++ ws ++ rest)
              ((pre ++ [chr "#"]) ++ cs) ws rest Hat Hlexed Hhandle)
    as [tok' Hnext]; try assumption; try lia.
  - reflexivity.
  - subst s1. lexer_fields. destruct Hatd as [Hc Hp]. split; lexer_fields.
    + rewrite Hc, <- !app_assoc. reflexivity.
    + rewrite Hp, !length_app. reflexivity.
  - left. unfold currentIf. subst s1 sd. lexer_fields. now rewrite Hstack.
  - do 2 eexists. split; [exact Hnext |].
    subst s1 sd msg. lexer_fields. repeat split; try assumption. lia.
Qed.

Lemma else_or_endif_without_if_witness :
  exists tok' s',
    next 16 Token_default (lexer_of no_trace (chars_of ("#endif " ++ nl ++ "x")))
      = Ok (TOK_NONE, tok') s'
    /\ ifstack_ s' = []
    /\ reports (cc_ s') = [] ++ [mkMessage (Loc 0) rmsg.endif_without_if []]
    /\ pos_ s' = 7%nat
    /\ lexing_for_directive_ s' = false
    /\ suppress_errors_ s' = false
    /\ lexed_tokens_on_line_ s' = false.
Proof.
  apply (@else_or_endif_without_if 16 Token_default
           (lexer_of no_trace (chars_of ("#endif " ++ nl ++ "x")))
           [] (chars_of "endif") (chars_of " ") (chars_of (nl ++ "x")) TOK_M_ENDIF).
  - split; reflexivity.
  - reflexivity.
  - repeat constructor.
  - repeat constructor.
  - now left.
  - reflexivity.
  - now right.
  - reflexivity.
  - cbn. lia.
Defined.







Lemma char_at_end (s : Lexer) (p : nat) :
  (buffer_length s <= p)%nat -> char_at s p = 0.
Proof.
  intros H. unfold char_at. apply Nat.leb_le in H. now rewrite H.
Qed.

Lemma consumeWhitespace_at_end (fuel : nat) (s : Lexer) :
  (buffer_length s <= pos_ s)%nat ->
  consumeWhitespace (S fuel) s = Ok 0 (with_pos (S (pos_ s)) s).
Proof.
  intros H. cbn [consumeWhitespace]. unfold bind at 1. unfold readChar.
  rewrite (char_at_end s H). reflexivity.
Qed.

(** Inside a directive the end of the buffer ends the line. *)
Lemma scan_directive_at_end (fuel : nat) (tok : Token) (s : Lexer) :
  (buffer_length s <= pos_ s)%nat ->
  lexing_for_directive_ s = true ->
  scan (S (S fuel)) tok s =
    Ok (TOK_EOL,
        Token_init (mkTokenPos (Loc (pos_ s)) (line_number_ s)) (range_id s) tok)
       (with_pos (S (pos_ s)) s).
Proof.
  intros Hend Hdir. cbn [scan]. unfold scan_body.
  rewrite (bind_run _ (consumeWhitespace_at_end fuel s Hend)).
  step. change (0 =? chr "#") with false. cbn [andb].
  step. step. step. change (0 =? 0) with true. cbv iota.
  step. cbn [lexing_for_directive_ with_pos]. rewrite Hdir.
  cbn [pos_ with_pos Nat.sub line_number_ range_id]. rewrite Nat.sub_0_r.
  reflexivity.
Qed.

Lemma handleEndOfFile_empty (s : Lexer) :
  ifstack_ s = [] -> handleEndOfFile s = Ok false s.
Proof.
  intros H. unfold handleEndOfFile, checkIfStackAtEndOfFile, bind, gets, currentIf.
  rewrite H. reflexivity.
Qed.

(** Outside a directive the end of the buffer is the end of the file, where
    the if-stack is checked. *)
Lemma scan_at_end (fuel : nat) (tok : Token) (s : Lexer) :
  (buffer_length s <= pos_ s)%nat ->
  lexing_for_directive_ s = false ->
  ifstack_ s = [] ->
  scan (S (S fuel)) tok s =
    Ok (TOK_EOF,
        Token_init (mkTokenPos (Loc (pos_ s)) (line_number_ s)) (range_id s) tok)
       (with_pos (S (pos_ s)) s).
Proof.
  intros Hend Hdir Hstack. cbn [scan]. unfold scan_body.
  rewrite (bind_run _ (consumeWhitespace_at_end fuel s Hend)).
  step. change (0 =? chr "#") with false. cbn [andb].
  step. step. step. change (0 =? 0) with true. cbv iota.
  step. cbn [lexing_for_directive_ with_pos]. rewrite Hdir.
  rewrite (bind_run _ (@handleEndOfFile_empty (with_pos (S (pos_ s)) s) Hstack)).
  cbv iota.
  cbn [pos_ with_pos Nat.sub line_number_ range_id]. rewrite Nat.sub_0_r.
  reflexivity.
Qed.

Lemma directive_next_at_end (f fuel : nat) (tok : Token) (s : Lexer) :
  (buffer_length s <= pos_ s)%nat ->
  lexing_for_directive_ s = true ->
  exists tok',
    directive_next (scan (S (S f))) (S fuel) tok s =
      Ok (TOK_EOL, tok') (with_pos (S (pos_ s)) s).
Proof.
  intros Hend Hdir.
  unfold directive_next. step. rewrite Hdir. step.
  cbn [directive_next_loop].
  erewrite bind_run; cycle 1.
  { rewrite (bind_run _ (@scan_directive_at_end f tok s Hend Hdir)).
    cbv beta iota. cbn [set_kind kind]. reflexivity. }
  step. eexists. reflexivity.
Qed.

Lemma chew_at_end (f fuel : nat) (warn : bool) (s : Lexer) :
  (buffer_length s <= pos_ s)%nat ->
  lexing_for_directive_ s = true ->
  (2 <= fuel)%nat ->
  chewLineAfterDirective (scan (S (S f))) fuel warn s =
    Ok tt (with_pos (S (pos_ s)) s).
Proof.
  intros Hend Hdir Hfuel.
  destruct fuel as [| [| fuel]]; try lia.
  unfold chewLineAfterDirective. step. rewrite Hdir. step.
  destruct (@directive_next_at_end f fuel Token_default (with_suppress_errors true s)
              Hend Hdir) as (tok' & Hrun).
  erewrite SaveAndSet_run; cycle 1.
  { cbn [chewLine_loop]. rewrite (bind_run _ Hrun). reflexivity. }
  f_equal; try lexer_eq.
Qed.

(** X22. [#endinput] ends the input whatever follows it and whatever
    conditionals are open: the directive answers [TOK_NONE], the token after
    it is [TOK_EOF], the if-stack is purged and no unterminated [#if] or
    [#else] is reported. *)
Theorem endinput_ends_the_input (fuel : nat) (tok tok2 : Token) (s : Lexer)
    (pre cs rest : list Z) :
  at_text s pre (chr "#" :: cs ++ rest) ->
  lexed_tokens_on_line_ s = false ->
  lexing_for_directive_ s = false ->
  Forall (fun c => IsIdentChar c = true) cs ->
  IsIdentChar (first_or_nul rest) = false ->
  lookup_atom (chr "#" :: cs) (keywords (pp_ s)) = Some TOK_M_ENDINPUT ->
  (S (S (S (List.length cs))) < fuel)%nat ->
  exists tok' s' tok'' s'',
    next fuel tok s = Ok (TOK_NONE, tok') s'
    /\ next fuel tok2 s' = Ok (TOK_EOF, tok'') s''
    /\ ifstack_ s'' = []
    /\ reports (cc_ s'') = reports (cc_ s).
Proof.
  intros Hat Hlexed Hdir Hcs Hrest Hkw Hfuel.
  destruct fuel as [| [| [| f]]]; try lia.
  set (sd := with_lexing_for_directive true
               (with_lexed_tokens_on_line true (with_pos (S (pos_ s)) s))).
  assert (Hatd : at_text sd (pre ++ [chr "#"]) (cs ++ rest))
    by exact (at_text_read Hat).
  set (s1 := with_pos (pos_ sd + List.length cs)
               (with_literal (chr "#" :: cs ++ [0]) sd)).
  set (sh := with_ifstack [] (with_pos (buffer_length s1) s1)).
  assert (Hhandle : handlePreprocessorDirective (scan (S (S f))) (S (S f)) sd
                    = Ok false sh).
  { unfold handlePreprocessorDirective. step.
    rewrite (bind_run _ (@maybeKeyword_run (S (S f)) sd _ (chr "#") cs rest
                           Hcs Hrest Hatd ltac:(lia))).
    change (keywords (pp_ sd)) with (keywords (pp_ s)). rewrite Hkw. fold s1.
    cbv iota. step. step. reflexivity. }
  set (s' := with_lexing_for_directive false (with_pos (S (buffer_length s)) sh)).
  assert (Hscan : scan (S (S (S f))) tok s = Ok (TOK_NONE, tok) s').
  { rewrite (scan_hash (S f) tok Hat Hlexed).
    erewrite bind_run; cycle 1.
    { unfold enterPreprocessorDirective. step.
      erewrite bind_run; cycle 1.
      { apply SaveAndSet_run. rewrite (bind_run _ Hhandle).
        apply (@chew_at_end f (S (S f)) false sh); [| reflexivity | lia].
        subst sh. lexer_fields. reflexivity. }
      step. reflexivity. }
    cbv beta. unfold ret. f_equal. subst s' sh s1 sd. lexer_eq. exact Hdir. }
  assert (Hscan2 : scan (S (S (S f))) tok2 (with_lexed_tokens_on_line false s')
                   = Ok (TOK_EOF,
                         Token_init (mkTokenPos (Loc (S (buffer_length s)))
                                       (line_number_ s)) (range_id s) tok2)
                        (with_pos (S (S (buffer_length s)))
                           (with_lexed_tokens_on_line false s'))).
  { apply (@scan_at_end (S f) tok2 (with_lexed_tokens_on_line false s')).
    - subst s' sh s1 sd. unfold buffer_length. lexer_fields. lia.
    - reflexivity.
    - reflexivity. }
  exists (set_end (mkTokenPos (Loc (pos_ s')) (line_number_ s')) (set_kind TOK_NONE tok)).
  exists (with_lexed_tokens_on_line false s').
  do 2 eexists.
  split; [exact (@next_of_scan _ _ _ _ _ _ Hscan ltac:(discriminate)) |].
  split; [exact (@next_of_scan _ _ _ _ _ _ Hscan2 ltac:(discriminate)) |].
  subst s' sh s1 sd. lexer_fields. split; reflexivity.
Qed.

Lemma endinput_ends_the_input_witness :
  exists tok' s' tok'' s'',
    next 16 Token_default
      (with_ifstack [IfContext.mk (Loc 0) IfContext.Active NoLoc]
         (with_pos 6 (lexer_of no_trace
                        (chars_of ("#if 1" ++ nl ++ "#endinput" ++ nl ++ "x")))))
      = Ok (TOK_NONE, tok') s'
    /\ next 16 Token_default s' = Ok (TOK_EOF, tok'') s''
    /\ ifstack_ s'' = []
    /\ reports (cc_ s'') = [].
Proof.
  apply (@endinput_ends_the_input 16 Token_default Token_default
           (with_ifstack [IfContext.mk (Loc 0) IfContext.Active NoLoc]
              (with_pos 6 (lexer_of no_trace
                             (chars_of ("#if 1" ++ nl ++ "#endinput" ++ nl ++ "x")))))
           (chars_of ("#if 1" ++ nl)) (chars_of "endinput") (chars_of (nl ++ "x"))).
  - split; reflexivity.
  - reflexivity.
  - reflexivity.
  - repeat constructor.
  - reflexivity.
  - reflexivity.
  - cbn. lia.
Defined.


























